(** * The love game of valentine-wish (src/modules/love-game.ts)

    A shallow embedding of the "Do You Love Me?" mini-game: the evasive
    "No" button (position, shrink scale, pleading messages) and the
    celebration triggered by "Yes".

    JavaScript numbers are IEEE 754 binary64 values, here Rocq's
    primitive [float]: geometry and scale as well as the two counters of
    the state record ([evasionCount], [currentMessageIndex]), which [++]
    advances by a floating-point addition of 1.  Mutable objects (the
    state record, DOM elements) are passed in and returned explicitly;
    [Math.random] is a stream of draws with a cursor.  The helpers of
    src/utils/dom.ts that the game calls are embedded over a small model
    of DOM elements.

    The motion preference that the game consults (src/utils/motion.ts) is
    embedded as well, over a small model of the browser's
    [MediaQueryList]. *)

From Stdlib Require Import Floats ZArith NArith Lia List String Bool Recdef.
From Stdlib Require Ascii.
From Stdlib Require Uint63.
Import ListNotations.

(* A decimal literal such as 0.1 denotes the nearest binary64 value, as it
   does in JavaScript. *)
Set Warnings "-inexact-float,-register-all".

Local Open Scope string_scope.

(** ** JavaScript numbers and built-ins *)

Module JS.

Local Open Scope float_scope.

Definition number := float.

(** [Number.isFinite]. *)
Definition isFinite (v : number) : bool := is_finite v.

Definition is_pos_zero (v : number) : bool :=
  match classify v with PZero => true | _ => false end.

Definition is_neg_zero (v : number) : bool :=
  match classify v with NZero => true | _ => false end.

(** One round of the loop of [Math.max] (ECMA-262, 21.3.2.24): [+0] beats
    [-0], otherwise a strictly larger number replaces the highest so far. *)
Definition Math_max_step (highest v : number) : number :=
  if is_pos_zero v && is_neg_zero highest then v
  else if highest <? v then v else highest.

(** [Math.max(a, b)]: [NaN] if either argument is, else the fold from
    [-Infinity]. *)
Definition Math_max (a b : number) : number :=
  if is_nan a || is_nan b then nan
  else fold_left Math_max_step [a; b] neg_infinity.

Definition Math_abs (v : number) : number := abs v.

(** The source of [Math.random]: the sequence of values that successive
    calls return, and how many have been consumed. *)
Record Random := mkRandom { draws : nat -> number; used : nat }.

Definition Math_random (g : Random) : number * Random :=
  (draws g (used g), {| draws := draws g; used := S (used g) |}).

(** What ECMA-262 promises of every value of [Math.random]: a number
    with positive sign, at least [+0] and strictly less than 1. *)
Definition unit_interval (v : number) : bool :=
  (0 <=? v) && (v <? 1) && negb (is_neg_zero v).

(** The number that an integer denotes: its correctly rounded binary64
    value (exact up to 2^53). *)
Definition number_of_N (n : N) : number :=
  SF2Prim (binary_normalize prec emax (Z.of_N n) 0 false).

(** [a % b] (ECMA-262, Number::remainder): [NaN] when an operand is
    [NaN], the dividend is infinite or the divisor is zero; the dividend
    when the divisor is infinite or the dividend is zero; otherwise the
    exact remainder of the truncating division, with the sign of the
    dividend. *)
Definition rem (a b : number) : number :=
  match Prim2SF a, Prim2SF b with
  | S754_nan, _ => nan
  | _, S754_nan => nan
  | S754_infinity _, _ => nan
  | _, S754_zero _ => nan
  | _, S754_infinity _ => a
  | S754_zero _, _ => a
  | S754_finite sa ma ea, S754_finite _ mb eb =>
      let e := Z.min ea eb in
      let r := ((Zpos ma * 2 ^ (ea - e)) mod (Zpos mb * 2 ^ (eb - e)))%Z in
      if (r =? 0)%Z then (if sa then neg_zero else zero)
      else SF2Prim (binary_normalize prec emax (if sa then (- r)%Z else r) e false)
  end.

(** The integer that a number is, if it is one and not negative; [-0]
    counts as 0, as in the property key that [arr[v]] reads. *)
Definition integer_value (v : number) : option Z :=
  match Prim2SF v with
  | S754_zero _ => Some 0%Z
  | S754_finite false m e =>
      if (0 <=? e)%Z then Some (Zpos m * 2 ^ e)%Z
      else if (Zpos m mod 2 ^ (- e) =? 0)%Z then Some (Zpos m / 2 ^ (- e))%Z
           else None
  | _ => None
  end.

(** [arr[v]]: [undefined] ([None]) unless [v] is an integer within the
    array. *)
Definition index {A : Type} (arr : list A) (v : number) : option A :=
  match integer_value v with
  | Some k =>
      if (k <? Z.of_nat (List.length arr))%Z then nth_error arr (Z.to_nat k)
      else None
  | None => None
  end.

(** [a % b] and [arr[i]] for a loop variable that only holds integers
    below 2^53, where binary64 arithmetic is exact; [None] stands for
    [NaN] and for [undefined]. *)
Definition int_rem (a b : N) : option N :=
  if (b =? 0)%N then None else Some (a mod b)%N.

Definition int_index {A : Type} (arr : list A) (i : option N) : option A :=
  match i with
  | Some k => nth_error arr (N.to_nat k)
  | None => None
  end.

(** [v ?? d]. *)
Definition nullish {A : Type} (v : option A) (d : A) : A :=
  match v with
  | Some a => a
  | None => d
  end.

End JS.

(** ** The part of the DOM the module reads and writes *)

Module Dom.

(** A style value.  Template literals such as [`${x}px`] keep their number
    instead of its decimal rendering. *)
Inductive CssValue :=
| CssText (s : string)
| CssPx (v : JS.number)
| CssPercent (v : JS.number)
| CssSeconds (v : JS.number)
| CssScale (v : JS.number).

(** An element: tag, class list, text, attributes, inline style, children,
    and the width and height that [getBoundingClientRect] reports for it
    (decided by layout, outside the module). *)
Inductive Element := mkElement {
  tagName : string;
  classList : list string;
  textContent : string;
  attributes : list (string * string);
  style : list (string * CssValue);
  childNodes : list Element;
  rectWidth : JS.number;
  rectHeight : JS.number
}.

Record DOMRect := mkDOMRect { width : JS.number; height : JS.number }.

Definition getBoundingClientRect (e : Element) : DOMRect :=
  {| width := rectWidth e; height := rectHeight e |}.

Definition hasClass (e : Element) (c : string) : bool :=
  existsb (String.eqb c) (classList e).

Definition with_classList (e : Element) (l : list string) : Element :=
  mkElement (tagName e) l (textContent e) (attributes e) (style e)
            (childNodes e) (rectWidth e) (rectHeight e).

Definition with_style (e : Element) (s : list (string * CssValue)) : Element :=
  mkElement (tagName e) (classList e) (textContent e) (attributes e) s
            (childNodes e) (rectWidth e) (rectHeight e).

Definition with_childNodes (e : Element) (l : list Element) : Element :=
  mkElement (tagName e) (classList e) (textContent e) (attributes e) (style e)
            l (rectWidth e) (rectHeight e).

(** [e.textContent = s]: the children are replaced by the text. *)
Definition set_textContent (e : Element) (s : string) : Element :=
  mkElement (tagName e) (classList e) s (attributes e) (style e)
            [] (rectWidth e) (rectHeight e).

(** [e.innerHTML = '']. *)
Definition clear_innerHTML (e : Element) : Element := set_textContent e "".

Definition appendChild (parent child : Element) : Element :=
  with_childNodes parent (childNodes parent ++ [child]).

(** *** src/utils/dom.ts

    The helpers of utils/dom.ts that the game calls, over the browser's
    [classList], [className], [textContent], [setAttribute] and
    [style.setProperty]. *)

(** [classList.add(token)] and [classList.remove(token)]. *)
Definition classList_add (e : Element) (token : string) : Element :=
  if hasClass e token then e else with_classList e (classList e ++ [token]).

Definition classList_remove (e : Element) (token : string) : Element :=
  with_classList e (filter (fun d => negb (String.eqb token d)) (classList e)).

(** [addClass(element, ...classes)]: [element.classList.add(...classes)]. *)
Definition addClass (element : Element) (classes : list string) : Element :=
  fold_left classList_add classes element.

(** [removeClass(element, ...classes)]:
    [element.classList.remove(...classes)]. *)
Definition removeClass (element : Element) (classes : list string) : Element :=
  fold_left classList_remove classes element.

(** The tokens of a class attribute: the maximal runs of characters other
    than ASCII whitespace, each once, in order of first occurrence. *)
Definition is_whitespace (c : Ascii.ascii) : bool :=
  let n := Ascii.nat_of_ascii c in
  Nat.eqb n 32 || Nat.eqb n 9 || Nat.eqb n 10 || Nat.eqb n 12 || Nat.eqb n 13.

Fixpoint split_tokens (s current : string) : list string :=
  match s with
  | EmptyString => if String.eqb current "" then [] else [current]
  | String c rest =>
      if is_whitespace c
      then (if String.eqb current "" then split_tokens rest ""
            else current :: split_tokens rest "")
      else split_tokens rest (current ++ String c "")
  end.

Definition tokens (s : string) : list string :=
  nodup string_dec (split_tokens s "").

(** [element.className = s]. *)
Definition set_className (e : Element) (s : string) : Element :=
  with_classList e (tokens s).

(** [element.setAttribute(key, value)]: the attribute is changed where it
    stands, or added after the others. *)
Fixpoint assign_attribute (l : list (string * string)) (key value : string)
    : list (string * string) :=
  match l with
  | [] => [(key, value)]
  | (k, v) :: rest =>
      if String.eqb k key then (k, value) :: rest
      else (k, v) :: assign_attribute rest key value
  end.

Definition setAttribute (e : Element) (kv : string * string) : Element :=
  mkElement (tagName e) (classList e) (textContent e)
            (assign_attribute (attributes e) (fst kv) (snd kv))
            (style e) (childNodes e) (rectWidth e) (rectHeight e).

(** The options of [createElement] that the game passes.  An option that
    is absent and one that is the empty string or the empty object are
    both skipped by the tests [if (options.x)] and by the loop over the
    entries; [id], [innerHTML], [dataset] and [children] are never passed
    and are left out. *)
Record CreateElementOptions := mkOptions {
  className : string;
  opt_textContent : string;
  opt_attributes : list (string * string)
}.

(** [document.createElement(tag)]: a detached element, without a layout
    box. *)
Definition document_createElement (tag : string) : Element :=
  mkElement tag [] "" [] [] [] 0%float 0%float.

(** [createElement(tag, options)]. *)
Definition createElement (tag : string) (options : CreateElementOptions) : Element :=
  let element := document_createElement tag in
  let element1 :=
    if String.eqb (className options) "" then element
    else set_className element (className options) in
  let element2 :=
    if String.eqb (opt_textContent options) "" then element1
    else set_textContent element1 (opt_textContent options) in
  fold_left setAttribute (opt_attributes options) element2.

(** [str.replace(/[A-Z]/g, (letter) => `-${letter.toLowerCase()}`)]. *)
Definition dash : Ascii.ascii := Ascii.ascii_of_nat 45.

Definition is_upper (c : Ascii.ascii) : bool :=
  let n := Ascii.nat_of_ascii c in Nat.leb 65 n && Nat.leb n 90.

Definition toLowerCase (c : Ascii.ascii) : Ascii.ascii :=
  if is_upper c then Ascii.ascii_of_nat (Ascii.nat_of_ascii c + 32) else c.

Fixpoint camelToKebab (str : string) : string :=
  match str with
  | EmptyString => EmptyString
  | String letter rest =>
      if is_upper letter
      then String dash (String (toLowerCase letter) (camelToKebab rest))
      else String letter (camelToKebab rest)
  end.

(** [property.includes('-')]. *)
Fixpoint includes_dash (property : string) : bool :=
  match property with
  | EmptyString => false
  | String c rest => Ascii.eqb c dash || includes_dash rest
  end.

(** Whether the CSS parser accepts a value for a property.  The keywords
    that the game passes are values of their properties; a dimension, a
    percentage, a time or a scale needs a finite number ([NaNpx],
    [Infinity%] and [scale(NaN)] are not CSS), and a duration must not be
    negative. *)
Definition css_valid (property : string) (value : CssValue) : bool :=
  match value with
  | CssText _ => true
  | CssPx v => JS.isFinite v
  | CssPercent v => JS.isFinite v
  | CssSeconds v =>
      JS.isFinite v
      && (if String.eqb property "animation-duration" then (0 <=? v)%float else true)
  | CssScale v => JS.isFinite v
  end.

Fixpoint assign_declaration (s : list (string * CssValue)) (property : string)
    (value : CssValue) : list (string * CssValue) :=
  match s with
  | [] => [(property, value)]
  | (k, v) :: rest =>
      if String.eqb k property then (k, value) :: rest
      else (k, v) :: assign_declaration rest property value
  end.

(** [style.setProperty(property, value)]: the empty string removes the
    declaration; a value that does not parse changes nothing; otherwise
    the declaration is updated where it stands, or added at the end. *)
Definition setProperty (s : list (string * CssValue)) (kv : string * CssValue)
    : list (string * CssValue) :=
  match snd kv with
  | CssText "" => filter (fun p => negb (String.eqb (fst kv) (fst p))) s
  | value =>
      if css_valid (fst kv) value then assign_declaration s (fst kv) value else s
  end.

(** One round of the loop of [setStyles]. *)
Definition set_style_property (s : list (string * CssValue))
    (entry : string * CssValue) : list (string * CssValue) :=
  let kebabProperty :=
    if includes_dash (fst entry) then fst entry else camelToKebab (fst entry) in
  setProperty s (kebabProperty, snd entry).

(** [setStyles(element, styles)]; the entries of [styles] are in the order
    of the object literal, and none of the values is [undefined]. *)
Definition setStyles (element : Element) (styles : list (string * CssValue)) : Element :=
  with_style element (fold_left set_style_property styles (style element)).

(** [querySelector('.c')] on an element: the first descendant, in document
    order, that carries the class, as the path of child indices to it. *)
Fixpoint querySelectorClass (c : string) (e : Element) : option (list nat) :=
  (fix scan (l : list Element) (i : nat) : option (list nat) :=
     match l with
     | [] => None
     | child :: rest =>
         if hasClass child c then Some [i]
         else match querySelectorClass c child with
              | Some p => Some (i :: p)
              | None => scan rest (S i)
              end
     end) (childNodes e) 0%nat.

(** The scan of a list of siblings inside [querySelectorClass], from child
    index [i]. *)
Definition scanClass (c : string) : list Element -> nat -> option (list nat) :=
  fix scan (l : list Element) (i : nat) : option (list nat) :=
    match l with
    | [] => None
    | child :: rest =>
        if hasClass child c then Some [i]
        else match querySelectorClass c child with
             | Some p => Some (i :: p)
             | None => scan rest (S i)
             end
    end.

(** The element at a path, and the tree with the element at a path
    replaced: reading and writing through the reference that
    [querySelector] returned. *)
Fixpoint nodeAt (p : list nat) (e : Element) : option Element :=
  match p with
  | [] => Some e
  | i :: q =>
      match nth_error (childNodes e) i with
      | Some child => nodeAt q child
      | None => None
      end
  end.

Fixpoint replace_nth {A : Type} (i : nat) (f : A -> A) (l : list A) : list A :=
  match l, i with
  | [], _ => []
  | a :: r, O => f a :: r
  | a :: r, S j => a :: replace_nth j f r
  end.

Fixpoint updateAt (p : list nat) (f : Element -> Element) (e : Element) : Element :=
  match p with
  | [] => f e
  | i :: q => with_childNodes e (replace_nth i (updateAt q f) (childNodes e))
  end.

End Dom.

(** ** The game *)

Module LoveGame.

Import JS Dom.

Local Open Scope float_scope.

Record LoveGameConfig := mkConfig {
  questionText : string;
  yesButtonText : string;
  noButtonText : string;
  evasionSpeed : number;
  celebrationDuration : number;
  shrinkThreshold : number;
  minButtonScale : number;
  containerSelector : string;
  yesButtonSelector : string;
  noButtonSelector : string;
  celebrationSelector : string;
  pleadingMessages : list string;
  celebrationTitle : string;
  celebrationSubtitle : string
}.

Record Position := mkPosition { x : number; y : number }.

Record LoveGameState := mkState {
  noButtonPosition : Position;
  hasAnsweredYes : bool;
  evasionCount : number;
  noButtonScale : number;
  currentMessageIndex : number
}.

Definition set_noButtonPosition (s : LoveGameState) (p : Position) :=
  mkState p (hasAnsweredYes s) (evasionCount s) (noButtonScale s)
          (currentMessageIndex s).

Definition set_hasAnsweredYes (s : LoveGameState) (b : bool) :=
  mkState (noButtonPosition s) b (evasionCount s) (noButtonScale s)
          (currentMessageIndex s).

Definition set_evasionCount (s : LoveGameState) (n : number) :=
  mkState (noButtonPosition s) (hasAnsweredYes s) n (noButtonScale s)
          (currentMessageIndex s).

Definition set_noButtonScale (s : LoveGameState) (v : number) :=
  mkState (noButtonPosition s) (hasAnsweredYes s) (evasionCount s) v
          (currentMessageIndex s).

Definition set_currentMessageIndex (s : LoveGameState) (n : number) :=
  mkState (noButtonPosition s) (hasAnsweredYes s) (evasionCount s)
          (noButtonScale s) n.

(** The [loveGame] entry of the site configuration (src/config.ts).  Its
    texts are personalised, and its pleading messages pick pet names at
    random when the module loads, so it is a parameter here. *)
Record SiteLoveGame := mkSite {
  site_question : string;
  site_yesButtonText : string;
  site_noButtonText : string;
  site_celebrationTitle : string;
  site_celebrationSubtitle : string;
  site_pleadingMessages : list string
}.

Definition PLEADING_MESSAGES (site : SiteLoveGame) : list string :=
  site_pleadingMessages site.

Definition DEFAULT_CONFIG (site : SiteLoveGame) : LoveGameConfig :=
  {| questionText := site_question site;
     yesButtonText := site_yesButtonText site;
     noButtonText := site_noButtonText site;
     evasionSpeed := 100;
     celebrationDuration := 3000;
     shrinkThreshold := 5;
     minButtonScale := 0.3;
     containerSelector := "#game-container";
     yesButtonSelector := "#yes-button";
     noButtonSelector := "#no-button";
     celebrationSelector := "#celebration";
     pleadingMessages := PLEADING_MESSAGES site;
     celebrationTitle := site_celebrationTitle site;
     celebrationSubtitle := site_celebrationSubtitle site |}.

Definition createInitialState : LoveGameState :=
  {| noButtonPosition := {| x := 0; y := 0 |};
     hasAnsweredYes := false;
     evasionCount := 0;
     noButtonScale := 1;
     currentMessageIndex := 0 |}.

Definition maxAttempts : N := 10%N.

(** The do-while loop of [calculateEvasionPosition], entered with
    [attempts] draws already made: draw a candidate, count it, and go
    round again while the budget allows and the candidate is within 50 of
    the current position on both axes.  It yields the candidate, the
    number of attempts and the random source after the draws. *)
Function evasionLoop (safeMaxX safeMaxY : number) (currentPosition : Position)
    (attempts : N) (g : Random)
    {measure (fun a => N.to_nat (maxAttempts - a)) attempts}
    : Position * (N * Random) :=
  let newX := (fst (Math_random g) * safeMaxX)%float in
  let g1 := snd (Math_random g) in
  let newY := (fst (Math_random g1) * safeMaxY)%float in
  let g2 := snd (Math_random g1) in
  let attempts' := (attempts + 1)%N in
  if (attempts' <? maxAttempts)%N
     && (Math_abs (newX - x currentPosition) <? 50)%float
     && (Math_abs (newY - y currentPosition) <? 50)%float
  then evasionLoop safeMaxX safeMaxY currentPosition attempts' g2
  else ({| x := newX; y := newY |}, (attempts', g2)).
Proof.
  intros safeMaxX safeMaxY currentPosition attempts g teq.
  apply andb_prop in teq; destruct teq as [teq _].
  apply andb_prop in teq; destruct teq as [teq _].
  apply N.ltb_lt in teq. unfold maxAttempts in *. lia.
Defined.

Definition safeMax (containerSize buttonSize : number) : number :=
  Math_max 0 (containerSize - buttonSize)%float.

Definition calculateEvasionPosition (container button : Element)
    (currentPosition : Position) (g : Random) : Position * Random :=
  let containerRect := getBoundingClientRect container in
  let buttonRect := getBoundingClientRect button in
  let maxX := (width containerRect - width buttonRect)%float in
  let maxY := (height containerRect - height buttonRect)%float in
  let safeMaxX := Math_max 0 maxX in
  let safeMaxY := Math_max 0 maxY in
  let r := evasionLoop safeMaxX safeMaxY currentPosition 0%N g in
  (fst r, snd (snd r)).

Definition calculateShrinkScale (evasionCount shrinkThreshold minScale : number)
    : number :=
  if (evasionCount <? shrinkThreshold)%float then 1%float
  else
    let evasionsPastThreshold := (evasionCount - shrinkThreshold)%float in
    let shrinkAmount := (evasionsPastThreshold * 0.1)%float in
    let newScale := (1 - shrinkAmount)%float in
    Math_max minScale newScale.

Definition fallbackMessage : string := "Please? 🥺".

(** "Get or create message element": the container, with a new message
    element appended if the query found none, and the reference to the
    message element in it. *)
Definition messageElement (container : Element) : Element * list nat :=
  match querySelectorClass "pleading-message" container with
  | Some p => (container, p)
  | None =>
      (appendChild container
                   (createElement "p" (mkOptions "pleading-message" "" [])),
       [List.length (childNodes container)])
  end.

(** [showPleadingMessage]: finds or creates the message element in the
    container, shows the message at the cursor (modulo the number of
    messages) and advances the cursor. *)
Definition showPleadingMessage (container : Element) (state : LoveGameState)
    (config : LoveGameConfig) : Element * LoveGameState :=
  let container1 := fst (messageElement container) in
  let messageEl := snd (messageElement container) in
  let messages := pleadingMessages config in
  let message :=
    index messages
          (rem (currentMessageIndex state)
               (number_of_N (N.of_nat (List.length messages)))) in
  let show (el : Element) :=
    addClass
      (removeClass (set_textContent el (nullish message fallbackMessage))
                   ["pleading-message--animate"])
      ["pleading-message--animate"] in
  (updateAt messageEl show container1,
   set_currentMessageIndex state (currentMessageIndex state + 1)).

(** The outcome of [evadeNoButton]: the objects it may have mutated. *)
Record Evaded := mkEvaded {
  ev_button : Element;
  ev_container : Element;
  ev_state : LoveGameState;
  ev_random : Random
}.

Definition evadeNoButton (button container : Element) (state : LoveGameState)
    (config : LoveGameConfig) (prefersReducedMotion : bool) (g : Random)
    : Evaded :=
  if hasAnsweredYes state then mkEvaded button container state g
  else
    let moved := calculateEvasionPosition container button (noButtonPosition state) g in
    let newPosition := fst moved in
    let state1 := set_noButtonPosition state newPosition in
    let state2 := set_evasionCount state1 (evasionCount state1 + 1) in
    let button1 :=
      if evasionCount state2 =? 1 then set_textContent button "Hmm..."
      else button in
    let state3 :=
      set_noButtonScale state2
        (calculateShrinkScale (evasionCount state2)
                              (shrinkThreshold config) (minButtonScale config)) in
    let transitionStyle :=
      if prefersReducedMotion then "none" else "all 0.2s ease-out" in
    let button2 :=
      setStyles button1
        [("position", CssText "absolute");
         ("left", CssPx (x newPosition));
         ("top", CssPx (y newPosition));
         ("transform", CssScale (noButtonScale state3));
         ("transition", CssText transitionStyle)] in
    let shown := showPleadingMessage container state3 config in
    mkEvaded button2 (fst shown) (snd shown) (snd moved).

Definition heartEmojis : list string :=
  ["💕"; "💖"; "💗"; "💝"; "❤️"; "💘"; "💓"; "💞"].

(** The [for] loop of [createHeartParticles] with [todo] rounds left and
    loop variable [i]; the loop variable is an integer below the count. *)
Fixpoint heartLoop (todo : nat) (i : N) (hearts : list Element) (g : Random)
    : list Element * Random :=
  match todo with
  | O => (hearts, g)
  | S todo' =>
      let heartEmoji :=
        nullish (int_index heartEmojis
                           (int_rem i (N.of_nat (List.length heartEmojis)))) "💕" in
      let heart :=
        createElement "span"
          (mkOptions "celebration-heart" heartEmoji [("aria-hidden", "true")]) in
      let randomX := (fst (Math_random g) * 100)%float in
      let g1 := snd (Math_random g) in
      let randomDelay := (fst (Math_random g1) * 0.5)%float in
      let g2 := snd (Math_random g1) in
      let randomDuration := (1 + fst (Math_random g2) * 1)%float in
      let g3 := snd (Math_random g2) in
      let heart' :=
        setStyles heart
          [("left", CssPercent randomX);
           ("animationDelay", CssSeconds randomDelay);
           ("animationDuration", CssSeconds randomDuration)] in
      heartLoop todo' (i + 1)%N (hearts ++ [heart']) g3
  end.

(** [createHeartParticles(count)] for a count that is an integer up to
    2^53, where the loop variable counts exactly. *)
Definition createHeartParticles (count : N) (g : Random) : list Element * Random :=
  heartLoop (N.to_nat count) 0%N [] g.

Definition createCelebrationMessage (site : SiteLoveGame)
    (config : option LoveGameConfig) : Element :=
  let message := createElement "div" (mkOptions "celebration-message" "" []) in
  let title :=
    createElement "h3"
      (mkOptions "celebration-title"
         (nullish (option_map celebrationTitle config) (site_celebrationTitle site))
         []) in
  let subtitle :=
    createElement "p"
      (mkOptions "celebration-subtitle"
         (nullish (option_map celebrationSubtitle config)
                  (site_celebrationSubtitle site))
         []) in
  appendChild (appendChild message title) subtitle.

(** The outcome of [triggerCelebration]. *)
Record Celebrated := mkCelebrated {
  ce_container : Element;
  ce_state : LoveGameState;
  ce_random : Random
}.

Definition triggerCelebration (site : SiteLoveGame) (celebrationContainer : Element)
    (state : LoveGameState) (config : LoveGameConfig)
    (prefersReducedMotion : bool) (g : Random) : Celebrated :=
  let state' := set_hasAnsweredYes state true in
  let c1 := clear_innerHTML celebrationContainer in
  let c2 := addClass (removeClass c1 ["hidden"]) ["celebration--active"] in
  let hearts :=
    if negb prefersReducedMotion then createHeartParticles 20%N g else ([], g) in
  let c3 := fold_left appendChild (fst hearts) c2 in
  let message := createCelebrationMessage site (Some config) in
  mkCelebrated (appendChild c3 message) state' (snd hearts).

(** *** Event handlers and the page

    The page holds the elements that the selectors of the configuration
    find, each under its selector, which serves as the reference to it.
    Each reference has its own record of what the game reads and writes
    through it: the container its box and the message, question and
    buttons blocks that its queries find, the "No" button its box, label
    and inline style, the celebration container its classes and content.
    Two selectors that are the same string denote one element.  A page
    on which the elements lie inside one another (the buttons and the
    celebration container usually lie in the game container) is
    described by these records as long as what the game reaches through
    one reference is not one of the other elements: the celebration
    container, which [destroy] empties, holds none of the others, and it
    is neither the question, the buttons block nor the pleading message
    of the container.  A listener is one of the closures that the set-up
    functions register, with the references it captured. *)

Inductive Listener :=
| HandleEvasion (button container : string)
| HandleTouchStart (button container : string)
| HandleYesClick (celebrationContainer : string)
| HandleKeyDown (celebrationContainer : string).

(** A clean-up closure: the button whose listeners it removes. *)
Inductive Cleanup :=
| NoButtonCleanup (button : string)
| YesButtonCleanup (button : string).

Record Page := mkPage {
  document : list (string * Element);
  listeners : list (string * string * Listener);
  prefersReducedMotion : bool;
  random : Random;
  console : list string
}.

Fixpoint lookup (doc : list (string * Element)) (ref : string) : option Element :=
  match doc with
  | [] => None
  | (k, e) :: rest => if String.eqb k ref then Some e else lookup rest ref
  end.

Fixpoint store (doc : list (string * Element)) (ref : string) (e : Element)
    : list (string * Element) :=
  match doc with
  | [] => []
  | (k, e0) :: rest =>
      if String.eqb k ref then (k, e) :: rest else (k, e0) :: store rest ref e
  end.

(** [document.querySelector(selector)]: the reference, or [null]. *)
Definition querySelector (p : Page) (selector : string) : option string :=
  match lookup (document p) selector with
  | Some _ => Some selector
  | None => None
  end.

Definition with_document (p : Page) (d : list (string * Element)) : Page :=
  mkPage d (listeners p) (prefersReducedMotion p) (random p) (console p).

Definition with_listeners (p : Page) (l : list (string * string * Listener)) : Page :=
  mkPage (document p) l (prefersReducedMotion p) (random p) (console p).

Definition with_random (p : Page) (g : Random) : Page :=
  mkPage (document p) (listeners p) (prefersReducedMotion p) g (console p).

Definition console_warn (p : Page) (msg : string) : Page :=
  mkPage (document p) (listeners p) (prefersReducedMotion p) (random p)
         (console p ++ [msg]).

(** Applies a mutation to the element behind a reference. *)
Definition mutate (p : Page) (ref : string) (f : Element -> Element) : Page :=
  match lookup (document p) ref with
  | Some e => with_document p (store (document p) ref (f e))
  | None => p
  end.

Definition addEventListener (p : Page) (target type : string) (l : Listener) : Page :=
  with_listeners p (listeners p ++ [(target, type, l)]).

Definition same_registration (target type : string)
    (r : string * string * Listener) : bool :=
  String.eqb (fst (fst r)) target && String.eqb (snd (fst r)) type.

(** Each closure is registered once per target and type, so removing it
    removes the registration for that target and type. *)
Definition removeEventListener (p : Page) (target type : string) : Page :=
  with_listeners p
    (filter (fun r => negb (same_registration target type r)) (listeners p)).

Definition setupNoButtonHandlers (button container : string) (p : Page)
    : Cleanup * Page :=
  let p1 := addEventListener p button "mouseenter" (HandleEvasion button container) in
  let p2 := addEventListener p1 button "touchstart" (HandleTouchStart button container) in
  (NoButtonCleanup button, p2).

Definition setupYesButtonHandlers (button celebrationContainer : string) (p : Page)
    : Cleanup * Page :=
  let p1 := addEventListener p button "click" (HandleYesClick celebrationContainer) in
  let p2 := addEventListener p1 button "touchend" (HandleYesClick celebrationContainer) in
  let p3 := addEventListener p2 button "keydown" (HandleKeyDown celebrationContainer) in
  (YesButtonCleanup button, p3).

Definition runCleanup (p : Page) (c : Cleanup) : Page :=
  match c with
  | NoButtonCleanup button =>
      removeEventListener (removeEventListener p button "mouseenter")
                          button "touchstart"
  | YesButtonCleanup button =>
      removeEventListener
        (removeEventListener (removeEventListener p button "click")
                             button "touchend")
        button "keydown"
  end.

Definition hideGameElements (container : Element) : Element :=
  let question := querySelectorClass "game-question" container in
  let buttons := querySelectorClass "game-buttons" container in
  let c1 :=
    match question with
    | Some q => updateAt q (fun e => addClass e ["hidden"]) container
    | None => container
    end in
  match buttons with
  | Some b => updateAt b (fun e => addClass e ["hidden"]) c1
  | None => c1
  end.

(** *** createLoveGame: the closure and its methods *)

Record PartialConfig := mkPartial {
  p_questionText : option string;
  p_yesButtonText : option string;
  p_noButtonText : option string;
  p_evasionSpeed : option number;
  p_celebrationDuration : option number;
  p_shrinkThreshold : option number;
  p_minButtonScale : option number;
  p_containerSelector : option string;
  p_yesButtonSelector : option string;
  p_noButtonSelector : option string;
  p_celebrationSelector : option string;
  p_pleadingMessages : option (list string);
  p_celebrationTitle : option string;
  p_celebrationSubtitle : option string
}.

(** [{ ...base, ...custom }]. *)
Definition spread (base : LoveGameConfig) (custom : PartialConfig) : LoveGameConfig :=
  {| questionText := nullish (p_questionText custom) (questionText base);
     yesButtonText := nullish (p_yesButtonText custom) (yesButtonText base);
     noButtonText := nullish (p_noButtonText custom) (noButtonText base);
     evasionSpeed := nullish (p_evasionSpeed custom) (evasionSpeed base);
     celebrationDuration :=
       nullish (p_celebrationDuration custom) (celebrationDuration base);
     shrinkThreshold := nullish (p_shrinkThreshold custom) (shrinkThreshold base);
     minButtonScale := nullish (p_minButtonScale custom) (minButtonScale base);
     containerSelector :=
       nullish (p_containerSelector custom) (containerSelector base);
     yesButtonSelector :=
       nullish (p_yesButtonSelector custom) (yesButtonSelector base);
     noButtonSelector := nullish (p_noButtonSelector custom) (noButtonSelector base);
     celebrationSelector :=
       nullish (p_celebrationSelector custom) (celebrationSelector base);
     pleadingMessages := nullish (p_pleadingMessages custom) (pleadingMessages base);
     celebrationTitle := nullish (p_celebrationTitle custom) (celebrationTitle base);
     celebrationSubtitle :=
       nullish (p_celebrationSubtitle custom) (celebrationSubtitle base) |}.

(** The variables that the methods of one game close over. *)
Record Game := mkGame {
  site : SiteLoveGame;
  config : LoveGameConfig;
  state : LoveGameState;
  container : option string;
  yesButton : option string;
  noButton : option string;
  celebrationContainer : option string;
  cleanupFunctions : list Cleanup;
  isInitialized : bool
}.

Definition with_state (g : Game) (s : LoveGameState) : Game :=
  mkGame (site g) (config g) s (container g) (yesButton g) (noButton g)
         (celebrationContainer g) (cleanupFunctions g) (isInitialized g).

Definition createLoveGame (site : SiteLoveGame) (customConfig : PartialConfig) : Game :=
  {| site := site;
     config := spread (DEFAULT_CONFIG site) customConfig;
     state := createInitialState;
     container := None;
     yesButton := None;
     noButton := None;
     celebrationContainer := None;
     cleanupFunctions := [];
     isInitialized := false |}.

Definition init (g : Game) (p : Page) : Game * Page :=
  if isInitialized g then (g, p)
  else
    let container' := querySelector p (containerSelector (config g)) in
    let yesButton' := querySelector p (yesButtonSelector (config g)) in
    let noButton' := querySelector p (noButtonSelector (config g)) in
    let celebrationContainer' := querySelector p (celebrationSelector (config g)) in
    let found (cleanups : list Cleanup) (initialized : bool) :=
      mkGame (site g) (config g) (state g) container' yesButton' noButton'
             celebrationContainer' cleanups initialized in
    match container', yesButton', noButton', celebrationContainer' with
    | Some c, Some yes, Some no, Some cel =>
        let p1 := mutate p c (fun e => setStyles e [("position", CssText "relative")]) in
        let noSetup := setupNoButtonHandlers no c p1 in
        let yesSetup := setupYesButtonHandlers yes cel (snd noSetup) in
        (found (cleanupFunctions g ++ [fst noSetup] ++ [fst yesSetup])%list true,
         snd yesSetup)
    | _, _, _, _ =>
        (found (cleanupFunctions g) (isInitialized g),
         console_warn p "Love game elements not found")
    end.

(** [getState]: a copy of the state record. *)
Definition getState (g : Game) : LoveGameState :=
  mkState (noButtonPosition (state g)) (hasAnsweredYes (state g))
          (evasionCount (state g)) (noButtonScale (state g))
          (currentMessageIndex (state g)).

(** [triggerCelebration] on the element behind a reference, written back
    to the page. *)
Definition celebrateAt (g : Game) (p : Page) (cel : string) : Game * Page :=
  match lookup (document p) cel with
  | Some e =>
      let r := triggerCelebration (site g) e (state g) (config g)
                                  (prefersReducedMotion p) (random p) in
      (with_state g (ce_state r),
       with_random (with_document p (store (document p) cel (ce_container r)))
                   (ce_random r))
  | None => (g, p)
  end.

Definition hideContainer (g : Game) (p : Page) : Page :=
  match container g with
  | Some c => mutate p c hideGameElements
  | None => p
  end.

Definition triggerCelebrationManual (g : Game) (p : Page) : Game * Page :=
  match celebrationContainer g with
  | Some cel =>
      if negb (hasAnsweredYes (state g)) then
        let r := celebrateAt g p cel in
        (fst r, hideContainer (fst r) (snd r))
      else (g, p)
  | None => (g, p)
  end.

(** [evadeNoButton] on the elements behind two references, written back to
    the page. *)
Definition evadeAt (g : Game) (p : Page) (button container : string) : Game * Page :=
  match lookup (document p) button, lookup (document p) container with
  | Some b, Some c =>
      let r := evadeNoButton b c (state g) (config g)
                             (prefersReducedMotion p) (random p) in
      (with_state g (ev_state r),
       with_random
         (with_document p
            (store (store (document p) button (ev_button r))
                   container (ev_container r)))
         (ev_random r))
  | _, _ => (g, p)
  end.

Definition evadeNoButtonManual (g : Game) (p : Page) : Game * Page :=
  match noButton g, container g with
  | Some no, Some c =>
      if negb (hasAnsweredYes (state g)) then evadeAt g p no c else (g, p)
  | _, _ => (g, p)
  end.

(** [handleYesClick], with the [onCelebration] callback that [init]
    passes. *)
Definition handleYesClick (g : Game) (p : Page) (cel : string) : Game * Page :=
  if negb (hasAnsweredYes (state g)) then
    let r := celebrateAt g p cel in
    (fst r, hideContainer (fst r) (snd r))
  else (g, p).

Definition runListener (key : string) (w : Game * Page) (l : Listener) : Game * Page :=
  match l with
  | HandleEvasion button container => evadeAt (fst w) (snd w) button container
  | HandleTouchStart button container => evadeAt (fst w) (snd w) button container
  | HandleYesClick cel => handleYesClick (fst w) (snd w) cel
  | HandleKeyDown cel =>
      if String.eqb key "Enter" || String.eqb key " "
      then handleYesClick (fst w) (snd w) cel
      else w
  end.

(** An event of the given type (and key, for keyboard events) on a target
    runs the listeners registered for it, in order of registration. *)
Definition dispatchEvent (target type key : string) (w : Game * Page) : Game * Page :=
  fold_left (runListener key)
            (map snd (filter (same_registration target type) (listeners (snd w))))
            w.

Definition resetElements (g : Game) (p : Page) : Page :=
  let p1 :=
    match noButton g with
    | Some no =>
        mutate p no (fun e =>
          setStyles e [("position", CssText ""); ("left", CssText "");
                       ("top", CssText ""); ("transform", CssText "");
                       ("transition", CssText "")])
    | None => p
    end in
  let p2 :=
    match celebrationContainer g with
    | Some cel =>
        mutate p1 cel (fun e =>
          clear_innerHTML (addClass (removeClass e ["celebration--active"]) ["hidden"]))
    | None => p1
    end in
  match container g with
  | Some c =>
      mutate p2 c (fun e =>
        let question := querySelectorClass "game-question" e in
        let buttons := querySelectorClass "game-buttons" e in
        let e1 :=
          match question with
          | Some q => updateAt q (fun n => removeClass n ["hidden"]) e
          | None => e
          end in
        match buttons with
        | Some b => updateAt b (fun n => removeClass n ["hidden"]) e1
        | None => e1
        end)
  | None => p2
  end.

Definition destroy (g : Game) (p : Page) : Game * Page :=
  let p1 := fold_left runCleanup (cleanupFunctions g) p in
  let p2 := resetElements g p1 in
  let s1 := set_noButtonPosition (state g) {| x := 0; y := 0 |} in
  let s2 := set_hasAnsweredYes s1 false in
  let s3 := set_evasionCount s2 0 in
  let s4 := set_noButtonScale s3 1 in
  let s5 := set_currentMessageIndex s4 0 in
  (mkGame (site g) (config g) s5 (container g) (yesButton g) (noButton g)
          (celebrationContainer g) [] false,
   p2).

(** What can happen to a game and its page: a method of the handle, an
    event on an element, or a change of the environment (layout, motion
    preference). *)
Inductive Action :=
| Init
| TriggerCelebration
| EvadeNoButton
| Destroy
| Dispatch (target type key : string)
| Relayout (ref : string) (w h : number)
| SetReducedMotion (b : bool).

Definition relayout (w h : number) (e : Element) : Element :=
  mkElement (tagName e) (classList e) (textContent e) (attributes e) (style e)
            (childNodes e) w h.

Definition step (w : Game * Page) (a : Action) : Game * Page :=
  match a with
  | Init => init (fst w) (snd w)
  | TriggerCelebration => triggerCelebrationManual (fst w) (snd w)
  | EvadeNoButton => evadeNoButtonManual (fst w) (snd w)
  | Destroy => destroy (fst w) (snd w)
  | Dispatch target type key => dispatchEvent target type key w
  | Relayout ref wd ht => (fst w, mutate (snd w) ref (relayout wd ht))
  | SetReducedMotion b =>
      (fst w,
       mkPage (document (snd w)) (listeners (snd w)) b (random (snd w))
              (console (snd w)))
  end.

Definition run (actions : list Action) (w : Game * Page) : Game * Page :=
  fold_left step actions w.

(** The worlds that a game created by [createLoveGame] on some page can
    get into. *)
Definition reachable (w : Game * Page) : Prop :=
  exists site customConfig page actions,
    w = run actions (createLoveGame site customConfig, page).



(** The [k]-th candidate (from 0) that the loop of
    [calculateEvasionPosition] draws from a random source, and whether a
    candidate is within 50 of the current position on both axes. *)
Definition candidate (safeMaxX safeMaxY : number) (g : Random) (k : nat) : Position :=
  {| x := draws g (used g + 2 * k) * safeMaxX;
     y := draws g (used g + 2 * k + 1) * safeMaxY |}.

Definition tooClose (currentPosition p : Position) : bool :=
  (Math_abs (x p - x currentPosition) <? 50)
  && (Math_abs (y p - y currentPosition) <? 50).

End LoveGame.

(** ** The motion preference (src/utils/motion.ts)

    The module keeps one [MediaQueryList] object in a module variable.
    The object is known here by its change handlers; every handler is a
    closure of its own, told apart by a number.  What the objects of a
    browser offer ([addEventListener] and its legacy form [addListener],
    and the two ways of removing) is a property of the browser.
    [_resetMediaQueryListCache], which the tests use, is left out: without
    it the module variable, once set, stays. *)

Module Motion.

Definition REDUCED_MOTION_QUERY : string := "(prefers-reduced-motion: reduce)".
Definition REDUCED_MOTION_CLASS : string := "reduced-motion".

(** The callbacks given to [onMotionPreferenceChange]: the one that
    [initMotionPreference] passes, or one of a client, known by the values
    it is called with. *)
Inductive Callback :=
| ApplyMotionClass
| ClientCallback (name : string).

Record Browser := mkBrowser {
  has_matchMedia : bool;
  has_addEventListener : bool;
  has_addListener : bool;
  has_removeEventListener : bool;
  has_removeListener : bool;
  matches : bool;
  mediaQueryList : option (list (nat * Callback));
  nextHandler : nat;
  rootClasses : list string;
  calls : list (string * bool)
}.

Definition with_matches (b : Browser) (v : bool) : Browser :=
  mkBrowser (has_matchMedia b) (has_addEventListener b) (has_addListener b)
            (has_removeEventListener b) (has_removeListener b) v
            (mediaQueryList b) (nextHandler b) (rootClasses b) (calls b).

Definition with_mediaQueryList (b : Browser) (m : option (list (nat * Callback)))
    : Browser :=
  mkBrowser (has_matchMedia b) (has_addEventListener b) (has_addListener b)
            (has_removeEventListener b) (has_removeListener b) (matches b)
            m (nextHandler b) (rootClasses b) (calls b).

Definition with_nextHandler (b : Browser) (n : nat) : Browser :=
  mkBrowser (has_matchMedia b) (has_addEventListener b) (has_addListener b)
            (has_removeEventListener b) (has_removeListener b) (matches b)
            (mediaQueryList b) n (rootClasses b) (calls b).

Definition with_rootClasses (b : Browser) (l : list string) : Browser :=
  mkBrowser (has_matchMedia b) (has_addEventListener b) (has_addListener b)
            (has_removeEventListener b) (has_removeListener b) (matches b)
            (mediaQueryList b) (nextHandler b) l (calls b).

Definition with_calls (b : Browser) (l : list (string * bool)) : Browser :=
  mkBrowser (has_matchMedia b) (has_addEventListener b) (has_addListener b)
            (has_removeEventListener b) (has_removeListener b) (matches b)
            (mediaQueryList b) (nextHandler b) (rootClasses b) l.

(** [classList.contains], [classList.add], [classList.remove]. *)
Definition contains (l : list string) (c : string) : bool :=
  existsb (String.eqb c) l.

Definition classList_add (l : list string) (c : string) : list string :=
  if contains l c then l else (l ++ [c])%list.

Definition classList_remove (l : list string) (c : string) : list string :=
  filter (fun d => negb (String.eqb c d)) l.

(** Whether there is a [MediaQueryList]; the object itself is the module
    variable of the browser returned. *)
Definition getMediaQueryList (b : Browser) : bool * Browser :=
  if negb (has_matchMedia b) then (false, b)
  else
    match mediaQueryList b with
    | Some _ => (true, b)
    | None => (true, with_mediaQueryList b (Some []))
    end.

Definition prefersReducedMotion (b : Browser) : bool * Browser :=
  let mql := getMediaQueryList b in
  (if fst mql then matches (snd mql) else false, snd mql).

(** The clean-up function that [onMotionPreferenceChange] returns. *)
Inductive Unsubscribe :=
| NoOp
| RemoveHandler (handler : nat).

Definition register (b : Browser) (h : nat * Callback) : Browser :=
  match mediaQueryList b with
  | Some hs => with_mediaQueryList b (Some (hs ++ [h])%list)
  | None => b
  end.

Definition unregister (b : Browser) (handler : nat) : Browser :=
  match mediaQueryList b with
  | Some hs =>
      with_mediaQueryList b (Some (filter (fun h => negb (Nat.eqb (fst h) handler)) hs))
  | None => b
  end.

Definition onMotionPreferenceChange (callback : Callback) (b : Browser)
    : Unsubscribe * Browser :=
  let mql := getMediaQueryList b in
  if negb (fst mql) then (NoOp, snd mql)
  else
    let handler := nextHandler (snd mql) in
    let b1 := with_nextHandler (snd mql) (S handler) in
    let b2 :=
      if has_addEventListener b1 then register b1 (handler, callback)
      else if has_addListener b1 then register b1 (handler, callback)
      else b1 in
    (RemoveHandler handler, b2).

Definition unsubscribe (u : Unsubscribe) (b : Browser) : Browser :=
  match u with
  | NoOp => b
  | RemoveHandler handler =>
      if has_removeEventListener b then unregister b handler
      else if has_removeListener b then unregister b handler
      else b
  end.

Definition initMotionPreference (b : Browser) : Unsubscribe * Browser :=
  let reduced := prefersReducedMotion b in
  let b1 :=
    if fst reduced
    then with_rootClasses (snd reduced)
           (classList_add (rootClasses (snd reduced)) REDUCED_MOTION_CLASS)
    else snd reduced in
  onMotionPreferenceChange ApplyMotionClass b1.

(** The clean-up function that [initMotionPreference] returns. *)
Definition cleanup (u : Unsubscribe) (b : Browser) : Browser :=
  let b1 := unsubscribe u b in
  with_rootClasses b1 (classList_remove (rootClasses b1) REDUCED_MOTION_CLASS).

(** One handler called with [event.matches]. *)
Definition runCallback (v : bool) (b : Browser) (h : nat * Callback) : Browser :=
  match snd h with
  | ApplyMotionClass =>
      with_rootClasses b
        (if v then classList_add (rootClasses b) REDUCED_MOTION_CLASS
         else classList_remove (rootClasses b) REDUCED_MOTION_CLASS)
  | ClientCallback name => with_calls b (calls b ++ [(name, v)])%list
  end.

(** The user changes the preference: the query result flips and the
    browser sends a [change] event to the handlers of the object. *)
Definition preferenceChanged (b : Browser) : Browser :=
  let v := negb (matches b) in
  let b1 := with_matches b v in
  match mediaQueryList b1 with
  | Some hs => fold_left (runCallback v) hs b1
  | None => b1
  end.

End Motion.

(** ** Binary64 numbers as the specification of the primitive floats
    describes them *)

Module Binary64.

Local Open Scope Z_scope.

Definition exact_record (mrs : shr_record) : Prop :=
  shr_r mrs = false /\ shr_s mrs = false.

(** The order of two positive numbers [m * 2^e] and [M * 2^E] read off
    their exponents and mantissas, as [SFcompare] does. *)
Definition le_mag (m : positive) (e : Z) (M : positive) (E : Z) : Prop :=
  e < E \/ (e = E /\ Zpos m <= Zpos M).

Definition one_sf : spec_float := S754_finite false 4503599627370496 (-52).

Definition sf_finite (v : spec_float) : bool :=
  match v with
  | S754_zero _ | S754_finite _ _ _ => true
  | _ => false
  end.

(** Zero of either sign, a positive finite number or [+Infinity]. *)
Definition sf_nonneg (v : spec_float) : bool :=
  match v with
  | S754_zero _ => true
  | S754_finite s _ _ => negb s
  | S754_infinity s => negb s
  | S754_nan => false
  end.

Definition valid (v : spec_float) : bool := valid_binary v.

End Binary64.

Import JS Dom LoveGame Binary64.

Local Open Scope float_scope.

(** ** What the environment provides *)

(** The sizes that layout reports for an element: finite and not
    negative. *)
Definition validBounds (e : Element) : bool :=
  is_finite (rectWidth e) && (0 <=? rectWidth e)
  && is_finite (rectHeight e) && (0 <=? rectHeight e).

Definition randomInUnitInterval (g : Random) : Prop :=
  forall n, unit_interval (draws g n) = true.

(** ** Concrete objects used by the examples *)

Definition demoSite : SiteLoveGame :=
  {| site_question := "Will you be mine forever?";
     site_yesButtonText := "Yes! 💕";
     site_noButtonText := "No";
     site_celebrationTitle := "Yayyyy! 💕🎉";
     site_celebrationSubtitle := "I knew you'd say yes!";
     site_pleadingMessages := ["Ek baar soch lo na 💕"; "Itna mushkil hai kya? 😢"] |}.

Definition demoConfig : LoveGameConfig := DEFAULT_CONFIG demoSite.

Definition noCustomConfig : PartialConfig :=
  mkPartial None None None None None None None None None None None None None None.

Definition box (tag : string) (classes : list string) (w h : number) : Element :=
  mkElement tag classes "" [] [] [] w h.

(** The elements of the test suite: a 500x400 container and an 80x40
    "No" button. *)
Definition demoContainer : Element := box "div" [] 500 400.
Definition demoNoButton : Element :=
  mkElement "button" [] "No" [] [] [] 80 40.
Definition demoYesButton : Element :=
  mkElement "button" [] "Yes! 💕" [] [] [] 80 40.
Definition demoCelebration : Element := box "div" ["hidden"] 0 0.

Definition demoPage (g : Random) : Page :=
  {| document := [("#game-container", demoContainer);
                  ("#yes-button", demoYesButton);
                  ("#no-button", demoNoButton);
                  ("#celebration", demoCelebration)];
     listeners := [];
     prefersReducedMotion := false;
     random := g;
     console := [] |}.

(** A random source that always returns one half, and one that returns a
    quarter for its first sixty draws and three quarters afterwards. *)
Definition halves : Random := mkRandom (fun _ => 0.5) 0%nat.
Definition quarters : Random :=
  mkRandom (fun n => if Nat.ltb n 60 then 0.25 else 0.75) 0%nat.

Definition answeredState : LoveGameState :=
  set_hasAnsweredYes createInitialState true.


Definition demoActions : list Action :=
  [Init; Dispatch "#no-button" "mouseenter" ""; EvadeNoButton;
   Dispatch "#yes-button" "click" ""].

Definition demoWorld : Game * Page :=
  run demoActions (createLoveGame demoSite noCustomConfig, demoPage halves).

Definition silentConfig : LoveGameConfig :=
  spread demoConfig
         (mkPartial None None None None None None None None None None None
                    (Some []) None None).

(** Whether the first child is placed in the left half of its parent:
    what distinguishes one rendering of the hearts from another. *)
Definition firstHeartOnTheLeft (e : Element) : bool :=
  match childNodes e with
  | heart :: _ =>
      match style heart with
      | (_, CssPercent v) :: _ => v <? 50
      | _ => false
      end
  | [] => false
  end.

Definition eightEvasions : Game * Page :=
  run [Init; EvadeNoButton; EvadeNoButton; EvadeNoButton; EvadeNoButton;
       EvadeNoButton; EvadeNoButton; EvadeNoButton; EvadeNoButton]
      (createLoveGame demoSite noCustomConfig, demoPage halves).

(** [element.style[k]]: the value of an inline style property, if set. *)
Definition getStyle (e : Element) (k : string) : option CssValue :=
  option_map snd (find (fun p => String.eqb k (fst p)) (style e)).

(** The heart that one round of [createHeartParticles] makes, given the
    loop variable and the three values it draws. *)
Definition heartParticle (i : N) (r1 r2 r3 : number) : Element :=
  setStyles
    (createElement "span"
       (mkOptions "celebration-heart"
          (nullish (int_index heartEmojis
                              (int_rem i (N.of_nat (List.length heartEmojis))))
                   "💕")
          [("aria-hidden", "true")]))
    [("left", CssPercent (r1 * 100));
     ("animationDelay", CssSeconds (r2 * 0.5));
     ("animationDuration", CssSeconds (1 + r3 * 1))].

(** The listeners that [init] registers through the two set-up functions,
    in order of registration. *)
Definition gameListeners (no c yes cel : string) : list (string * string * Listener) :=
  [(no, "mouseenter", HandleEvasion no c);
   (no, "touchstart", HandleTouchStart no c);
   (yes, "click", HandleYesClick cel);
   (yes, "touchend", HandleYesClick cel);
   (yes, "keydown", HandleKeyDown cel)].

(** How a game and its page are wired: an initialized game has found its
    four elements, which are on the page, its listeners are the
    registered ones and it holds the two clean-up closures; a game that
    is not initialized has no listener and no clean-up closure. *)
Definition wired (w : Game * Page) : Prop :=
  if isInitialized (fst w) then
    exists c yes no cel,
      container (fst w) = Some c /\ yesButton (fst w) = Some yes
      /\ noButton (fst w) = Some no /\ celebrationContainer (fst w) = Some cel
      /\ listeners (snd w) = gameListeners no c yes cel
      /\ cleanupFunctions (fst w) = [NoButtonCleanup no; YesButtonCleanup yes]
      /\ lookup (document (snd w)) c <> None
      /\ lookup (document (snd w)) yes <> None
      /\ lookup (document (snd w)) no <> None
      /\ lookup (document (snd w)) cel <> None
  else listeners (snd w) = [] /\ cleanupFunctions (fst w) = [].

(** What holds of the state record of a game at all times: the two
    counters agree and are not negative (nor [NaN]), and the scale is the
    initial 1 (no evasion yet) or what [calculateShrinkScale] gives for
    the evasion count. *)
Definition stateInvariant (g : Game) : Prop :=
  evasionCount (state g) = currentMessageIndex (state g)
  /\ (0 <=? evasionCount (state g)) = true
  /\ ((evasionCount (state g) = 0 /\ noButtonScale (state g) = 1)
      \/ noButtonScale (state g)
         = calculateShrinkScale (evasionCount (state g))
                                (shrinkThreshold (config g))
                                (minButtonScale (config g))).

(** Two worlds with the same wiring: the same closure apart from the
    state record, the same listeners, and the same references on the
    page. *)
Definition sameWiring (w w' : Game * Page) : Prop :=
  isInitialized (fst w') = isInitialized (fst w)
  /\ container (fst w') = container (fst w)
  /\ yesButton (fst w') = yesButton (fst w)
  /\ noButton (fst w') = noButton (fst w)
  /\ celebrationContainer (fst w') = celebrationContainer (fst w)
  /\ cleanupFunctions (fst w') = cleanupFunctions (fst w)
  /\ listeners (snd w') = listeners (snd w)
  /\ forall k, lookup (document (snd w')) k <> None
               <-> lookup (document (snd w)) k <> None.

(** The world after the game was set up and the decline button evaded
    once. *)
Definition initializedWorld : Game * Page :=
  run [Init; EvadeNoButton] (createLoveGame demoSite noCustomConfig, demoPage halves).

(** The three element updates of [destroy], named: the container shows
    its question and buttons again, the celebration container is hidden
    and emptied, the decline button loses its inline styles. *)
Definition showGameElements (e : Element) : Element :=
  let question := querySelectorClass "game-question" e in
  let buttons := querySelectorClass "game-buttons" e in
  let e1 :=
    match question with
    | Some q => updateAt q (fun n => removeClass n ["hidden"]) e
    | None => e
    end in
  match buttons with
  | Some b => updateAt b (fun n => removeClass n ["hidden"]) e1
  | None => e1
  end.

Definition hideCelebration (e : Element) : Element :=
  clear_innerHTML (addClass (removeClass e ["celebration--active"]) ["hidden"]).

Definition clearButtonStyles (e : Element) : Element :=
  setStyles e [("position", CssText ""); ("left", CssText "");
               ("top", CssText ""); ("transform", CssText "");
               ("transition", CssText "")].

(** What a game holds beside its state record and its clean-up closures:
    the configuration and the four references. *)
Definition references (g : Game)
    : LoveGameConfig * (option string * option string * option string * option string) :=
  (config g, (container g, yesButton g, noButton g, celebrationContainer g)).

(** A reference is [null] or the selector it was queried with. *)
Definition fromSelector (ref : option string) (selector : string) : Prop :=
  ref = None \/ ref = Some selector.

Definition refsFromConfig (g : Game) : Prop :=
  fromSelector (container g) (containerSelector (config g))
  /\ fromSelector (yesButton g) (yesButtonSelector (config g))
  /\ fromSelector (noButton g) (noButtonSelector (config g))
  /\ fromSelector (celebrationContainer g) (celebrationSelector (config g)).

(** A page that lacks the celebration container. *)
Definition pageWithoutCelebration (g : Random) : Page :=
  {| document := [("#game-container", demoContainer);
                  ("#yes-button", demoYesButton);
                  ("#no-button", demoNoButton)];
     listeners := [];
     prefersReducedMotion := false;
     random := g;
     console := [] |}.

(** The shape that [hideGameElements] and the last part of [destroy]
    share: both queries first, then one update of the question and one of
    the buttons. *)
Definition onGameElements (f : Element -> Element) (e : Element) : Element :=
  let question := querySelectorClass "game-question" e in
  let buttons := querySelectorClass "game-buttons" e in
  let e1 :=
    match question with
    | Some q => updateAt q f e
    | None => e
    end in
  match buttons with
  | Some b => updateAt b f e1
  | None => e1
  end.

(** A game container as the page has it: a wrapper holding the question,
    and the two buttons in their own wrapper. *)
Definition gameContainer : Element :=
  mkElement "div" ["love-game"] "" [] []
            [mkElement "div" ["game-content"] "" [] []
                       [box "h2" ["game-question"] 300 40;
                        mkElement "div" ["game-buttons"] "" [] []
                                  [demoYesButton; demoNoButton] 300 60]
                       400 200]
            500 400.

Definition gamePage (g : Random) : Page :=
  {| document := [("#game-container", gameContainer);
                  ("#yes-button", demoYesButton);
                  ("#no-button", demoNoButton);
                  ("#celebration", demoCelebration)];
     listeners := [];
     prefersReducedMotion := false;
     random := g;
     console := [] |}.

(** A browser of today in which the module was not used yet, and the
    user prefers reduced motion. *)
Definition demoBrowser : Motion.Browser :=
  Motion.mkBrowser true true true true true true None 0 ["no-js"] [].

(** A browser without [window.matchMedia]. *)
Definition demoOldBrowser : Motion.Browser :=
  Motion.mkBrowser false false false false false true None 0 ["no-js"] [].

(** The handlers of the cached object, none when there is no object yet. *)
Definition handlersOf (b : Motion.Browser) : list (nat * Motion.Callback) :=
  match Motion.mediaQueryList b with
  | Some hs => hs
  | None => []
  end.

(** Some handler in the list is the one of [initMotionPreference]. *)
Definition appliesClass (hs : list (nat * Motion.Callback)) : Prop :=
  exists handler, In (handler, Motion.ApplyMotionClass) hs.


(** A state whose two counters have reached 2^53. *)
Definition stalledState : LoveGameState :=
  set_currentMessageIndex (set_evasionCount createInitialState 9007199254740992)
                          9007199254740992.

(** * Properties *)

(** ** The guard of [evadeNoButton] and the frame of [triggerCelebration] *)

Section Evade.

Variables (button container : Element) (config : LoveGameConfig).
Variables (reducedMotion : bool) (g : Random).

Lemma evadeNoButton_answered (state : LoveGameState) :
  hasAnsweredYes state = true ->
  evadeNoButton button container state config reducedMotion g
  = mkEvaded button container state g.
Proof.
  intros Hyes. unfold evadeNoButton. rewrite Hyes. reflexivity.
Qed.

(** One evasion of a game that is not won: both counters go up by one
    and the answer flag stays. *)
Lemma evadeNoButton_counts (state : LoveGameState) :
  hasAnsweredYes state = false ->
  let r := evadeNoButton button container state config reducedMotion g in
  evasionCount (ev_state r) = evasionCount state + 1
  /\ currentMessageIndex (ev_state r) = currentMessageIndex state + 1
  /\ hasAnsweredYes (ev_state r) = false.
Proof.
  intros Hno. unfold evadeNoButton. rewrite Hno.
  cbn [ev_state showPleadingMessage snd evasionCount currentMessageIndex
       hasAnsweredYes set_currentMessageIndex set_noButtonScale set_evasionCount
       set_noButtonPosition].
  repeat split; assumption.
Qed.

End Evade.

(** C3. Once the answer is yes, a call of [evadeNoButton] changes nothing:
    the position of the "No" button, the evasion count, the scale and the
    message cursor are what they were (and so are the whole state record,
    the two elements and the random source). *)
Theorem evade_after_yes_is_noop :
  forall button container state config reducedMotion g,
    hasAnsweredYes state = true ->
    let r := evadeNoButton button container state config reducedMotion g in
    noButtonPosition (ev_state r) = noButtonPosition state
    /\ evasionCount (ev_state r) = evasionCount state
    /\ noButtonScale (ev_state r) = noButtonScale state
    /\ currentMessageIndex (ev_state r) = currentMessageIndex state
    /\ r = mkEvaded button container state g.
Proof.
  intros button container state config reducedMotion g Hyes r.
  subst r. rewrite evadeNoButton_answered by assumption. cbn.
  repeat split; reflexivity.
Qed.

Lemma evade_after_yes_is_noop_witness :
  let r := evadeNoButton demoNoButton demoContainer answeredState demoConfig
                         false halves in
  noButtonPosition (ev_state r) = noButtonPosition answeredState
  /\ evasionCount (ev_state r) = evasionCount answeredState
  /\ noButtonScale (ev_state r) = noButtonScale answeredState
  /\ currentMessageIndex (ev_state r) = currentMessageIndex answeredState
  /\ r = mkEvaded demoNoButton demoContainer answeredState halves.
Proof.
  apply (evade_after_yes_is_noop demoNoButton demoContainer answeredState
                                 demoConfig false halves).
  reflexivity.
Defined.

(** C6. On a state whose answer flag is false, [triggerCelebration] sets
    the flag and leaves the position of the "No" button, the evasion count
    and the scale exactly as they were. *)
Theorem celebration_frame :
  forall site celebrationContainer state config reducedMotion g,
    hasAnsweredYes state = false ->
    let r := triggerCelebration site celebrationContainer state config
                                reducedMotion g in
    hasAnsweredYes (ce_state r) = true
    /\ noButtonPosition (ce_state r) = noButtonPosition state
    /\ evasionCount (ce_state r) = evasionCount state
    /\ noButtonScale (ce_state r) = noButtonScale state.
Proof.
  intros site celebrationContainer state config reducedMotion g _ r.
  subst r. cbn. repeat split; reflexivity.
Qed.

Lemma celebration_frame_witness :
  let r := triggerCelebration demoSite demoCelebration createInitialState
                              demoConfig false halves in
  hasAnsweredYes (ce_state r) = true
  /\ noButtonPosition (ce_state r) = noButtonPosition createInitialState
  /\ evasionCount (ce_state r) = evasionCount createInitialState
  /\ noButtonScale (ce_state r) = noButtonScale createInitialState.
Proof.
  apply (celebration_frame demoSite demoCelebration createInitialState
                           demoConfig false halves).
  reflexivity.
Defined.

(** ** [destroy] *)

Lemma destroy_state (g : Game) (p : Page) :
  state (fst (destroy g p)) = createInitialState.
Proof. reflexivity. Qed.

(** C10. In every world that a game made by [createLoveGame] can reach,
    [destroy] leaves the state record exactly as [createInitialState]
    makes it: position (0,0), not answered, no evasions, scale 1, cursor
    0; [getState] then returns a copy with these values. *)
Theorem destroy_resets_state :
  forall w : Game * Page,
    reachable w ->
    let g' := fst (destroy (fst w) (snd w)) in
    state g' = createInitialState
    /\ getState g' = mkState (mkPosition 0 0) false 0 1 0.
Proof.
  intros w _ g'. subst g'. split; reflexivity.
Qed.

Lemma destroy_resets_state_witness :
  evasionCount (state (fst demoWorld)) = 2
  /\ hasAnsweredYes (state (fst demoWorld)) = true
  /\ state (fst (destroy (fst demoWorld) (snd demoWorld))) = createInitialState.
Proof.
  split; [reflexivity | split; [reflexivity |]].
  apply (destroy_resets_state demoWorld).
  exists demoSite, noCustomConfig, (demoPage halves), demoActions.
  reflexivity.
Defined.

(** ** The retry loop of [calculateEvasionPosition] *)

Section RetryLoop.

Variables (safeMaxX safeMaxY : number) (currentPosition : Position).

Lemma candidate_shift (g : Random) (j : nat) :
  candidate safeMaxX safeMaxY (snd (Math_random (snd (Math_random g)))) j
  = candidate safeMaxX safeMaxY g (S j).
Proof.
  unfold candidate; cbn [Math_random snd draws used].
  replace (S (S (used g)) + 2 * j)%nat with (used g + 2 * S j)%nat by lia.
  replace (used g + 2 * S j + 1)%nat with (S (used g + 2 * S j))%nat by lia.
  replace (used g + 2 * S j + 1)%nat with (S (used g + 2 * S j))%nat by lia.
  reflexivity.
Qed.

Lemma candidate_first (g : Random) :
  candidate safeMaxX safeMaxY g 0
  = {| x := fst (Math_random g) * safeMaxX;
       y := fst (Math_random (snd (Math_random g))) * safeMaxY |}.
Proof.
  unfold candidate; cbn [Math_random fst snd draws used].
  replace (used g + 2 * 0)%nat with (used g) by lia.
  replace (used g + 1)%nat with (S (used g)) by lia.
  reflexivity.
Qed.

(** Entered with fewer than ten attempts made, the loop runs [k >= 1]
    rounds without exceeding ten attempts in all, returns the candidate of
    its last round, has consumed two draws per round, redrew only after
    candidates that were too close, and stopped before the tenth attempt
    only at a candidate that was not. *)
Lemma evasionLoop_rounds (attempts : N) (g : Random) :
  (attempts < maxAttempts)%N ->
  exists k : nat,
    (1 <= k)%nat
    /\ (attempts + N.of_nat k <= maxAttempts)%N
    /\ fst (evasionLoop safeMaxX safeMaxY currentPosition attempts g)
       = candidate safeMaxX safeMaxY g (k - 1)
    /\ fst (snd (evasionLoop safeMaxX safeMaxY currentPosition attempts g))
       = (attempts + N.of_nat k)%N
    /\ used (snd (snd (evasionLoop safeMaxX safeMaxY currentPosition attempts g)))
       = (used g + 2 * k)%nat
    /\ draws (snd (snd (evasionLoop safeMaxX safeMaxY currentPosition attempts g)))
       = draws g
    /\ (forall j, (j < k - 1)%nat ->
          tooClose currentPosition (candidate safeMaxX safeMaxY g j) = true)
    /\ ((attempts + N.of_nat k < maxAttempts)%N ->
          tooClose currentPosition (candidate safeMaxX safeMaxY g (k - 1)) = false).
Proof.
  functional induction (evasionLoop safeMaxX safeMaxY currentPosition attempts g)
    as [attempts g newX g1 newY g2 attempts' Hagain IH
       |attempts g newX g1 newY g2 attempts' Hstop];
    intros Hbudget.
  - apply andb_prop in Hagain; destruct Hagain as [Hagain Hy].
    apply andb_prop in Hagain; destruct Hagain as [Hlt Hx].
    apply N.ltb_lt in Hlt.
    destruct (IH Hlt) as (k & Hk & Hle & Hres & Hatt & Hused & Hdraws & Hclose & Hfar).
    exists (S k). repeat split.
    + lia.
    + lia.
    + rewrite Hres, candidate_shift. f_equal. lia.
    + rewrite Hatt. lia.
    + rewrite Hused. cbn [Math_random snd used]. lia.
    + rewrite Hdraws. reflexivity.
    + intros j Hj. destruct j as [|j].
      * rewrite candidate_first. unfold tooClose; cbn [x y].
        rewrite Hx, Hy. reflexivity.
      * rewrite <- candidate_shift. apply Hclose. lia.
    + intros Hroom. replace (S k - 1)%nat with (S (k - 1)) by lia.
      rewrite <- candidate_shift. apply Hfar. lia.
  - exists 1%nat. unfold maxAttempts in *.
    repeat split; try (cbn; lia).
    + cbn [fst Nat.sub]. rewrite candidate_first. reflexivity.
    + intros Hroom. cbn [Nat.sub]. rewrite candidate_first.
      unfold tooClose; cbn [x y].
      apply N.ltb_lt in Hroom. unfold maxAttempts in Hstop.
      change (N.of_nat 1) with 1%N in Hroom.
      rewrite Hroom in Hstop. exact Hstop.
Qed.

End RetryLoop.

(** C8. The retry loop of [calculateEvasionPosition] ends after [k]
    rounds with [1 <= k <= 10]: it has drawn [k] candidates (two random
    numbers each), every candidate it rejected was within 50 of the
    current position on both axes, it returns the last candidate drawn,
    and when it stops before the tenth that candidate is not too close;
    if the first nine are all too close, the tenth is returned whatever
    its distance. *)
Theorem retry_loop_bounded :
  forall (container button : Element) (currentPosition : Position) (g : Random),
    let sx := safeMax (rectWidth container) (rectWidth button) in
    let sy := safeMax (rectHeight container) (rectHeight button) in
    let r := calculateEvasionPosition container button currentPosition g in
    (exists k : nat,
        (1 <= k <= 10)%nat
        /\ fst r = candidate sx sy g (k - 1)
        /\ used (snd r) = (used g + 2 * k)%nat
        /\ (forall j, (j < k - 1)%nat ->
              tooClose currentPosition (candidate sx sy g j) = true)
        /\ ((k < 10)%nat -> tooClose currentPosition (fst r) = false))
    /\ ((forall j, (j < 9)%nat ->
           tooClose currentPosition (candidate sx sy g j) = true) ->
        fst r = candidate sx sy g 9 /\ used (snd r) = (used g + 20)%nat).
Proof.
  intros container button currentPosition g sx sy r.
  assert (Hbudget : (0 < maxAttempts)%N) by (unfold maxAttempts; lia).
  destruct (evasionLoop_rounds sx sy currentPosition 0%N g Hbudget)
    as (k & Hk & Hle & Hres & Hatt & Hused & Hdraws & Hclose & Hfar).
  unfold maxAttempts in *.
  assert (Hr1 : fst r = candidate sx sy g (k - 1)) by exact Hres.
  assert (Hr2 : used (snd r) = (used g + 2 * k)%nat) by exact Hused.
  split.
  - exists k. repeat split; try assumption; try lia.
    intros Hlt. rewrite Hr1. apply Hfar. lia.
  - intros Hall.
    assert (Hten : k = 10%nat).
    { destruct (Nat.eq_dec k 10) as [|Hne]; [assumption | exfalso].
      assert (Hroom : (0 + N.of_nat k < 10)%N) by lia.
      specialize (Hfar Hroom). rewrite Hall in Hfar by lia. discriminate. }
    subst k. split; [exact Hr1 | rewrite Hr2; lia].
Qed.

(** ** The class list *)

Section ClassList.

Lemma hasClass_addClass (e : Element) (c : string) : hasClass (addClass e [c]) c = true.
Proof.
  cbn [addClass fold_left]. unfold classList_add.
  destruct (hasClass e c) eqn:Hhas; [exact Hhas|].
  unfold hasClass. cbn [classList with_classList].
  rewrite existsb_app. cbn. rewrite String.eqb_refl, orb_true_r. reflexivity.
Qed.

Lemma hasClass_addClass_other (e : Element) (c d : string) :
  c <> d -> hasClass (addClass e [c]) d = hasClass e d.
Proof.
  intros Hne. cbn [addClass fold_left]. unfold classList_add.
  destruct (hasClass e c); [reflexivity|].
  unfold hasClass. cbn [classList with_classList].
  rewrite existsb_app. cbn.
  destruct (String.eqb d c) eqn:Heq.
  - apply String.eqb_eq in Heq. congruence.
  - rewrite !orb_false_r. reflexivity.
Qed.

Lemma hasClass_removeClass (e : Element) (c : string) :
  hasClass (removeClass e [c]) c = false.
Proof.
  cbn [removeClass fold_left]. unfold hasClass, classList_remove.
  cbn [classList with_classList].
  induction (classList e) as [|d l IH]; cbn; [reflexivity|].
  destruct (String.eqb c d) eqn:Heq; cbn; [exact IH|].
  rewrite Heq. exact IH.
Qed.

Lemma hasClass_removeClass_other (e : Element) (c d : string) :
  c <> d -> hasClass (removeClass e [c]) d = hasClass e d.
Proof.
  intros Hne. cbn [removeClass fold_left]. unfold hasClass, classList_remove.
  cbn [classList with_classList].
  induction (classList e) as [|x l IH]; cbn; [reflexivity|].
  destruct (String.eqb c x) eqn:Heq; cbn.
  - apply String.eqb_eq in Heq. subst x.
    destruct (String.eqb d c) eqn:Hd; [apply String.eqb_eq in Hd; congruence|].
    exact IH.
  - rewrite IH. reflexivity.
Qed.

Lemma addClass_frame (e : Element) (c : string) :
  childNodes (addClass e [c]) = childNodes e
  /\ textContent (addClass e [c]) = textContent e
  /\ style (addClass e [c]) = style e.
Proof.
  cbn [addClass fold_left]. unfold classList_add.
  destruct (hasClass e c); repeat split; reflexivity.
Qed.

Lemma removeClass_frame (e : Element) (c : string) :
  childNodes (removeClass e [c]) = childNodes e
  /\ textContent (removeClass e [c]) = textContent e
  /\ style (removeClass e [c]) = style e.
Proof. repeat split; reflexivity. Qed.

End ClassList.

(** ** The message element *)

Section MessageElement.

Lemma querySelectorClass_scan (c : string) (e : Element) :
  querySelectorClass c e = scanClass c (childNodes e) 0.
Proof. destruct e; reflexivity. Qed.

Lemma Element_children_ind (P : Element -> Prop) :
  (forall e, Forall P (childNodes e) -> P e) -> forall e, P e.
Proof.
  intros step. fix IH 1. intros e. apply step.
  destruct e as [tag classes text attrs sty children w h]. cbn.
  induction children as [|child rest IHrest].
  - constructor.
  - constructor; [apply IH | exact IHrest].
Qed.

Lemma nth_error_replace_nth {A : Type} (f : A -> A) (l : list A) :
  forall i a, nth_error l i = Some a ->
              nth_error (replace_nth i f l) i = Some (f a).
Proof.
  induction l as [|b l IH]; intros [|i] a H; cbn in *; try discriminate.
  - injection H as ->. reflexivity.
  - apply IH. exact H.
Qed.

Lemma nodeAt_updateAt (f : Element -> Element) (p : list nat) :
  forall e el, nodeAt p e = Some el ->
               nodeAt p (updateAt p f e) = Some (f el).
Proof.
  induction p as [|i q IH]; intros e el H; cbn in *.
  - injection H as ->. reflexivity.
  - destruct (nth_error (childNodes e) i) as [child|] eqn:Hchild; [|discriminate].
    rewrite (nth_error_replace_nth _ _ _ _ Hchild). apply IH. exact H.
Qed.

(** A path that the query returns leads to an element with the class. *)
Lemma querySelectorClass_sound (c : string) :
  forall e p, querySelectorClass c e = Some p ->
              exists el, nodeAt p e = Some el /\ hasClass el c = true.
Proof.
  induction e as [e IHe] using Element_children_ind.
  intros p. rewrite querySelectorClass_scan.
  assert (Hscan : forall l i q,
             Forall (fun ch => forall p, querySelectorClass c ch = Some p ->
                        exists el, nodeAt p ch = Some el /\ hasClass el c = true) l ->
             scanClass c l i = Some q ->
             exists j rest child,
               q = (i + j)%nat :: rest /\ nth_error l j = Some child
               /\ exists el, nodeAt rest child = Some el /\ hasClass el c = true).
  { induction l as [|child l IHl]; intros i q Hall Hq; cbn in Hq; [discriminate|].
    inversion Hall as [|? ? Hchild Hrest]; subst.
    destruct (hasClass child c) eqn:Hhas.
    - injection Hq as <-. exists 0%nat, [], child.
      rewrite Nat.add_0_r. repeat split. exists child. split; [reflexivity | exact Hhas].
    - destruct (querySelectorClass c child) as [p'|] eqn:Hq'.
      + injection Hq as <-. exists 0%nat, p', child.
        rewrite Nat.add_0_r. repeat split. apply Hchild. reflexivity.
      + destruct (IHl (S i) q Hrest Hq) as (j & rest & ch & -> & Hnth & Hel).
        exists (S j), rest, ch. repeat split; [f_equal; lia | exact Hnth | exact Hel]. }
  intros Hq. destruct (Hscan _ _ _ IHe Hq) as (j & rest & child & -> & Hnth & Hel).
  cbn. rewrite Hnth. exact Hel.
Qed.

Lemma hasClass_message_shown (el : Element) (text : string) :
  hasClass el "pleading-message" = true ->
  hasClass (addClass (removeClass (set_textContent el text)
                                  ["pleading-message--animate"])
                     ["pleading-message--animate"])
           "pleading-message" = true.
Proof.
  intros Hhas.
  rewrite hasClass_addClass_other by discriminate.
  rewrite hasClass_removeClass_other by discriminate.
  exact Hhas.
Qed.

Lemma textContent_message_shown (el : Element) (text : string) :
  textContent (addClass (removeClass (set_textContent el text)
                                     ["pleading-message--animate"])
                        ["pleading-message--animate"]) = text.
Proof.
  rewrite (proj1 (proj2 (addClass_frame _ _))). reflexivity.
Qed.

(** The reference that "get or create" yields leads to an element of the
    container that carries the class of message elements. *)
Lemma messageElement_found (container : Element) :
  exists el,
    nodeAt (snd (messageElement container)) (fst (messageElement container)) = Some el
    /\ hasClass el "pleading-message" = true.
Proof.
  unfold messageElement.
  destruct (querySelectorClass "pleading-message" container) as [p|] eqn:Hq.
  - cbn. apply querySelectorClass_sound. exact Hq.
  - cbn. rewrite nth_error_app2 by lia. rewrite Nat.sub_diag. cbn.
    eexists. split; reflexivity.
Qed.

(** What [showPleadingMessage] shows and what it does to the cursor. *)
Lemma showPleadingMessage_shows (container : Element) (state : LoveGameState)
    (config : LoveGameConfig) :
  let r := showPleadingMessage container state config in
  let message :=
    index (pleadingMessages config)
          (JS.rem (currentMessageIndex state)
                  (number_of_N (N.of_nat (List.length (pleadingMessages config))))) in
  (exists el,
      nodeAt (snd (messageElement container)) (fst r) = Some el
      /\ hasClass el "pleading-message" = true
      /\ textContent el = nullish message fallbackMessage)
  /\ currentMessageIndex (snd r) = currentMessageIndex state + 1.
Proof.
  intros r message. split; [|reflexivity].
  destruct (messageElement_found container) as (el & Hel & Hhas).
  subst r. unfold showPleadingMessage. cbn [fst snd].
  rewrite (nodeAt_updateAt _ _ _ _ Hel).
  eexists. split; [reflexivity|]. split.
  - apply hasClass_message_shown. exact Hhas.
  - apply textContent_message_shown.
Qed.

End MessageElement.

(** ** A second celebration *)

Section Answered.

Lemma set_hasAnsweredYes_same (s : LoveGameState) :
  hasAnsweredYes s = true -> set_hasAnsweredYes s true = s.
Proof. destruct s; cbn; intros ->; reflexivity. Qed.

Lemma with_state_same (g : Game) : with_state g (state g) = g.
Proof. destruct g; reflexivity. Qed.

Lemma store_same (doc : list (string * Element)) (ref : string) (e : Element) :
  lookup doc ref = Some e -> store doc ref e = doc.
Proof.
  induction doc as [|[k e0] doc IH]; cbn; intros H; [reflexivity|].
  destruct (String.eqb k ref).
  - injection H as ->. reflexivity.
  - rewrite IH by assumption. reflexivity.
Qed.

Lemma page_same (p : Page) :
  with_random (with_document p (document p)) (random p) = p.
Proof. destruct p; reflexivity. Qed.

Variables (g : Game) (p : Page).
Hypothesis answered : hasAnsweredYes (state g) = true.

Lemma triggerCelebration_state_same (celebrationContainer : Element)
    (reducedMotion : bool) (rnd : Random) :
  ce_state (triggerCelebration (site g) celebrationContainer (state g) (config g)
                               reducedMotion rnd) = state g.
Proof. cbn. apply set_hasAnsweredYes_same. exact answered. Qed.

Lemma evadeAt_answered (button container : string) :
  evadeAt g p button container = (g, p).
Proof.
  unfold evadeAt.
  destruct (lookup (document p) button) as [b|] eqn:Hb; [|reflexivity].
  destruct (lookup (document p) container) as [c|] eqn:Hc; [|reflexivity].
  rewrite evadeNoButton_answered by exact answered. cbn [ev_state ev_button ev_container ev_random].
  rewrite (store_same _ _ _ Hb), (store_same _ _ _ Hc).
  rewrite with_state_same, page_same. reflexivity.
Qed.

Lemma handleYesClick_answered (cel : string) : handleYesClick g p cel = (g, p).
Proof. unfold handleYesClick. rewrite answered. reflexivity. Qed.

Lemma triggerCelebrationManual_answered : triggerCelebrationManual g p = (g, p).
Proof.
  unfold triggerCelebrationManual. rewrite answered.
  destruct (celebrationContainer g); reflexivity.
Qed.

Lemma runListener_answered (key : string) (l : Listener) :
  runListener key (g, p) l = (g, p).
Proof.
  destruct l; cbn [runListener fst snd].
  - apply evadeAt_answered.
  - apply evadeAt_answered.
  - apply handleYesClick_answered.
  - destruct (_ || _); [apply handleYesClick_answered | reflexivity].
Qed.

Lemma dispatchEvent_answered (target type key : string) :
  dispatchEvent target type key (g, p) = (g, p).
Proof.
  unfold dispatchEvent. cbn [snd].
  induction (map snd (filter (same_registration target type) (listeners p)))
    as [|l ls IH]; cbn [fold_left]; [reflexivity|].
  rewrite runListener_answered. exact IH.
Qed.

End Answered.

(** C4, as stated, fails for [triggerCelebration] itself: called again on
    a state that is already answered it leaves the state record as it is
    but renders the celebration afresh; here the first heart of the first
    rendering sits at 25% and that of the second at 75%. *)
Lemma second_celebration_rerenders :
  let first := triggerCelebration demoSite demoCelebration createInitialState
                                  demoConfig false quarters in
  let second := triggerCelebration demoSite (ce_container first) (ce_state first)
                                   demoConfig false (ce_random first) in
  hasAnsweredYes (ce_state first) = true
  /\ ce_state second = ce_state first
  /\ ce_container second <> ce_container first
  /\ used (ce_random second) <> used (ce_random first).
Proof.
  cbv zeta. split; [reflexivity|]. split; [reflexivity|]. split.
  - intros Heq. apply (f_equal firstHeartOnTheLeft) in Heq.
    vm_compute in Heq. discriminate.
  - vm_compute. discriminate.
Qed.

(** C4, amended.  On a game whose answer is already yes,
    [triggerCelebration] leaves the state record identical, and the entry
    points that guard it do nothing at all: the [triggerCelebration]
    method of the handle, the click handler of the "Yes" button, and any
    event dispatched to the registered listeners leave the closure and the
    page (elements, listeners, random source, console) unchanged, so
    nothing is rendered again and the celebration callback does not run
    again. *)
Theorem repeated_celebration_is_guarded :
  forall (g : Game) (p : Page),
    hasAnsweredYes (state g) = true ->
    (forall celebrationContainer reducedMotion rnd,
        ce_state (triggerCelebration (site g) celebrationContainer (state g)
                                     (config g) reducedMotion rnd) = state g)
    /\ triggerCelebrationManual g p = (g, p)
    /\ (forall cel, handleYesClick g p cel = (g, p))
    /\ (forall target type key, dispatchEvent target type key (g, p) = (g, p)).
Proof.
  intros g p answered. split; [|split; [|split]].
  - intros. apply triggerCelebration_state_same. exact answered.
  - apply triggerCelebrationManual_answered. exact answered.
  - intros. apply handleYesClick_answered. exact answered.
  - intros. apply dispatchEvent_answered. exact answered.
Qed.

Lemma repeated_celebration_is_guarded_witness :
  hasAnsweredYes (state (fst demoWorld)) = true
  /\ triggerCelebrationManual (fst demoWorld) (snd demoWorld)
     = (fst demoWorld, snd demoWorld)
  /\ dispatchEvent "#yes-button" "click" "" (fst demoWorld, snd demoWorld)
     = (fst demoWorld, snd demoWorld).
Proof.
  split; [reflexivity|].
  destruct (repeated_celebration_is_guarded (fst demoWorld) (snd demoWorld) eq_refl)
    as (_ & Hmanual & _ & Hdispatch).
  split; [exact Hmanual | apply Hdispatch].
Defined.

(** ** Binary64 arithmetic

    Facts about the IEEE 754 operations that the geometry of the game
    relies on, proved on the specification of the primitive floats
    ([SpecFloat], precision 53, maximal exponent 1024). *)

Section Rounding.

Local Open Scope Z_scope.

Lemma fexp_spec (e : Z) : fexp prec emax e = Z.max (e - 53) (-1074).
Proof. reflexivity. Qed.

Lemma digits2_pos_bounds (p : positive) :
  2 ^ (Zpos (digits2_pos p) - 1) <= Zpos p < 2 ^ Zpos (digits2_pos p).
Proof.
  induction p as [p IH | p IH |]; cbn [digits2_pos].
  - rewrite Pos2Z.inj_succ.
    replace (Z.succ (Zpos (digits2_pos p)) - 1) with (Z.succ (Zpos (digits2_pos p) - 1)) by lia.
    rewrite !Z.pow_succ_r by lia. lia.
  - rewrite Pos2Z.inj_succ.
    replace (Z.succ (Zpos (digits2_pos p)) - 1) with (Z.succ (Zpos (digits2_pos p) - 1)) by lia.
    rewrite !Z.pow_succ_r by lia. lia.
  - cbn. lia.
Qed.

(** If [m <= M * 2^k] then [m] has at most [k] more digits than [M]. *)
Lemma digits2_pos_le (m M : positive) (k : Z) :
  0 <= k -> Zpos m <= Zpos M * 2 ^ k ->
  Zpos (digits2_pos m) <= Zpos (digits2_pos M) + k.
Proof.
  intros Hk Hle.
  destruct (digits2_pos_bounds m) as [Hlow _].
  destruct (digits2_pos_bounds M) as [_ Hhigh].
  assert (Hpow : 2 ^ (Zpos (digits2_pos m) - 1) < 2 ^ (Zpos (digits2_pos M) + k)).
  { rewrite Z.pow_add_r by lia.
    assert (0 < 2 ^ k) by (apply Z.pow_pos_nonneg; lia). nia. }
  apply Z.pow_lt_mono_r_iff in Hpow; lia.
Qed.

Lemma iter_pos_nat {A : Type} (f : A -> A) (p : positive) :
  forall x, SpecFloat.iter_pos f p x = Nat.iter (Pos.to_nat p) f x.
Proof.
  induction p as [p IH | p IH |]; intros x; cbn [SpecFloat.iter_pos].
  - rewrite !IH, Pos2Nat.inj_xI.
    replace (S (2 * Pos.to_nat p)) with (Pos.to_nat p + (Pos.to_nat p + 1))%nat by lia.
    rewrite !Nat.iter_add. reflexivity.
  - rewrite !IH, Pos2Nat.inj_xO.
    replace (2 * Pos.to_nat p)%nat with (Pos.to_nat p + Pos.to_nat p)%nat by lia.
    rewrite Nat.iter_add. reflexivity.
  - reflexivity.
Qed.

Lemma shr_1_spec (mrs : shr_record) :
  0 <= shr_m mrs ->
  shr_m (shr_1 mrs) = shr_m mrs / 2
  /\ (exact_record mrs -> Z.even (shr_m mrs) = true -> exact_record (shr_1 mrs)).
Proof.
  destruct mrs as [m r s]. cbn [shr_m]. intros Hm.
  destruct m as [|[p|p|]|p]; try lia; cbn [shr_1 shr_m]; unfold exact_record; cbn.
  - split; [reflexivity | intros [-> ->] _; auto].
  - split; [rewrite Pos2Z.inj_xI; apply Z.div_unique with 1; lia
           | intros _ H; discriminate].
  - split; [rewrite Pos2Z.inj_xO; apply Z.div_unique with 0; lia
           | intros [-> ->] _; auto].
  - split; [reflexivity | intros _ H; discriminate].
Qed.

Lemma mod_mul_split (m a b : Z) :
  0 < a -> 0 < b -> m mod (a * b) = 0 -> m mod a = 0 /\ (m / a) mod b = 0.
Proof.
  intros Ha Hb Hm.
  apply Z.mod_divide in Hm; [|lia]. destruct Hm as [q ->].
  split.
  - replace (q * (a * b)) with ((q * b) * a) by ring. apply Z.mod_mul. lia.
  - replace (q * (a * b)) with ((q * b) * a) by ring. rewrite Z.div_mul by lia.
    apply Z.mod_mul. lia.
Qed.

Lemma iter_shr_1_spec (n : nat) (mrs : shr_record) :
  0 <= shr_m mrs ->
  shr_m (Nat.iter n shr_1 mrs) = shr_m mrs / 2 ^ Z.of_nat n
  /\ (exact_record mrs -> shr_m mrs mod 2 ^ Z.of_nat n = 0 ->
      exact_record (Nat.iter n shr_1 mrs)).
Proof.
  intros Hm. induction n as [|n [IHm IHe]].
  - cbn. rewrite Z.div_1_r. auto.
  - rewrite Nat.iter_succ, Nat2Z.inj_succ, Z.pow_succ_r by lia.
    assert (Hpos : 0 < 2 ^ Z.of_nat n) by (apply Z.pow_pos_nonneg; lia).
    assert (Hnonneg : 0 <= shr_m (Nat.iter n shr_1 mrs)).
    { rewrite IHm. apply Z.div_pos; lia. }
    destruct (shr_1_spec _ Hnonneg) as [Hstep Hexact].
    split.
    + rewrite Hstep, IHm, Z.div_div by lia. f_equal. ring.
    + intros Hex Hmod.
      replace (2 * 2 ^ Z.of_nat n) with (2 ^ Z.of_nat n * 2) in Hmod by ring.
      apply mod_mul_split in Hmod; [|lia|lia]. destruct Hmod as [Hmod1 Hmod2].
      apply Hexact; [auto|]. rewrite IHm.
      rewrite Z.even_spec. apply Z.mod_divide in Hmod2; [|lia].
      destruct Hmod2 as [q ->]. exists q. ring.
Qed.

(** [shr_fexp] on a non-negative mantissa known exactly: the exponent
    moves up to the canonical one (never down), the mantissa is divided
    accordingly, and the result is exact when the division is. *)
Lemma shr_fexp_exact (m e : Z) :
  0 <= m ->
  let n := Z.max 0 (fexp prec emax (Zdigits2 m + e) - e) in
  exists mrs,
    shr_fexp prec emax m e loc_Exact = (mrs, e + n)
    /\ shr_m mrs = m / 2 ^ n
    /\ (m mod 2 ^ n = 0 -> loc_of_shr_record mrs = loc_Exact).
Proof.
  intros Hm n. unfold shr_fexp, shr. cbn [shr_record_of_loc].
  subst n. destruct (fexp prec emax (Zdigits2 m + e) - e) as [|p|p] eqn:Hn.
  - eexists. rewrite Z.add_0_r. split; [reflexivity|]. cbn. rewrite Z.div_1_r. auto.
  - rewrite iter_pos_nat.
    destruct (iter_shr_1_spec (Pos.to_nat p) {| shr_m := m; shr_r := false; shr_s := false |} Hm)
      as [Hdiv Hexact].
    rewrite positive_nat_Z in *. cbn [shr_m] in *.
    eexists. rewrite Z.max_r by lia. split; [reflexivity|]. split; [exact Hdiv|].
    intros Hmod. destruct (Hexact (conj eq_refl eq_refl) Hmod) as [Hr Hs].
    destruct (Nat.iter _ _ _) as [m' r' s']. cbn in Hr, Hs. subst. reflexivity.
  - eexists. rewrite Z.max_l by lia. rewrite Z.add_0_r. split; [reflexivity|].
    cbn. rewrite Z.div_1_r. auto.
Qed.

Lemma round_nearest_even_bounds (m : Z) (l : location) :
  m <= round_nearest_even m l <= m + 1
  /\ (l = loc_Exact -> round_nearest_even m l = m).
Proof.
  destruct l as [|[| |]]; cbn; try destruct (Z.even m); split; try lia; auto; discriminate.
Qed.


Lemma bounded_spec (m : positive) (e : Z) :
  bounded prec emax m e = true ->
  fexp prec emax (Zpos (digits2_pos m) + e) = e /\ e <= 971.
Proof.
  unfold bounded, canonical_mantissa. intros H.
  apply andb_prop in H. destruct H as [Hc He].
  apply Z.eqb_eq in Hc. apply Z.leb_le in He. split; [exact Hc | exact He].
Qed.

Lemma binary_round_aux_shape (sx : bool) (m : positive) (e : Z) :
  binary_round_aux prec emax sx (Zpos m) e loc_Exact = S754_zero sx
  \/ (exists m' e', binary_round_aux prec emax sx (Zpos m) e loc_Exact
                     = S754_finite sx m' e')
  \/ binary_round_aux prec emax sx (Zpos m) e loc_Exact = S754_infinity sx.
Proof.
  unfold binary_round_aux.
  destruct (shr_fexp_exact (Zpos m) e) as (mrs1 & Heq1 & Hm1 & _); [lia|].
  rewrite Heq1.
  set (m2 := round_nearest_even (shr_m mrs1) (loc_of_shr_record mrs1)).
  assert (Hm2 : 0 <= m2).
  { destruct (round_nearest_even_bounds (shr_m mrs1) (loc_of_shr_record mrs1)) as [[Hlow _] _].
    subst m2. rewrite Hm1 in *. 
    assert (0 <= Zpos m / 2 ^ Z.max 0 (fexp prec emax (Zdigits2 (Zpos m) + e) - e)).
    { apply Z.div_pos; [lia | apply Z.pow_pos_nonneg; lia]. }
    lia. }
  destruct (shr_fexp_exact m2 (e + Z.max 0 (fexp prec emax (Zdigits2 (Zpos m) + e) - e)) Hm2)
    as (mrs2 & Heq2 & Hm3 & _).
  rewrite Heq2.
  assert (Hm3' : 0 <= shr_m mrs2).
  { rewrite Hm3. apply Z.div_pos; [lia | apply Z.pow_pos_nonneg; lia]. }
  destruct (shr_m mrs2) as [|m'|m']; [left; reflexivity | | lia].
  destruct (_ <=? _); [right; left; eauto | right; right; reflexivity].
Qed.

(** Rounding a positive number that is at most a representable one: if
    [m * 2^e <= M * 2^E], where [(M, E)] is a valid mantissa and exponent
    and [e] is at most the canonical exponent of [m * 2^e], the rounded
    value is zero or a finite number that is still at most [M * 2^E]. *)
Lemma binary_round_aux_bound (sx : bool) (m : positive) (e : Z) (M : positive) (E : Z) :
  e <= fexp prec emax (Zpos (digits2_pos m) + e) ->
  bounded prec emax M E = true ->
  e <= E ->
  Zpos m <= Zpos M * 2 ^ (E - e) ->
  binary_round_aux prec emax sx (Zpos m) e loc_Exact = S754_zero sx
  \/ exists m' e',
       binary_round_aux prec emax sx (Zpos m) e loc_Exact = S754_finite sx m' e'
       /\ le_mag m' e' M E.
Proof.
  intros Hprec Hbounded HeE Hle.
  destruct (bounded_spec M E Hbounded) as [Hcanon Hmax].
  unfold binary_round_aux.
  destruct (shr_fexp_exact (Zpos m) e) as (mrs1 & Heq1 & Hm1 & Hexact1); [lia|].
  rewrite Heq1. clear Heq1.
  cbn [Zdigits2] in *.
  set (d := Zpos (digits2_pos m)) in *.
  set (D := Zpos (digits2_pos M)) in *.
  assert (Hmag : d + e <= D + E).
  { pose proof (digits2_pos_le m M (E - e) ltac:(lia) Hle). lia. }
  rewrite Z.max_r in * by lia.
  set (f1 := fexp prec emax (d + e)) in *.
  assert (Hf1E : f1 <= E).
  { subst f1. rewrite fexp_spec in *. lia. }
  replace (e + (f1 - e)) with f1 by lia.
  set (n1 := f1 - e) in *.
  assert (Hpow1 : 0 < 2 ^ n1) by (apply Z.pow_pos_nonneg; lia).
  set (Mb := Zpos M * 2 ^ (E - f1)).
  assert (HpowE : 0 < 2 ^ (E - f1)) by (apply Z.pow_pos_nonneg; lia).
  assert (Hsplit : Zpos M * 2 ^ (E - e) = Mb * 2 ^ n1).
  { subst Mb n1. rewrite <- Z.mul_assoc, <- Z.pow_add_r by lia. do 2 f_equal. lia. }
  set (m1 := shr_m mrs1) in *.
  assert (Hm1Mb : m1 <= Mb).
  { rewrite Hm1. apply Z.div_le_upper_bound; [lia|]. rewrite Hsplit in Hle. lia. }
  assert (Hm1pos : 0 <= m1).
  { rewrite Hm1. apply Z.div_pos; lia. }
  set (m2 := round_nearest_even m1 (loc_of_shr_record mrs1)).
  assert (Hm2 : 0 <= m2 <= Mb).
  { destruct (round_nearest_even_bounds m1 (loc_of_shr_record mrs1)) as [[Hlow Hhigh] Hex].
    fold m2 in Hlow, Hhigh, Hex. split; [lia|].
    destruct (Z.eq_dec m1 Mb) as [Heq|Hne]; [|lia].
    assert (Hmod : Zpos m mod 2 ^ n1 = 0).
    { pose proof (Z.div_mod (Zpos m) (2 ^ n1) ltac:(lia)) as Hdm.
      pose proof (Z.mod_pos_bound (Zpos m) (2 ^ n1) Hpow1) as Hb.
      rewrite <- Hm1, Heq in Hdm. rewrite Hsplit in Hle. lia. }
    rewrite (Hex (Hexact1 Hmod)). lia. }
  destruct (shr_fexp_exact m2 f1 ltac:(lia)) as (mrs2 & Heq2 & Hm3 & _).
  rewrite Heq2. clear Heq2.
  set (n2 := Z.max 0 (fexp prec emax (Zdigits2 m2 + f1) - f1)) in *.
  assert (Hpow2 : 0 < 2 ^ n2) by (apply Z.pow_pos_nonneg; subst n2; lia).
  destruct (shr_m mrs2) as [|m'|m'] eqn:Hm'.
  - left. reflexivity.
  - right.
    assert (Hm2pos : 0 < m2).
    { destruct (Z.eq_dec m2 0) as [Hz|]; [|lia].
      rewrite Hz, Z.div_0_l in Hm3 by lia. discriminate. }
    destruct m2 as [|q|q] eqn:Hq; try lia.
    cbn [Zdigits2] in *.
    assert (Hmag2 : Zpos (digits2_pos q) + f1 <= D + E).
    { pose proof (digits2_pos_le q M (E - f1) ltac:(lia) ltac:(subst Mb; lia)). lia. }
    assert (He2 : f1 + n2 <= E).
    { subst n2. rewrite fexp_spec in *. lia. }
    assert (Hfin : (f1 + n2 <=? emax - prec) = true).
    { apply Z.leb_le. change (emax - prec) with 971. lia. }
    rewrite Hfin. exists m', (f1 + n2). split; [reflexivity|].
    destruct (Z.eq_dec (f1 + n2) E) as [Heq|Hne]; [right | left; lia].
    split; [exact Heq|].
    rewrite Hm3. apply Z.div_le_upper_bound; [lia|].
    replace n2 with (E - f1) by lia. subst Mb. lia.
  - exfalso.
    assert (0 <= Z.neg m'); [|lia].
    rewrite Hm3. apply Z.div_pos; lia.
Qed.


Lemma iter_xO_spec (m d : positive) :
  Zpos (Pos.iter xO m d) = Zpos m * 2 ^ Zpos d
  /\ Zpos (digits2_pos (Pos.iter xO m d)) = Zpos (digits2_pos m) + Zpos d.
Proof.
  induction d as [|d [IHv IHd]] using Pos.peano_ind.
  - cbn [Pos.iter digits2_pos]. rewrite Pos2Z.inj_xO, Pos2Z.inj_succ. split; lia.
  - rewrite Pos.iter_succ. cbn [digits2_pos].
    rewrite Pos2Z.inj_xO, !Pos2Z.inj_succ, IHv, IHd, Z.pow_succ_r by lia. split; lia.
Qed.

(** [shl_align] lowers the exponent to the requested one when that is
    smaller, keeping the value. *)
Lemma shl_align_spec (mx : positive) (ex ex' : Z) :
  let ez := Z.min ex ex' in
  snd (shl_align mx ex ex') = ez
  /\ Zpos (fst (shl_align mx ex ex')) = Zpos mx * 2 ^ (ex - ez)
  /\ Zpos (digits2_pos (fst (shl_align mx ex ex'))) + ez
     = Zpos (digits2_pos mx) + ex.
Proof.
  intros ez. subst ez. unfold shl_align.
  destruct (ex' - ex) as [|d|d] eqn:Hd; cbn [fst snd].
  - rewrite Z.min_l by lia. rewrite Z.sub_diag. cbn. repeat split; lia.
  - rewrite Z.min_l by lia. rewrite Z.sub_diag. cbn. repeat split; lia.
  - rewrite Z.min_r by lia. destruct (iter_xO_spec mx d) as [Hv Hdig].
    replace (ex - ex') with (Zpos d) by lia. repeat split; lia.
Qed.

Lemma binary_round_shape (sx : bool) (mx : positive) (ex : Z) :
  binary_round prec emax sx mx ex = S754_zero sx
  \/ (exists m' e', binary_round prec emax sx mx ex = S754_finite sx m' e')
  \/ binary_round prec emax sx mx ex = S754_infinity sx.
Proof.
  unfold binary_round. destruct (shl_align _ _ _) as [mz ez].
  apply binary_round_aux_shape.
Qed.

Lemma binary_round_bound (sx : bool) (mx : positive) (ex : Z) (M : positive) (E : Z) :
  bounded prec emax M E = true ->
  ex <= E ->
  Zpos mx <= Zpos M * 2 ^ (E - ex) ->
  binary_round prec emax sx mx ex = S754_zero sx
  \/ exists m' e',
       binary_round prec emax sx mx ex = S754_finite sx m' e' /\ le_mag m' e' M E.
Proof.
  intros Hbounded HeE Hle. unfold binary_round.
  destruct (shl_align_spec mx ex (fexp prec emax (Zpos (digits2_pos mx) + ex)))
    as (Hez & Hmz & Hdig).
  destruct (shl_align _ _ _) as [mz ez]. cbn [fst snd] in *.
  set (f := fexp prec emax (Zpos (digits2_pos mx) + ex)) in *.
  rewrite <- Hez in Hdig, Hmz.
  assert (Hlow : ez <= ex /\ ez <= f) by lia.
  clear Hez.
  apply binary_round_aux_bound; try assumption.
  - rewrite Hdig. fold f. lia.
  - lia.
  - rewrite Hmz.
    assert (0 < 2 ^ (ex - ez)) by (apply Z.pow_pos_nonneg; lia).
    replace (E - ez) with ((E - ex) + (ex - ez)) by lia.
    rewrite Z.pow_add_r by lia. nia.
Qed.

Lemma le_mag_SFleb (m : positive) (e : Z) (M : positive) (E : Z) :
  le_mag m e M E ->
  SFleb (S754_finite false m e) (S754_finite false M E) = true.
Proof.
  unfold SFleb, SFcompare. intros [Hlt | [-> Hle]].
  - rewrite (proj2 (Z.compare_lt_iff e E) Hlt). reflexivity.
  - rewrite Z.compare_refl, Pos.compare_cont_spec. cbn [Pos.switch_Eq].
    destruct (Pos.compare m M) eqn:Hc; try reflexivity.
    rewrite Pos.compare_gt_iff in Hc. lia.
Qed.

(** Valid mantissas have at most 53 digits, and exactly 53 above the
    smallest exponent. *)
Lemma bounded_digits (m : positive) (e : Z) :
  bounded prec emax m e = true ->
  Zpos m < 2 ^ 53 /\ -1074 <= e <= 971 /\ (-1074 < e -> 2 ^ 52 <= Zpos m).
Proof.
  intros Hb. destruct (bounded_spec m e Hb) as [Hc He].
  rewrite fexp_spec in Hc.
  destruct (digits2_pos_bounds m) as [Hlow Hhigh].
  assert (Hd : Zpos (digits2_pos m) <= 53) by lia.
  split; [|split; [lia|]].
  - apply Z.lt_le_trans with (1 := Hhigh). apply Z.pow_le_mono_r; lia.
  - intros Hnormal. assert (Hd53 : Zpos (digits2_pos m) = 53) by lia.
    rewrite Hd53 in Hlow. exact Hlow.
Qed.

(** A valid positive number below 1 has a mantissa below [2^(-e)]. *)
Lemma below_one (m : positive) (e : Z) :
  bounded prec emax m e = true ->
  SFltb (S754_finite false m e) one_sf = true ->
  e <= -53 /\ Zpos m < 2 ^ (- e).
Proof.
  intros Hb Hlt. destruct (bounded_digits m e Hb) as (Hm & He & Hnormal).
  unfold SFltb, one_sf, SFcompare in Hlt.
  destruct (Z.compare e (-52)) eqn:Hc; try discriminate.
  - apply Z.compare_eq_iff in Hc. subst e. exfalso.
    rewrite Pos.compare_cont_spec in Hlt. cbn [Pos.switch_Eq] in Hlt.
    destruct (Pos.compare m 4503599627370496) eqn:Hm'; try discriminate.
    rewrite Pos.compare_lt_iff in Hm'.
    assert (Hge : 2 ^ 52 <= Zpos m) by (apply Hnormal; exact eq_refl).
    apply Pos2Z.pos_lt_pos in Hm'.
    change (Zpos 4503599627370496) with (2 ^ 52) in Hm'.
    exact (Z.lt_irrefl _ (Z.lt_le_trans _ _ _ Hm' Hge)).
  - rewrite Z.compare_lt_iff in Hc. split; [lia|].
    apply Z.lt_le_trans with (1 := Hm). apply Z.pow_le_mono_r; lia.
Qed.

(** The product of a number in [0, 1) and a non-negative finite number
    [f] is zero or a finite number that is at most [f]. *)
Lemma SFmul_unit_bound (mr : positive) (er : Z) (mf : positive) (ef : Z) :
  bounded prec emax mr er = true ->
  SFltb (S754_finite false mr er) one_sf = true ->
  bounded prec emax mf ef = true ->
  SFmul prec emax (S754_finite false mr er) (S754_finite false mf ef) = S754_zero false
  \/ exists m' e',
       SFmul prec emax (S754_finite false mr er) (S754_finite false mf ef)
       = S754_finite false m' e'
       /\ le_mag m' e' mf ef.
Proof.
  intros Hr Hlt Hf. destruct (below_one mr er Hr Hlt) as [Her Hmr].
  destruct (bounded_spec mf ef Hf) as [Hcanon _].
  cbn [SFmul xorb].
  apply binary_round_aux_bound; try assumption.
  - pose proof (digits2_pos_le mf (mr * mf) 0 ltac:(lia)) as Hdig.
    rewrite Pos2Z.inj_mul, Z.pow_0_r in Hdig.
    specialize (Hdig ltac:(nia)).
    rewrite fexp_spec in *. lia.
  - lia.
  - replace (ef - (er + ef)) with (- er) by lia.
    rewrite Pos2Z.inj_mul. nia.
Qed.


Lemma binary_round_nonneg (m : positive) (e : Z) :
  sf_nonneg (binary_round prec emax false m e) = true.
Proof.
  destruct (binary_round_shape false m e) as [-> | [(m' & e' & ->) | ->]]; reflexivity.
Qed.

Lemma binary_round_aux_nonneg (m : positive) (e : Z) :
  sf_nonneg (binary_round_aux prec emax false (Zpos m) e loc_Exact) = true.
Proof.
  destruct (binary_round_aux_shape false m e) as [-> | [(m' & e' & ->) | ->]]; reflexivity.
Qed.

Lemma binary_normalize_nonneg (z e : Z) :
  0 <= z -> sf_nonneg (binary_normalize prec emax z e false) = true.
Proof.
  intros Hz. destruct z as [|m|m]; cbn [binary_normalize]; [reflexivity | | lia].
  apply binary_round_nonneg.
Qed.

(** A sum or difference of aligned mantissas that is no larger in size
    than a representable number rounds to a finite number. *)
Lemma binary_normalize_finite (z e : Z) (M : positive) (E : Z) :
  bounded prec emax M E = true -> e <= E ->
  Z.abs z <= Zpos M * 2 ^ (E - e) ->
  sf_finite (binary_normalize prec emax z e false) = true.
Proof.
  intros Hb He Hz. destruct z as [|m|m]; cbn [binary_normalize]; [reflexivity | |].
  - destruct (binary_round_bound false m e M E Hb He) as [-> | (m' & e' & -> & _)];
      [exact Hz | reflexivity | reflexivity].
  - destruct (binary_round_bound true m e M E Hb He) as [-> | (m' & e' & -> & _)];
      [exact Hz | reflexivity | reflexivity].
Qed.

(** ... and one that is at most a representable number rounds to a
    number that is at most that number. *)
Lemma binary_normalize_le (z e : Z) (M : positive) (E : Z) :
  bounded prec emax M E = true -> e <= E ->
  z <= Zpos M * 2 ^ (E - e) ->
  SFleb (binary_normalize prec emax z e false) (S754_finite false M E) = true.
Proof.
  intros Hb He Hz. destruct z as [|m|m]; cbn [binary_normalize]; [reflexivity | |].
  - destruct (binary_round_bound false m e M E Hb He Hz) as [-> | (m' & e' & -> & Hle)];
      [reflexivity | apply le_mag_SFleb; exact Hle].
  - destruct (binary_round_shape true m e) as [-> | [(m' & e' & ->) | ->]]; reflexivity.
Qed.

Lemma SFsub_finite_finite (sx : bool) (mx : positive) (ex : Z)
    (sy : bool) (my : positive) (ey : Z) :
  let ez := Z.min ex ey in
  SFsub prec emax (S754_finite sx mx ex) (S754_finite sy my ey)
  = binary_normalize prec emax
      (cond_Zopp sx (Zpos mx * 2 ^ (ex - ez)) - cond_Zopp sy (Zpos my * 2 ^ (ey - ez)))
      ez false.
Proof.
  intros ez. cbn [SFsub]. fold ez.
  destruct (shl_align_spec mx ex ez) as (_ & Hx & _).
  destruct (shl_align_spec my ey ez) as (_ & Hy & _).
  rewrite Hx, Hy. subst ez.
  replace (Z.min ex (Z.min ex ey)) with (Z.min ex ey) by lia.
  replace (Z.min ey (Z.min ex ey)) with (Z.min ex ey) by lia.
  reflexivity.
Qed.

(** The difference of two finite non-negative numbers is finite. *)
Lemma SFsub_finite (x y : spec_float) :
  valid x = true -> valid y = true ->
  sf_finite x = true -> sf_finite y = true ->
  sf_nonneg x = true -> sf_nonneg y = true ->
  sf_finite (SFsub prec emax x y) = true.
Proof.
  destruct x as [sx|sx| |sx mx ex], y as [sy|sy| |sy my ey];
    try discriminate; intros Vx Vy _ _ Px Py.
  - destruct sx, sy; reflexivity.
  - reflexivity.
  - reflexivity.
  - cbn in Px, Py. destruct sx, sy; try discriminate.
    rewrite SFsub_finite_finite. cbn [cond_Zopp].
    set (ez := Z.min ex ey).
    assert (Hx : 0 < 2 ^ (ex - ez)) by (apply Z.pow_pos_nonneg; lia).
    assert (Hy : 0 < 2 ^ (ey - ez)) by (apply Z.pow_pos_nonneg; lia).
    destruct (Z.le_ge_cases (Zpos my * 2 ^ (ey - ez)) (Zpos mx * 2 ^ (ex - ez))).
    + apply binary_normalize_finite with (M := mx) (E := ex); [exact Vx | lia | nia].
    + apply binary_normalize_finite with (M := my) (E := ey); [exact Vy | lia | nia].
Qed.

(** Valid positive numbers compare as their aligned mantissas do. *)
Lemma aligned_order (m1 : positive) (e1 : Z) (m2 : positive) (e2 : Z) :
  bounded prec emax m1 e1 = true -> bounded prec emax m2 e2 = true ->
  SFltb (S754_finite false m1 e1) (S754_finite false m2 e2) = false ->
  Zpos m2 * 2 ^ (e2 - Z.min e1 e2) <= Zpos m1 * 2 ^ (e1 - Z.min e1 e2).
Proof.
  intros H1 H2 Hlt.
  destruct (bounded_digits m1 e1 H1) as (Hm1 & He1 & Hn1).
  destruct (bounded_digits m2 e2 H2) as (Hm2 & He2 & Hn2).
  unfold SFltb, SFcompare in Hlt.
  destruct (Z.compare e1 e2) eqn:Hc; try discriminate.
  - apply Z.compare_eq_iff in Hc. subst e2.
    rewrite Z.min_id, Z.sub_diag, Z.pow_0_r.
    rewrite Pos.compare_cont_spec in Hlt. cbn [Pos.switch_Eq] in Hlt.
    destruct (Pos.compare m1 m2) eqn:Hm; try discriminate.
    + apply Pos.compare_eq_iff in Hm. subst. lia.
    + rewrite Pos.compare_gt_iff in Hm. lia.
  - rewrite Z.compare_gt_iff in Hc.
    rewrite Z.min_r, Z.sub_diag, Z.pow_0_r by lia.
    assert (Hnormal : 2 ^ 52 <= Zpos m1) by (apply Hn1; lia).
    assert (Hpow : 2 ^ 1 <= 2 ^ (e1 - e2)) by (apply Z.pow_le_mono_r; lia).
    replace (2 ^ 53) with (2 * 2 ^ 52) in Hm2 by reflexivity.
    change (2 ^ 1) with 2 in Hpow.
    remember (2 ^ 52) as P. remember (2 ^ (e1 - e2)) as Q. nia.
Qed.

(** If [x < y] does not hold for two finite numbers, [x - y] is not
    negative. *)
Lemma SFsub_nonneg (x y : spec_float) :
  valid x = true -> valid y = true ->
  sf_finite x = true -> sf_finite y = true ->
  SFltb x y = false ->
  sf_nonneg (SFsub prec emax x y) = true.
Proof.
  destruct x as [sx|sx| |sx mx ex], y as [sy|sy| |sy my ey];
    try discriminate; intros Vx Vy _ _ Hlt.
  - destruct sx, sy; reflexivity.
  - destruct sy; [reflexivity | discriminate].
  - destruct sx; [discriminate | reflexivity].
  - rewrite SFsub_finite_finite.
    apply binary_normalize_nonneg.
    set (ez := Z.min ex ey).
    assert (Hx : 0 < 2 ^ (ex - ez)) by (apply Z.pow_pos_nonneg; lia).
    assert (Hy : 0 < 2 ^ (ey - ez)) by (apply Z.pow_pos_nonneg; lia).
    destruct sx, sy; cbn [cond_Zopp].
    + assert (Hlt' : SFltb (S754_finite false my ey) (S754_finite false mx ex) = false).
      { unfold SFltb, SFcompare in *. rewrite Z.compare_antisym.
        destruct (Z.compare ex ey); cbn [CompOpp] in *; try discriminate; try reflexivity.
        rewrite Pos.compare_cont_spec in *. cbn [Pos.switch_Eq] in *.
        rewrite Pos.compare_antisym. destruct (Pos.compare mx my); cbn in *;
          try discriminate; reflexivity. }
      pose proof (aligned_order my ey mx ex Vy Vx Hlt') as Hord.
      rewrite Z.min_comm in Hord. fold ez in Hord. lia.
    + discriminate.
    + nia.
    + pose proof (aligned_order mx ex my ey Vx Vy Hlt) as Hord. fold ez in Hord. lia.
Qed.

(** The product of a non-negative number and a positive finite one is not
    negative. *)
Lemma SFmul_nonneg (x : spec_float) (m : positive) (e : Z) :
  sf_nonneg x = true ->
  sf_nonneg (SFmul prec emax x (S754_finite false m e)) = true.
Proof.
  destruct x as [sx|sx| |sx mx ex]; cbn [sf_nonneg SFmul]; try discriminate; intros Hx.
  - reflexivity.
  - destruct sx; [discriminate | reflexivity].
  - destruct sx; [discriminate|]. apply binary_round_aux_nonneg.
Qed.

Lemma bounded_one : bounded prec emax 4503599627370496 (-52) = true.
Proof. reflexivity. Qed.

(** One minus a non-negative number is at most one. *)
Lemma SFsub_one_le (v : spec_float) :
  sf_nonneg v = true ->
  SFleb (SFsub prec emax one_sf v) one_sf = true.
Proof.
  unfold one_sf.
  destruct v as [s|s| |s m e]; cbn [sf_nonneg]; try discriminate; intros Hv.
  - reflexivity.
  - destruct s; [discriminate | reflexivity].
  - destruct s; [discriminate|].
    rewrite SFsub_finite_finite. cbn [cond_Zopp].
    apply binary_normalize_le; [exact bounded_one | lia |].
    set (ez := Z.min (-52) e).
    assert (0 < 2 ^ (e - ez)) by (apply Z.pow_pos_nonneg; lia).
    nia.
Qed.

End Rounding.

(** ** Numbers: from the primitive operations to their specification *)

Section Numbers.

Lemma SFcompare_refl (v : spec_float) :
  v <> S754_nan -> SFcompare v v = Some Eq.
Proof.
  destruct v as [s|s| |s m e]; intros Hv; try congruence; cbn [SFcompare].
  - reflexivity.
  - destruct s; reflexivity.
  - rewrite Z.compare_refl, Pos.compare_cont_refl. destruct s; reflexivity.
Qed.

Lemma is_nan_spec (v : number) :
  is_nan v = match Prim2SF v with S754_nan => true | _ => false end.
Proof.
  unfold is_nan. rewrite FloatAxioms.eqb_spec. unfold SFeqb.
  destruct (Prim2SF v) eqn:Hv; try (rewrite SFcompare_refl by discriminate);
    reflexivity.
Qed.

Lemma is_finite_spec (v : number) : is_finite v = sf_finite (Prim2SF v).
Proof.
  unfold is_finite, is_infinity. rewrite is_nan_spec, FloatAxioms.eqb_spec, FloatAxioms.abs_spec.
  change (Prim2SF infinity) with (S754_infinity false).
  destruct (Prim2SF v) as [s|s| |s m e]; reflexivity.
Qed.

Lemma valid_Prim2SF (v : number) : valid (Prim2SF v) = true.
Proof. apply Prim2SF_valid. Qed.

Lemma finite_not_nan (v : number) : is_finite v = true -> is_nan v = false.
Proof.
  rewrite is_finite_spec, is_nan_spec. destruct (Prim2SF v); try reflexivity; discriminate.
Qed.

(** A number at least zero is not negative (and not [NaN]). *)
Lemma nonneg_spec (v : number) : (0 <=? v) = true -> sf_nonneg (Prim2SF v) = true.
Proof.
  rewrite FloatAxioms.leb_spec. change (Prim2SF 0) with (S754_zero false).
  destruct (Prim2SF v) as [s|s| |s m e]; cbn; try reflexivity; try discriminate;
    destruct s; try reflexivity; discriminate.
Qed.

Lemma nonneg_leb (v : number) :
  sf_nonneg (Prim2SF v) = true -> (0 <=? v) = true.
Proof.
  rewrite FloatAxioms.leb_spec. change (Prim2SF 0) with (S754_zero false).
  destruct (Prim2SF v) as [s|s| |s m e]; cbn; try reflexivity; try discriminate;
    destruct s; try reflexivity; discriminate.
Qed.

(** What a value of [Math.random] looks like: [+0], or a valid positive
    number below 1. *)
Lemma unit_interval_spec (r : number) :
  unit_interval r = true ->
  Prim2SF r = S754_zero false
  \/ exists m e,
       Prim2SF r = S754_finite false m e
       /\ bounded prec emax m e = true
       /\ SFltb (S754_finite false m e) one_sf = true.
Proof.
  unfold unit_interval, is_neg_zero. intros H.
  apply andb_prop in H. destruct H as [H Hsign].
  apply andb_prop in H. destruct H as [Hge Hlt].
  rewrite FloatAxioms.leb_spec in Hge. rewrite FloatAxioms.ltb_spec in Hlt. rewrite FloatAxioms.classify_spec in Hsign.
  change (Prim2SF 0) with (S754_zero false) in Hge.
  change (Prim2SF 1) with one_sf in Hlt.
  pose proof (valid_Prim2SF r) as Hvalid.
  destruct (Prim2SF r) as [s|s| |s m e]; try discriminate.
  - destruct s; [discriminate | left; reflexivity].
  - destruct s; discriminate.
  - destruct s; [discriminate|]. right. exists m, e. repeat split; assumption.
Qed.

Lemma unit_interval_finite (r : number) :
  unit_interval r = true -> is_finite r = true /\ (0 <=? r) = true.
Proof.
  intros H. split.
  - rewrite is_finite_spec.
    destruct (unit_interval_spec r H) as [-> | (m & e & -> & _)]; reflexivity.
  - unfold unit_interval in H. apply andb_prop in H. destruct H as [H _].
    apply andb_prop in H. destruct H as [H _]. exact H.
Qed.

(** The product of a draw of [Math.random] and a finite non-negative
    bound is finite and lies between zero and the bound. *)
Lemma mul_unit_bound (r f : number) :
  unit_interval r = true ->
  is_finite f = true -> (0 <=? f) = true ->
  is_finite (r * f) = true /\ (0 <=? r * f) = true /\ (r * f <=? f) = true.
Proof.
  intros Hr Hfin Hge.
  rewrite is_finite_spec in Hfin. rewrite is_finite_spec. apply nonneg_spec in Hge.
  rewrite !FloatAxioms.leb_spec, FloatAxioms.mul_spec. change (Prim2SF 0) with (S754_zero false).
  pose proof (valid_Prim2SF f) as Hvalid. unfold SF64mul.
  destruct (unit_interval_spec r Hr) as [-> | (mr & er & -> & Hbr & Hltr)];
    destruct (Prim2SF f) as [s|s| |s mf ef]; try discriminate.
  - destruct s; repeat split; reflexivity.
  - destruct s; [discriminate|]. repeat split; reflexivity.
  - destruct s; repeat split; reflexivity.
  - destruct s; [discriminate|].
    destruct (SFmul_unit_bound mr er mf ef Hbr Hltr Hvalid)
      as [-> | (m' & e' & -> & Hle)].
    + repeat split; reflexivity.
    + repeat split; try reflexivity. apply le_mag_SFleb. exact Hle.
Qed.

(** A draw of [Math.random] times [+0] is [+0]. *)
Lemma mul_unit_zero (r : number) : unit_interval r = true -> r * 0 = 0.
Proof.
  intros Hr. apply Prim2SF_inj. rewrite FloatAxioms.mul_spec.
  change (Prim2SF 0) with (S754_zero false).
  destruct (unit_interval_spec r Hr) as [-> | (m & e & -> & _)]; reflexivity.
Qed.

Lemma sub_finite (a b : number) :
  is_finite a = true -> (0 <=? a) = true ->
  is_finite b = true -> (0 <=? b) = true ->
  is_finite (a - b) = true.
Proof.
  intros Ha Pa Hb Pb. rewrite is_finite_spec in Ha, Hb. rewrite is_finite_spec, FloatAxioms.sub_spec.
  apply SFsub_finite; try assumption; try apply valid_Prim2SF;
    apply nonneg_spec; assumption.
Qed.

Lemma ltb_leb (a b : number) : (a <? b) = true -> (a <=? b) = true.
Proof.
  rewrite FloatAxioms.ltb_spec, FloatAxioms.leb_spec. unfold SFltb, SFleb.
  destruct (SFcompare _ _) as [[| |]|]; try discriminate; reflexivity.
Qed.

Lemma leb_refl (a : number) : is_nan a = false -> (a <=? a) = true.
Proof.
  rewrite is_nan_spec, FloatAxioms.leb_spec. unfold SFleb. intros H.
  rewrite SFcompare_refl; [reflexivity|]. intros Hn. rewrite Hn in H. discriminate.
Qed.

(** [Math.max(0, d)] for a number [d]: [+0] unless [d] is positive. *)
Lemma Math_max_zero (d : number) :
  is_nan d = false ->
  (Math_max 0 d = 0 /\ (0 <? d) = false) \/ (Math_max 0 d = d /\ (0 <? d) = true).
Proof.
  intros Hd. unfold Math_max. rewrite Hd.
  change (is_nan 0) with false. cbn [orb fold_left].
  change (Math_max_step neg_infinity 0) with 0.
  unfold Math_max_step. change (is_neg_zero 0) with false.
  rewrite andb_false_r. destruct (0 <? d); [right | left]; split; reflexivity.
Qed.

(** The largest admissible coordinate [Math.max(0, container - button)]
    for finite non-negative sizes: finite and at least zero. *)
Lemma safeMax_finite (a b : number) :
  is_finite a = true -> (0 <=? a) = true ->
  is_finite b = true -> (0 <=? b) = true ->
  is_finite (safeMax a b) = true /\ (0 <=? safeMax a b) = true.
Proof.
  intros Ha Pa Hb Pb. pose proof (sub_finite a b Ha Pa Hb Pb) as Hd.
  unfold safeMax.
  destruct (Math_max_zero (a - b) (finite_not_nan _ Hd)) as [[-> _] | [-> Hpos]].
  - split; reflexivity.
  - split; [exact Hd | apply ltb_leb; exact Hpos].
Qed.

End Numbers.

Section MaxAndProducts.

Lemma SFmul_comm (a b : spec_float) : SFmul prec emax a b = SFmul prec emax b a.
Proof.
  destruct a as [sa|sa| |sa ma ea], b as [sb|sb| |sb mb eb]; cbn [SFmul];
    try reflexivity; try (rewrite xorb_comm; reflexivity).
  rewrite xorb_comm, Pos.mul_comm, Z.add_comm. reflexivity.
Qed.

Lemma mul_comm (a b : number) : a * b = b * a.
Proof.
  apply Prim2SF_inj. rewrite !FloatAxioms.mul_spec. apply SFmul_comm.
Qed.

(** The first round of [Math.max] leaves its first argument. *)
Lemma Math_max_step_first (a : number) :
  is_nan a = false -> Math_max_step neg_infinity a = a.
Proof.
  intros Ha. unfold Math_max_step. change (is_neg_zero neg_infinity) with false.
  rewrite andb_false_r.
  destruct (neg_infinity <? a) eqn:Hlt; [reflexivity|].
  apply Prim2SF_inj. rewrite is_nan_spec in Ha. rewrite FloatAxioms.ltb_spec in Hlt.
  change (Prim2SF neg_infinity) with (S754_infinity true) in *.
  destruct (Prim2SF a) as [s|s| |s m e]; try discriminate.
  destruct s; [reflexivity | discriminate].
Qed.

Lemma neg_zero_le_pos_zero (a b : number) :
  is_neg_zero a = true -> is_pos_zero b = true -> (a <=? b) = true.
Proof.
  unfold is_neg_zero, is_pos_zero. rewrite !FloatAxioms.classify_spec, FloatAxioms.leb_spec.
  destruct (Prim2SF a) as [sa|sa| |sa ma ea], (Prim2SF b) as [sb|sb| |sb mb eb];
    cbn; try reflexivity;
    repeat match goal with
           | s : bool |- _ => destruct s
           | |- context [if ?c then _ else _] => destruct c
           end; cbn; intros; try reflexivity; discriminate.
Qed.

(** [Math.max(a, b)] of two numbers is one of them, at least [a], and at
    most any bound of both. *)
Lemma Math_max_bounds (a b c : number) :
  is_nan a = false -> is_nan b = false ->
  (a <=? c) = true -> (b <=? c) = true ->
  (a <=? Math_max a b) = true /\ (Math_max a b <=? c) = true.
Proof.
  intros Ha Hb Hac Hbc. unfold Math_max. rewrite Ha, Hb. cbn [orb fold_left].
  rewrite (Math_max_step_first a Ha). unfold Math_max_step.
  destruct (is_pos_zero b && is_neg_zero a) eqn:Hzeros.
  - apply andb_prop in Hzeros. destruct Hzeros as [Hpz Hnz].
    split; [apply neg_zero_le_pos_zero; assumption | exact Hbc].
  - destruct (a <? b) eqn:Hlt.
    + split; [apply ltb_leb; exact Hlt | exact Hbc].
    + split; [apply leb_refl; exact Ha | exact Hac].
Qed.

Lemma leb_not_nan (a b : number) : (a <=? b) = true -> is_nan a = false.
Proof.
  rewrite FloatAxioms.leb_spec, is_nan_spec. unfold SFleb.
  destruct (Prim2SF a); try reflexivity. cbn. discriminate.
Qed.

(** For finite [count] and [threshold] with [count < threshold] false,
    the scale before clamping, [1 - (count - threshold) * 0.1], is a
    number that is at most 1. *)
Lemma newScale_le_one (count threshold : number) :
  is_finite count = true -> is_finite threshold = true ->
  (count <? threshold) = false ->
  (1 - (count - threshold) * 0.1 <=? 1) = true.
Proof.
  intros Hc Ht Hlt. rewrite is_finite_spec in Hc, Ht.
  rewrite FloatAxioms.ltb_spec in Hlt.
  rewrite FloatAxioms.leb_spec, FloatAxioms.sub_spec, FloatAxioms.mul_spec,
    FloatAxioms.sub_spec.
  change (Prim2SF 1) with one_sf.
  change (Prim2SF 0.1) with (S754_finite false 7205759403792794 (-56)).
  apply SFsub_one_le. apply SFmul_nonneg.
  apply SFsub_nonneg; try assumption; apply valid_Prim2SF.
Qed.

Lemma positive_not_zero (d : number) : (0 <? d) = true -> (d =? 0) = false.
Proof.
  rewrite FloatAxioms.ltb_spec, FloatAxioms.eqb_spec.
  change (Prim2SF 0) with (S754_zero false).
  destruct (Prim2SF d) as [s|s| |s m e]; cbn; try discriminate; try reflexivity;
    destruct s; try discriminate; reflexivity.
Qed.

(** The largest admissible coordinate compares equal to zero only when it
    is [+0]. *)
Lemma safeMax_zero (a b : number) : (safeMax a b =? 0) = true -> safeMax a b = 0.
Proof.
  unfold safeMax. intros Hz.
  destruct (is_nan (a - b)) eqn:Hnan.
  - unfold Math_max in Hz. rewrite Hnan, orb_true_r in Hz. discriminate.
  - destruct (Math_max_zero (a - b) Hnan) as [[Heq _] | [Heq Hpos]]; [exact Heq|].
    rewrite Heq in Hz. rewrite (positive_not_zero _ Hpos) in Hz. discriminate.
Qed.

End MaxAndProducts.

(** ** Where the "No" button can land *)

Lemma validBounds_spec (e : Element) :
  validBounds e = true ->
  (is_finite (rectWidth e) = true /\ (0 <=? rectWidth e) = true)
  /\ (is_finite (rectHeight e) = true /\ (0 <=? rectHeight e) = true).
Proof.
  unfold validBounds. intros H.
  apply andb_prop in H. destruct H as [H H4].
  apply andb_prop in H. destruct H as [H H3].
  apply andb_prop in H. destruct H as [H1 H2]. auto.
Qed.

(** The position that [calculateEvasionPosition] returns is one of the
    candidates: a draw times the largest admissible coordinate, on each
    axis. *)
Lemma calculateEvasionPosition_candidate (container button : Element)
    (currentPosition : Position) (g : Random) :
  exists i j,
    fst (calculateEvasionPosition container button currentPosition g)
    = {| x := draws g i * safeMax (rectWidth container) (rectWidth button);
         y := draws g j * safeMax (rectHeight container) (rectHeight button) |}.
Proof.
  assert (Hbudget : (0 < maxAttempts)%N) by (unfold maxAttempts; lia).
  destruct (evasionLoop_rounds
              (safeMax (rectWidth container) (rectWidth button))
              (safeMax (rectHeight container) (rectHeight button))
              currentPosition 0%N g Hbudget) as (k & _ & _ & Hres & _).
  eexists _, _. exact Hres.
Qed.

(** C1. For a container and a button whose sizes are finite and not
    negative, any current position (in bounds or not) and draws of
    [Math.random] in [0, 1), [calculateEvasionPosition] returns finite
    coordinates with [0 <= x <= max(0, container width - button width)]
    and [0 <= y <= max(0, container height - button height)]. *)
Theorem evasion_position_in_bounds :
  forall (container button : Element) (currentPosition : Position) (g : Random),
    validBounds container = true ->
    validBounds button = true ->
    randomInUnitInterval g ->
    let p := fst (calculateEvasionPosition container button currentPosition g) in
    (isFinite (x p) = true
     /\ (0 <=? x p) = true
     /\ (x p <=? Math_max 0 (rectWidth container - rectWidth button)) = true)
    /\ (isFinite (y p) = true
        /\ (0 <=? y p) = true
        /\ (y p <=? Math_max 0 (rectHeight container - rectHeight button)) = true).
Proof.
  intros container button currentPosition g Hc Hb Hg p.
  destruct (validBounds_spec _ Hc) as ((Hcw & Pcw) & (Hch & Pch)).
  destruct (validBounds_spec _ Hb) as ((Hbw & Pbw) & (Hbh & Pbh)).
  destruct (calculateEvasionPosition_candidate container button currentPosition g)
    as (i & j & Hp).
  subst p. rewrite Hp. cbn [x y]. unfold isFinite.
  destruct (safeMax_finite _ _ Hcw Pcw Hbw Pbw) as [Hfx Hpx].
  destruct (safeMax_finite _ _ Hch Pch Hbh Pbh) as [Hfy Hpy].
  split; apply mul_unit_bound; auto.
Qed.

Lemma evasion_position_in_bounds_witness :
  let p := fst (calculateEvasionPosition demoContainer demoNoButton
                                         (mkPosition 1000 (-20)) quarters) in
  (isFinite (x p) = true /\ (0 <=? x p) = true /\ (x p <=? 420) = true)
  /\ (isFinite (y p) = true /\ (0 <=? y p) = true /\ (y p <=? 360) = true).
Proof.
  apply (evasion_position_in_bounds demoContainer demoNoButton
                                    (mkPosition 1000 (-20)) quarters).
  - reflexivity.
  - reflexivity.
  - intros n. cbn [draws quarters]. destruct (Nat.ltb n 60); reflexivity.
Defined.

(** C7, as stated, fails: with a container 100x500 and a button 200x200
    the largest admissible x is 0 but the largest admissible y is 300, and
    with draws of one half the position returned is (0, 150), not
    (0, 0). *)
Lemma one_degenerate_axis_is_not_origin :
  let container := box "div" [] 100 500 in
  let button := box "button" [] 200 200 in
  let p := fst (calculateEvasionPosition container button (mkPosition 0 0) halves) in
  (Math_max 0 (rectWidth container - rectWidth button) =? 0) = true
  /\ p = mkPosition 0 150
  /\ p <> mkPosition 0 0.
Proof.
  cbv zeta. split; [reflexivity|]. split; [reflexivity|].
  intros Heq. apply (f_equal (fun q => y q =? 0)) in Heq.
  vm_compute in Heq. discriminate.
Qed.

(** C7, amended.  The two axes are independent: with draws of
    [Math.random] in [0, 1), the x coordinate that
    [calculateEvasionPosition] returns is 0 whenever
    [max(0, container width - button width) == 0], and the y coordinate is
    0 whenever [max(0, container height - button height) == 0]; when both
    are 0, as for a 100x50 container and a 200x200 button, the result is
    (0, 0). *)
Theorem degenerate_axes_give_zero :
  forall (container button : Element) (currentPosition : Position) (g : Random),
    randomInUnitInterval g ->
    let maxX := Math_max 0 (rectWidth container - rectWidth button) in
    let maxY := Math_max 0 (rectHeight container - rectHeight button) in
    let p := fst (calculateEvasionPosition container button currentPosition g) in
    ((maxX =? 0) = true -> x p = 0)
    /\ ((maxY =? 0) = true -> y p = 0)
    /\ ((maxX =? 0) = true -> (maxY =? 0) = true -> p = mkPosition 0 0).
Proof.
  intros container button currentPosition g Hg maxX maxY p.
  destruct (calculateEvasionPosition_candidate container button currentPosition g)
    as (i & j & Hp).
  fold p in Hp. 
  assert (Hx : (maxX =? 0) = true -> x p = 0).
  { intros Hz. apply safeMax_zero in Hz. rewrite Hp. cbn [x].
    rewrite Hz. apply mul_unit_zero. apply Hg. }
  assert (Hy : (maxY =? 0) = true -> y p = 0).
  { intros Hz. apply safeMax_zero in Hz. rewrite Hp. cbn [y].
    rewrite Hz. apply mul_unit_zero. apply Hg. }
  split; [exact Hx|]. split; [exact Hy|].
  intros Hzx Hzy. specialize (Hx Hzx). specialize (Hy Hzy).
  destruct p as [px py]. cbn in Hx, Hy. subst. reflexivity.
Qed.

Lemma degenerate_axes_give_zero_witness :
  fst (calculateEvasionPosition (box "div" [] 100 50) (box "button" [] 200 200)
                                (mkPosition 30 10) quarters)
  = mkPosition 0 0.
Proof.
  assert (Hg : randomInUnitInterval quarters).
  { intros n. cbn [draws quarters]. destruct (Nat.ltb n 60); reflexivity. }
  destruct (degenerate_axes_give_zero (box "div" [] 100 50) (box "button" [] 200 200)
                                      (mkPosition 30 10) quarters Hg)
    as (_ & _ & Hboth).
  apply Hboth; reflexivity.
Defined.

(** ** The shrink scale *)

(** C2, as stated, fails for a minimum scale above 1: below the threshold
    the result is 1, which is not in [[2, 1]]. *)
Lemma shrink_scale_below_large_minimum :
  calculateShrinkScale 0 5 2 = 1
  /\ (2 <=? calculateShrinkScale 0 5 2) = false.
Proof. split; reflexivity. Qed.

(** C2, amended.  [calculateShrinkScale] returns exactly 1 when the
    evasion count is below the threshold and otherwise
    [max(minScale, 1 - 0.1 * (count - threshold))]; for a finite count and
    threshold and a minimum scale that is at most 1 the result lies in
    [[minScale, 1]]; with threshold 5 and minimum scale 0.3 it is 0.8 at 7
    evasions and 0.3 at 20. *)
Theorem shrink_scale_spec :
  forall evasionCount shrinkThreshold minScale : number,
    ((evasionCount <? shrinkThreshold) = true ->
     calculateShrinkScale evasionCount shrinkThreshold minScale = 1)
    /\ ((evasionCount <? shrinkThreshold) = false ->
        calculateShrinkScale evasionCount shrinkThreshold minScale
        = Math_max minScale (1 - 0.1 * (evasionCount - shrinkThreshold)))
    /\ (is_finite evasionCount = true -> is_finite shrinkThreshold = true ->
        (minScale <=? 1) = true ->
        (minScale <=? calculateShrinkScale evasionCount shrinkThreshold minScale) = true
        /\ (calculateShrinkScale evasionCount shrinkThreshold minScale <=? 1) = true)
    /\ calculateShrinkScale 7 5 0.3 = 0.8
    /\ calculateShrinkScale 20 5 0.3 = 0.3.
Proof.
  intros count threshold minScale.
  split; [|split; [|split; [|split; reflexivity]]].
  - intros Hlt. unfold calculateShrinkScale. rewrite Hlt. reflexivity.
  - intros Hge. unfold calculateShrinkScale. rewrite Hge.
    rewrite (mul_comm 0.1). reflexivity.
  - intros Hc Ht Hmin. unfold calculateShrinkScale.
    destruct (count <? threshold) eqn:Hlt.
    + split; [exact Hmin | reflexivity].
    + pose proof (newScale_le_one count threshold Hc Ht Hlt) as Hnew.
      apply Math_max_bounds; try assumption; eapply leb_not_nan; eassumption.
Qed.

Lemma shrink_scale_spec_witness :
  calculateShrinkScale 4 5 0.3 = 1
  /\ calculateShrinkScale 6 5 0.3 = Math_max 0.3 (1 - 0.1 * (6 - 5))
  /\ ((0.3 <=? calculateShrinkScale 11 5 0.3) = true
      /\ (calculateShrinkScale 11 5 0.3 <=? 1) = true).
Proof.
  destruct (shrink_scale_spec 4 5 0.3) as (Hbelow & _).
  destruct (shrink_scale_spec 6 5 0.3) as (_ & Hpast & _).
  destruct (shrink_scale_spec 11 5 0.3) as (_ & _ & Hrange & _).
  split; [apply Hbelow; reflexivity|].
  split; [apply Hpast; reflexivity|].
  apply Hrange; reflexivity.
Defined.

(** ** Counting in binary64 *)

Section Counting.

Local Open Scope Z_scope.

Lemma SFadd_finite_finite (sx : bool) (mx : positive) (ex : Z)
    (sy : bool) (my : positive) (ey : Z) :
  let ez := Z.min ex ey in
  SFadd prec emax (S754_finite sx mx ex) (S754_finite sy my ey)
  = binary_normalize prec emax
      (cond_Zopp sx (Zpos mx * 2 ^ (ex - ez)) + cond_Zopp sy (Zpos my * 2 ^ (ey - ez)))
      ez false.
Proof.
  intros ez. cbn [SFadd]. fold ez.
  destruct (shl_align_spec mx ex ez) as (_ & Hx & _).
  destruct (shl_align_spec my ey ez) as (_ & Hy & _).
  rewrite Hx, Hy. subst ez.
  replace (Z.min ex (Z.min ex ey)) with (Z.min ex ey) by lia.
  replace (Z.min ey (Z.min ex ey)) with (Z.min ex ey) by lia.
  reflexivity.
Qed.

(** The sum of two numbers that are not negative is not negative. *)
Lemma SFadd_nonneg (x y : spec_float) :
  sf_nonneg x = true -> sf_nonneg y = true ->
  sf_nonneg (SFadd prec emax x y) = true.
Proof.
  destruct x as [sx|sx| |sx mx ex], y as [sy|sy| |sy my ey];
    cbn [sf_nonneg]; try discriminate; intros Hx Hy;
    try (destruct sx; try discriminate); try (destruct sy; try discriminate);
    try reflexivity.
  rewrite SFadd_finite_finite. apply binary_normalize_nonneg.
  cbn [cond_Zopp].
  assert (0 < 2 ^ (ex - Z.min ex ey)) by (apply Z.pow_pos_nonneg; lia).
  assert (0 < 2 ^ (ey - Z.min ex ey)) by (apply Z.pow_pos_nonneg; lia).
  nia.
Qed.

Lemma digits_shift (k z : positive) (n : Z) :
  0 <= n -> Zpos z = Zpos k * 2 ^ n ->
  Zpos (digits2_pos z) = Zpos (digits2_pos k) + n.
Proof.
  intros Hn Hz. destruct n as [|p|p]; [| |lia].
  - rewrite Z.pow_0_r, Z.mul_1_r in Hz. injection Hz as ->. lia.
  - destruct (iter_xO_spec k p) as [Hv Hd].
    rewrite <- Hv in Hz. injection Hz as ->. exact Hd.
Qed.

(** Rounding a number that the format holds is exact. *)
Lemma binary_round_aux_exact (sx : bool) (m : positive) (e : Z) :
  let f := fexp prec emax (Zpos (digits2_pos m) + e) in
  e <= f -> f <= 971 -> Zpos m mod 2 ^ (f - e) = 0 ->
  exists m',
    binary_round_aux prec emax sx (Zpos m) e loc_Exact = S754_finite sx m' f
    /\ Zpos m' * 2 ^ (f - e) = Zpos m
    /\ bounded prec emax m' f = true.
Proof.
  intros f Hef Hmax Hmod. unfold binary_round_aux.
  destruct (shr_fexp_exact (Zpos m) e) as (mrs1 & Heq1 & Hm1 & Hexact1); [lia|].
  rewrite Heq1. clear Heq1. cbn [Zdigits2] in *. fold f in Hm1, Hexact1 |- *.
  rewrite Z.max_r in * by lia.
  replace (e + (f - e)) with f by lia.
  rewrite (proj2 (round_nearest_even_bounds (shr_m mrs1) (loc_of_shr_record mrs1))
             (Hexact1 Hmod)).
  set (n := f - e) in *.
  assert (Hpow : 0 < 2 ^ n) by (apply Z.pow_pos_nonneg; lia).
  assert (Hm : Zpos m = shr_m mrs1 * 2 ^ n).
  { rewrite Hm1, Z.mul_comm. apply Z.div_exact; [lia | exact Hmod]. }
  destruct (shr_m mrs1) as [|q|q] eqn:Hq; [lia | | lia].
  pose proof (digits_shift q m n ltac:(lia) Hm) as Hdig.
  destruct (shr_fexp_exact (Zpos q) f) as (mrs2 & Heq2 & Hm2 & _); [lia|].
  cbn [Zdigits2] in *.
  replace (Zpos (digits2_pos q) + f) with (Zpos (digits2_pos m) + e) in * by lia.
  fold f in Heq2, Hm2.
  rewrite Z.sub_diag, Z.max_id, Z.add_0_r in Heq2.
  rewrite Z.sub_diag, Z.max_id, Z.pow_0_r, Z.div_1_r in Hm2.
  rewrite Heq2, Hm2.
  assert (Hfin : (f <=? emax - prec) = true)
    by (apply Z.leb_le; change (emax - prec) with 971; lia).
  rewrite Hfin. exists q. split; [reflexivity|]. split; [lia|].
  unfold bounded, canonical_mantissa. rewrite Hfin, andb_true_r.
  apply Z.eqb_eq. replace (Zpos (digits2_pos q) + f) with (Zpos (digits2_pos m) + e) by lia.
  reflexivity.
Qed.

Lemma binary_round_exact (sx : bool) (mx : positive) (ex : Z) :
  let f := fexp prec emax (Zpos (digits2_pos mx) + ex) in
  f <= 971 -> (ex < f -> Zpos mx mod 2 ^ (f - ex) = 0) ->
  exists m',
    binary_round prec emax sx mx ex = S754_finite sx m' f
    /\ Zpos m' * 2 ^ (f - Z.min ex f) = Zpos mx * 2 ^ (ex - Z.min ex f)
    /\ bounded prec emax m' f = true.
Proof.
  intros f Hmax Hmod. unfold binary_round.
  destruct (shl_align_spec mx ex f) as (Hez & Hmz & Hdig).
  fold f. destruct (shl_align mx ex f) as [mz ez]. cbn [fst snd] in *.
  rewrite <- Hez in Hdig, Hmz |- *.
  assert (Hlow : ez <= ex /\ ez <= f) by lia.
  destruct (binary_round_aux_exact sx mz ez) as (m' & Hr & Hv & Hb).
  - rewrite Hdig. fold f. lia.
  - rewrite Hdig. fold f. exact Hmax.
  - rewrite Hdig. fold f.
    destruct (Z_lt_le_dec ex f) as [Hlt | Hge].
    + replace ez with ex in * by lia.
      rewrite Hmz, Z.sub_diag, Z.pow_0_r, Z.mul_1_r. apply Hmod. exact Hlt.
    + replace (f - ez) with 0 by lia. rewrite Z.pow_0_r. apply Z.mod_1_r.
  - rewrite Hdig in Hr, Hv, Hb. fold f in Hr, Hv, Hb.
    exists m'. split; [exact Hr|]. split; [|exact Hb]. rewrite Hv, Hmz. reflexivity.
Qed.

Lemma digits_integer (k : positive) :
  Zpos k <= 2 ^ 53 ->
  fexp prec emax (Zpos (digits2_pos k)) = Zpos (digits2_pos k) - 53
  /\ Zpos (digits2_pos k) - 53 <= 1
  /\ (Zpos (digits2_pos k) - 53 = 1 -> Zpos k = 2 ^ 53).
Proof.
  intros Hk. pose proof (digits2_pos_bounds k) as [Hlow Hhigh].
  assert (Hd : 0 < Zpos (digits2_pos k)) by lia.
  assert (Hle : Zpos (digits2_pos k) - 1 <= 53).
  { apply (Z.pow_le_mono_r_iff 2); lia. }
  rewrite fexp_spec. split; [lia|]. split; [lia|].
  intros H54. replace (Zpos (digits2_pos k) - 1) with 53 in Hlow by lia. lia.
Qed.

(** An integer up to 2^53, written with any exponent that is not
    positive, is normalized to a number that depends on the integer
    only. *)
Lemma normalize_integer_shape (z k : positive) (e : Z) :
  e <= 0 -> Zpos k <= 2 ^ 53 -> Zpos z = Zpos k * 2 ^ (- e) ->
  let f := Zpos (digits2_pos k) - 53 in
  exists m',
    binary_normalize prec emax (Zpos z) e false = S754_finite false m' f
    /\ bounded prec emax m' f = true
    /\ (f <= 0 -> Zpos m' = Zpos k * 2 ^ (- f))
    /\ (f = 1 -> Zpos m' * 2 = Zpos k).
Proof.
  intros He Hk Hz f.
  destruct (digits_integer k Hk) as (Hf & Hf1 & Hmax). fold f in Hf, Hf1, Hmax.
  pose proof (digits_shift k z (- e) ltac:(lia) Hz) as Hdig.
  assert (Hfz : fexp prec emax (Zpos (digits2_pos z) + e) = f).
  { replace (Zpos (digits2_pos z) + e) with (Zpos (digits2_pos k)) by lia. exact Hf. }
  cbn [binary_normalize].
  assert (Hpe : 0 < 2 ^ (- e)) by (apply Z.pow_pos_nonneg; lia).
  destruct (binary_round_exact false z e) as (m' & Hr & Hv & Hb).
  - rewrite Hfz. lia.
  - rewrite Hfz. intros Hlt.
    destruct (Z_le_gt_dec f 0) as [Hneg | Hpos].
    + rewrite Hz. replace (- e) with ((- f) + (f - e)) by lia.
      rewrite Z.pow_add_r, Z.mul_assoc by lia. apply Z.mod_mul.
      apply Z.pow_nonzero; lia.
    + assert (Hone : f = 1) by lia. rewrite Hz, (Hmax Hone), Hone.
      replace (2 ^ 53) with (2 ^ 52 * 2 ^ 1) by reflexivity.
      rewrite <- Z.mul_assoc, <- Z.pow_add_r by lia.
      replace (1 + - e) with (1 - e) by lia. apply Z.mod_mul.
      apply Z.pow_nonzero; lia.
  - rewrite Hfz in Hr, Hv, Hb. exists m'.
    split; [exact Hr|]. split; [exact Hb|]. split.
    + intros Hneg. destruct (Z_le_gt_dec e f) as [Hef | Hfe].
      * rewrite Z.min_l, Z.sub_diag, Z.pow_0_r, Z.mul_1_r in Hv by lia.
        rewrite Hz in Hv. replace (- e) with ((- f) + (f - e)) in Hv by lia.
        rewrite Z.pow_add_r, Z.mul_assoc in Hv by lia.
        apply Z.mul_reg_r in Hv; [exact Hv|]. apply Z.pow_nonzero; lia.
      * rewrite Z.min_r, Z.sub_diag, Z.pow_0_r, Z.mul_1_r in Hv by lia.
        rewrite Hv, Hz, <- Z.mul_assoc, <- Z.pow_add_r by lia.
        do 2 f_equal. lia.
    + intros Hone.
      rewrite Z.min_l, Z.sub_diag, Z.pow_0_r, Z.mul_1_r in Hv by lia.
      rewrite Hz, Hone in Hv. replace (1 - e) with (1 + - e) in Hv by lia.
      rewrite Z.pow_add_r, Z.mul_assoc in Hv by lia. change (2 ^ 1) with 2 in Hv.
      apply Z.mul_reg_r in Hv; [exact Hv|]. apply Z.pow_nonzero; lia.
Qed.

Lemma normalize_integer (z k : positive) (e : Z) :
  e <= 0 -> Zpos k <= 2 ^ 53 -> Zpos z = Zpos k * 2 ^ (- e) ->
  binary_normalize prec emax (Zpos z) e false
  = binary_normalize prec emax (Zpos k) 0 false.
Proof.
  intros He Hk Hz.
  destruct (normalize_integer_shape z k e He Hk Hz) as (m1 & -> & _ & V1 & W1).
  destruct (normalize_integer_shape k k 0 ltac:(lia) Hk) as (m2 & -> & _ & V2 & W2).
  { rewrite Z.pow_0_r. lia. }
  destruct (digits_integer k Hk) as (_ & Hf1 & _).
  f_equal. destruct (Z_le_gt_dec (Zpos (digits2_pos k) - 53) 0) as [Hneg | Hpos].
  - specialize (V1 Hneg). specialize (V2 Hneg). lia.
  - assert (Hone : Zpos (digits2_pos k) - 53 = 1) by lia.
    specialize (W1 Hone). specialize (W2 Hone). lia.
Qed.

(** The number of an integer up to 2^53, as the specification shows it. *)
Lemma Prim2SF_number_of_N (n : N) :
  Z.of_N n <= 2 ^ 53 ->
  Prim2SF (number_of_N n) = binary_normalize prec emax (Z.of_N n) 0 false.
Proof.
  intros Hn. unfold number_of_N. apply Prim2SF_SF2Prim.
  destruct n as [|k]; [reflexivity|]. cbn [Z.of_N] in *.
  destruct (normalize_integer_shape k k 0 ltac:(lia) Hn) as (m & -> & Hb & _).
  { rewrite Z.pow_0_r. lia. }
  exact Hb.
Qed.

Lemma number_of_N_shape (k : positive) :
  Zpos k < 2 ^ 53 ->
  exists m e,
    Prim2SF (number_of_N (Npos k)) = S754_finite false m e
    /\ bounded prec emax m e = true
    /\ e <= 0
    /\ Zpos m = Zpos k * 2 ^ (- e).
Proof.
  intros Hk. rewrite Prim2SF_number_of_N by (cbn; lia). cbn [Z.of_N].
  destruct (normalize_integer_shape k k 0 ltac:(lia) ltac:(lia)) as (m & -> & Hb & V & _).
  { rewrite Z.pow_0_r. lia. }
  destruct (digits_integer k ltac:(lia)) as (_ & Hf1 & Hmax).
  assert (Hneg : Zpos (digits2_pos k) - 53 <= 0).
  { destruct (Z_le_gt_dec (Zpos (digits2_pos k) - 53) 0) as [|Hpos]; [assumption|].
    assert (Zpos k = 2 ^ 53) by (apply Hmax; lia). lia. }
  exists m, (Zpos (digits2_pos k) - 53).
  split; [reflexivity|]. split; [exact Hb|]. split; [exact Hneg | exact (V Hneg)].
Qed.

Lemma Prim2SF_one : Prim2SF 1%float = one_sf.
Proof. reflexivity. Qed.

(** [++] on a counter below 2^53 is exact. *)
Lemma add_one_exact (n : N) :
  (n < 2 ^ 53)%N -> (number_of_N n + 1)%float = number_of_N (n + 1).
Proof.
  intros Hn. assert (Hz : Z.of_N n < 2 ^ 53) by (change (2 ^ 53) with (Z.of_N (2 ^ 53)); lia).
  apply Prim2SF_inj. rewrite add_spec, Prim2SF_one.
  rewrite (Prim2SF_number_of_N (n + 1)) by lia.
  destruct n as [|k].
  - rewrite Prim2SF_number_of_N by (cbn; lia). reflexivity.
  - cbn [Z.of_N] in Hz.
    destruct (number_of_N_shape k Hz) as (m & e & -> & Hb & He & Hm).
    unfold SF64add, one_sf. rewrite SFadd_finite_finite. cbn [cond_Zopp].
    set (ez := Z.min e (-52)).
    assert (Hpz : 0 < 2 ^ (- ez)) by (apply Z.pow_pos_nonneg; lia).
    assert (Hsum : Zpos m * 2 ^ (e - ez) + 4503599627370496 * 2 ^ (-52 - ez)
                   = (Zpos k + 1) * 2 ^ (- ez)).
    { rewrite Hm, <- Z.mul_assoc, <- Z.pow_add_r by lia.
      replace (- e + (e - ez)) with (- ez) by lia.
      change 4503599627370496 with (2 ^ 52).
      rewrite <- Z.pow_add_r by lia. replace (52 + (-52 - ez)) with (- ez) by lia.
      ring. }
    rewrite Hsum.
    replace (Z.of_N (N.pos k + 1)) with (Zpos (k + 1)) by lia.
    replace ((Zpos k + 1) * 2 ^ (- ez)) with (Zpos (k + 1) * 2 ^ (- ez)) by lia.
    destruct (Zpos (k + 1) * 2 ^ (- ez)) as [|z|z] eqn:Hzv; try lia.
    apply (normalize_integer z (k + 1) ez); [lia | lia | symmetry; exact Hzv].
Qed.

(** [%] on integers below 2^53 is the remainder of the integers. *)
Lemma rem_exact (n len : N) :
  (n < 2 ^ 53)%N -> (0 < len < 2 ^ 53)%N ->
  JS.rem (number_of_N n) (number_of_N len) = number_of_N (n mod len).
Proof.
  intros Hn [Hpos Hlen].
  assert (Hzn : Z.of_N n < 2 ^ 53) by (change (2 ^ 53) with (Z.of_N (2 ^ 53)); lia).
  assert (Hzl : Z.of_N len < 2 ^ 53) by (change (2 ^ 53) with (Z.of_N (2 ^ 53)); lia).
  destruct len as [|l]; [lia|]. cbn [Z.of_N] in Hzl.
  destruct (number_of_N_shape l Hzl) as (mb & eb & Hb & _ & Heb & Hmb).
  unfold JS.rem. rewrite Hb.
  destruct n as [|k].
  - rewrite Prim2SF_number_of_N by (cbn; lia). reflexivity.
  - cbn [Z.of_N] in Hzn.
    destruct (number_of_N_shape k Hzn) as (ma & ea & Ha & _ & Hea & Hma).
    rewrite Ha. cbv zeta.
    set (e := Z.min ea eb).
    assert (Hpe : 0 < 2 ^ (- e)) by (apply Z.pow_pos_nonneg; lia).
    assert (HA : Zpos ma * 2 ^ (ea - e) = Zpos k * 2 ^ (- e)).
    { rewrite Hma, <- Z.mul_assoc, <- Z.pow_add_r by lia. do 2 f_equal. lia. }
    assert (HB : Zpos mb * 2 ^ (eb - e) = Zpos l * 2 ^ (- e)).
    { rewrite Hmb, <- Z.mul_assoc, <- Z.pow_add_r by lia. do 2 f_equal. lia. }
    rewrite HA, HB, Z.mul_mod_distr_r by lia.
    assert (Hmod : Z.of_N (N.pos k mod N.pos l) = Zpos k mod Zpos l)
      by (rewrite N2Z.inj_mod; reflexivity).
    pose proof (Z.mod_pos_bound (Zpos k) (Zpos l) ltac:(lia)) as Hbound.
    destruct (Zpos k mod Zpos l) as [|r|r] eqn:Hr; try lia.
    + cbn [Z.mul Z.eqb].
      replace (N.pos k mod N.pos l)%N with 0%N by lia. reflexivity.
    + assert (Hrz : (Zpos r * 2 ^ (- e) =? 0) = false) by (apply Z.eqb_neq; lia).
      rewrite Hrz. unfold number_of_N. rewrite Hmod. f_equal.
      destruct (Zpos r * 2 ^ (- e)) as [|z|z] eqn:Hzv; try lia.
      apply (normalize_integer z r e); [lia | lia | symmetry; exact Hzv].
Qed.

(** [arr[v]] for an integer below 2^53 is the element at that place. *)
Lemma index_exact {A : Type} (arr : list A) (j : N) :
  (j < 2 ^ 53)%N -> JS.index arr (number_of_N j) = nth_error arr (N.to_nat j).
Proof.
  intros Hj.
  assert (Hz : Z.of_N j < 2 ^ 53) by (change (2 ^ 53) with (Z.of_N (2 ^ 53)); lia).
  assert (Hint : JS.integer_value (number_of_N j) = Some (Z.of_N j)).
  { unfold JS.integer_value. destruct j as [|k].
    - rewrite Prim2SF_number_of_N by (cbn; lia). reflexivity.
    - cbn [Z.of_N] in *.
      destruct (number_of_N_shape k Hz) as (m & e & -> & _ & He & Hm).
      assert (Hpe : 0 < 2 ^ (- e)) by (apply Z.pow_pos_nonneg; lia).
      destruct (0 <=? e) eqn:H0.
      + apply Z.leb_le in H0. assert (e = 0) by lia. subst e.
        f_equal. rewrite Hm. change (2 ^ (- 0)) with 1. change (2 ^ 0) with 1. lia.
      + rewrite Hm, Z.mod_mul, Z.eqb_refl, Z.div_mul by lia. reflexivity. }
  unfold JS.index. rewrite Hint.
  destruct (Z.of_N j <? Z.of_nat (List.length arr)) eqn:Hlt.
  - f_equal. lia.
  - symmetry. apply nth_error_None. apply Z.ltb_ge in Hlt. lia.
Qed.

(** A remainder by zero is [NaN], and [NaN] names no element. *)
Lemma rem_zero (a : number) : JS.rem a (number_of_N 0) = nan.
Proof.
  unfold JS.rem. rewrite (Prim2SF_number_of_N 0) by (cbn; lia).
  cbn [binary_normalize Z.of_N]. destruct (Prim2SF a); reflexivity.
Qed.

Lemma index_nan {A : Type} (arr : list A) : JS.index arr nan = None.
Proof. reflexivity. Qed.

Lemma add_nonneg (a b : number) :
  (0 <=? a)%float = true -> (0 <=? b)%float = true -> (0 <=? a + b)%float = true.
Proof.
  intros Ha Hb. apply nonneg_leb. rewrite add_spec.
  apply SFadd_nonneg; apply nonneg_spec; assumption.
Qed.

Lemma SFleb_not_SFltb (m1 : positive) (e1 : Z) (m2 : positive) (e2 : Z) :
  SFleb (S754_finite false m1 e1) (S754_finite false m2 e2) = true ->
  SFltb (S754_finite false m2 e2) (S754_finite false m1 e1) = false.
Proof.
  unfold SFleb, SFltb, SFcompare.
  rewrite (Z.compare_antisym e1 e2), !Pos.compare_cont_spec.
  rewrite (Pos.compare_antisym m1 m2).
  destruct (e1 ?= e2); cbn; try reflexivity; try discriminate.
  destruct (m1 ?= m2)%positive; cbn; try reflexivity; discriminate.
Qed.

(** One plus a number between 0 and 1 is finite. *)
Lemma one_plus_unit_finite (a : number) :
  is_finite a = true -> (0 <=? a)%float = true -> (a <=? 1)%float = true ->
  is_finite (1 + a) = true.
Proof.
  intros Hfin Hpos Hle. rewrite is_finite_spec in *. rewrite add_spec, Prim2SF_one.
  pose proof (valid_Prim2SF a) as Hv. apply nonneg_spec in Hpos.
  rewrite FloatAxioms.leb_spec, Prim2SF_one in Hle.
  destruct (Prim2SF a) as [s|s| |s m e]; try discriminate.
  - destruct s; reflexivity.
  - destruct s; [discriminate|]. unfold SF64add, one_sf in *.
    rewrite SFadd_finite_finite. cbn [cond_Zopp].
    pose proof (aligned_order 4503599627370496 (-52) m e bounded_one Hv
                  (SFleb_not_SFltb _ _ _ _ Hle)) as Hal.
    set (ez := Z.min (-52) e) in *.
    apply (binary_normalize_finite _ _ 4503599627370496 (-51)); [reflexivity | lia|].
    assert (Hp : 0 < 2 ^ (-52 - ez)) by (apply Z.pow_pos_nonneg; lia).
    assert (Hq : 0 < 2 ^ (e - ez)) by (apply Z.pow_pos_nonneg; lia).
    replace (-51 - ez) with (1 + (-52 - ez)) by lia.
    rewrite Z.pow_add_r by lia. change (2 ^ 1) with 2.
    rewrite Z.abs_eq by lia.
    remember (2 ^ (-52 - ez)) as P. remember (Zpos m * 2 ^ (e - ez)) as Q. lia.
Qed.

End Counting.

(** ** The two counters *)






(** C9, as stated, fails for a cursor that has reached 2^53: with no
    pleading messages the fallback text is shown, but the cursor does not
    advance. *)
Lemma cursor_stalls_with_empty_messages :
  let r := showPleadingMessage demoContainer stalledState silentConfig in
  pleadingMessages silentConfig = []
  /\ JS.integer_value (currentMessageIndex stalledState) = Some (2 ^ 53)%Z
  /\ option_map textContent (nodeAt [0%nat] (fst r)) = Some "Please? 🥺"
  /\ currentMessageIndex (snd r) = currentMessageIndex stalledState.
Proof. repeat split; reflexivity. Qed.

(** C9, amended.  With an empty list of pleading messages the lookup
    [messages[index % 0]] is [undefined]; [showPleadingMessage] still
    returns, the message element shows the fallback text and [++] is
    applied to the cursor, which advances it by one when it is an integer
    below 2^53; so does [evadeNoButton] on a game that is not won. *)
Theorem empty_messages_fall_back :
  forall (container : Element) (state : LoveGameState) (config : LoveGameConfig),
    pleadingMessages config = [] ->
    let r := showPleadingMessage container state config in
    let ref := snd (messageElement container) in
    index (pleadingMessages config)
          (JS.rem (currentMessageIndex state)
                  (number_of_N (N.of_nat (List.length (pleadingMessages config)))))
    = None
    /\ (exists el,
           nodeAt ref (fst r) = Some el
           /\ hasClass el "pleading-message" = true
           /\ textContent el = "Please? 🥺")
    /\ currentMessageIndex (snd r) = currentMessageIndex state + 1
    /\ (forall n : N,
           (n < 2 ^ 53)%N ->
           currentMessageIndex state = number_of_N n ->
           currentMessageIndex (snd r) = number_of_N (n + 1))
    /\ (forall button reducedMotion g,
           hasAnsweredYes state = false ->
           let e := evadeNoButton button container state config reducedMotion g in
           (exists el,
               nodeAt ref (ev_container e) = Some el
               /\ textContent el = "Please? 🥺")
           /\ currentMessageIndex (ev_state e) = currentMessageIndex state + 1).
Proof.
  intros container state config Hempty r ref.
  assert (Hundefined :
            forall i, index (pleadingMessages config)
                        (JS.rem i (number_of_N
                                     (N.of_nat (List.length (pleadingMessages config)))))
                      = None).
  { intros i. rewrite Hempty. cbn [List.length N.of_nat].
    rewrite rem_zero. apply index_nan. }
  split; [apply Hundefined|].
  destruct (showPleadingMessage_shows container state config)
    as ((el & Hel & Hhas & Htext) & Hcursor).
  rewrite Hundefined in Htext.
  split; [exists el; repeat split; assumption|].
  split; [exact Hcursor|].
  split.
  { intros n Hn Hstate. etransitivity; [exact Hcursor|].
    rewrite Hstate. apply add_one_exact. exact Hn. }
  intros button reducedMotion g Hno e.
  subst e. unfold evadeNoButton. rewrite Hno. cbn [ev_container ev_state].
  match goal with
  | |- context [showPleadingMessage container ?s config] =>
      destruct (showPleadingMessage_shows container s config)
        as ((el' & Hel' & _ & Htext') & Hcursor')
  end.
  rewrite Hundefined in Htext'.
  split; [exists el'; split; assumption|exact Hcursor'].
Qed.

Lemma empty_messages_fall_back_witness :
  let r := showPleadingMessage demoContainer createInitialState silentConfig in
  nodeAt [0%nat] (fst r)
  = Some (mkElement "p" ["pleading-message"; "pleading-message--animate"]
                    "Please? 🥺" [] [] [] 0 0)
  /\ currentMessageIndex (snd r) = 1.
Proof.
  destruct (empty_messages_fall_back demoContainer createInitialState silentConfig
                                     eq_refl) as (_ & _ & Hcursor & _).
  split; [reflexivity | exact Hcursor].
Defined.

(** ** Hearts and the celebration panel *)

Section Hearts.

Lemma heartLoop_spec (todo : nat) :
  forall (i : N) (hearts : list Element) (g : Random),
  exists news,
    fst (heartLoop todo i hearts g) = (hearts ++ news)%list
    /\ List.length news = todo
    /\ used (snd (heartLoop todo i hearts g)) = (used g + 3 * todo)%nat
    /\ draws (snd (heartLoop todo i hearts g)) = draws g
    /\ forall k heart,
         nth_error news k = Some heart ->
         heart = heartParticle (i + N.of_nat k)
                               (draws g (used g + 3 * k))
                               (draws g (used g + 3 * k + 1))
                               (draws g (used g + 3 * k + 2)).
Proof.
  induction todo as [|todo IH]; intros i hearts g.
  - exists []. cbn. rewrite app_nil_r. repeat split; try lia.
    intros [|k] heart H; discriminate.
  - cbn [heartLoop].
    match goal with
    | |- context [heartLoop todo ?i' ?hs ?g'] =>
        destruct (IH i' hs g') as (news & Hfst & Hlen & Hused & Hdraws & Hnth)
    end.
    cbn [Math_random fst snd used draws] in *.
    eexists (_ :: news). rewrite Hfst, <- app_assoc. cbn [app].
    split; [reflexivity|]. split; [cbn; lia|]. split; [lia|]. split; [exact Hdraws|].
    intros [|k] heart H; cbn [nth_error] in H.
    + injection H as <-. unfold heartParticle. rewrite N.add_0_r.
      replace (used g + 3 * 0)%nat with (used g) by lia.
      replace (used g + 1)%nat with (S (used g)) by lia.
      replace (used g + 2)%nat with (S (S (used g))) by lia.
      reflexivity.
    + rewrite (Hnth k heart H).
      replace (i + 1 + N.of_nat k)%N with (i + N.of_nat (S k))%N by lia.
      replace (S (S (S (used g))) + 3 * k)%nat with (used g + 3 * S k)%nat by lia.
      reflexivity.
Qed.

Lemma heartEmoji_cycles (i : N) :
  nth_error heartEmojis (N.to_nat (i mod 8))
  = Some (nullish (int_index heartEmojis
                             (int_rem i (N.of_nat (List.length heartEmojis))))
                  "💕").
Proof.
  unfold int_rem, int_index. cbn [heartEmojis List.length N.of_nat N.eqb].
  change (N.of_nat 8) with 8%N. cbn [N.eqb Pos.of_succ_nat Pos.succ].
  assert (Hlt : (N.to_nat (i mod 8) < 8)%nat).
  { pose proof (N.mod_lt i 8 ltac:(discriminate)). lia. }
  destruct (nth_error heartEmojis (N.to_nat (i mod 8))) as [emoji|] eqn:Hnth.
  - reflexivity.
  - apply nth_error_None in Hnth. cbn in Hnth. lia.
Qed.

(** What [createElement] makes of the options that the game passes. *)
Lemma createElement_spec (tag cn text : string) (attrs : list (string * string)) :
  createElement tag (mkOptions cn text attrs)
  = fold_left setAttribute attrs (mkElement tag (tokens cn) text [] [] [] 0 0).
Proof.
  unfold createElement, document_createElement.
  cbn [className opt_textContent opt_attributes].
  destruct (String.eqb_spec cn "") as [-> | _];
    destruct (String.eqb_spec text "") as [-> | _]; reflexivity.
Qed.

(** A declaration added to a style that has none for the property. *)
Lemma assign_declaration_fresh (s : list (string * CssValue)) (k : string)
    (v : CssValue) :
  find (fun p => String.eqb k (fst p)) s = None ->
  assign_declaration s k v = (s ++ [(k, v)])%list.
Proof.
  induction s as [|[k0 v0] s IH]; cbn; intros Hnone; [reflexivity|].
  rewrite String.eqb_sym. destruct (String.eqb k k0); [discriminate|].
  rewrite IH by assumption. reflexivity.
Qed.

(** The style of a heart: the three declarations, as far as their values
    are CSS. *)
Lemma heartParticle_style (i : N) (r1 r2 r3 : number) :
  style (heartParticle i r1 r2 r3)
  = filter (fun d => css_valid (fst d) (snd d))
      [("left", CssPercent (r1 * 100));
       ("animation-delay", CssSeconds (r2 * 0.5));
       ("animation-duration", CssSeconds (1 + r3 * 1))].
Proof.
  unfold heartParticle, setStyles. rewrite createElement_spec.
  cbn [style with_style fold_left setAttribute].
  unfold set_style_property, setProperty. cbn [fst snd filter].
  change (if includes_dash "left" then "left" else camelToKebab "left")
    with "left".
  change (if includes_dash "animationDelay" then "animationDelay"
          else camelToKebab "animationDelay") with "animation-delay".
  change (if includes_dash "animationDuration" then "animationDuration"
          else camelToKebab "animationDuration") with "animation-duration".
  destruct (css_valid "left" (CssPercent (r1 * 100)));
    destruct (css_valid "animation-delay" (CssSeconds (r2 * 0.5)));
    destruct (css_valid "animation-duration" (CssSeconds (1 + r3 * 1)));
    reflexivity.
Qed.

Lemma heartParticle_frame (i : N) (r1 r2 r3 : number) :
  tagName (heartParticle i r1 r2 r3) = "span"
  /\ classList (heartParticle i r1 r2 r3) = ["celebration-heart"]
  /\ attributes (heartParticle i r1 r2 r3) = [("aria-hidden", "true")]
  /\ childNodes (heartParticle i r1 r2 r3) = []
  /\ Some (textContent (heartParticle i r1 r2 r3))
     = nth_error heartEmojis (N.to_nat (i mod 8)).
Proof.
  unfold heartParticle, setStyles. rewrite createElement_spec.
  repeat split. cbn [textContent with_style fold_left setAttribute].
  symmetry. apply heartEmoji_cycles.
Qed.

Lemma heart_particles_length (count : N) (g : Random) :
  List.length (fst (createHeartParticles count g)) = N.to_nat count
  /\ used (snd (createHeartParticles count g)) = (used g + 3 * N.to_nat count)%nat.
Proof.
  unfold createHeartParticles.
  destruct (heartLoop_spec (N.to_nat count) 0%N [] g)
    as (news & Hfst & Hlen & Hused & _).
  cbn [app] in Hfst. rewrite Hfst. split; assumption.
Qed.

End Hearts.

(** [createHeartParticles] for a count that is an integer up to 2^53
    makes that many hearts from three draws each.  Heart number [k] is a
    childless [span] of class [celebration-heart], hidden from assistive
    technology, and shows emoji number [k mod 8]: this is what the
    binary64 remainder and the array lookup of the source give for the
    loop variable, and the fallback emoji is never needed.  Its inline
    style holds the declarations [left], [animation-delay] and
    [animation-duration] computed from its three draws, as far as their
    values are CSS. *)
Theorem heart_particles_made :
  forall (count : N) (g : Random),
    (count <= 2 ^ 53)%N ->
    let r := createHeartParticles count g in
    List.length (fst r) = N.to_nat count
    /\ used (snd r) = (used g + 3 * N.to_nat count)%nat
    /\ draws (snd r) = draws g
    /\ forall k heart,
         nth_error (fst r) k = Some heart ->
         tagName heart = "span"
         /\ classList heart = ["celebration-heart"]
         /\ attributes heart = [("aria-hidden", "true")]
         /\ childNodes heart = []
         /\ nth_error heartEmojis (k mod 8) = Some (textContent heart)
         /\ JS.index heartEmojis
                     (JS.rem (number_of_N (N.of_nat k))
                             (number_of_N (N.of_nat (List.length heartEmojis))))
            = Some (textContent heart)
         /\ style heart
            = filter (fun d => css_valid (fst d) (snd d))
                [("left", CssPercent (draws g (used g + 3 * k) * 100));
                 ("animation-delay",
                  CssSeconds (draws g (used g + 3 * k + 1) * 0.5));
                 ("animation-duration",
                  CssSeconds (1 + draws g (used g + 3 * k + 2) * 1))].
Proof.
  intros count g Hcount r. subst r. unfold createHeartParticles.
  destruct (heartLoop_spec (N.to_nat count) 0%N [] g)
    as (news & Hfst & Hlen & Hused & Hdraws & Hnth).
  cbn [app] in Hfst. rewrite Hfst.
  split; [exact Hlen|]. split; [exact Hused|]. split; [exact Hdraws|].
  intros k heart Hk.
  assert (Hbelow : (N.of_nat k < 2 ^ 53)%N).
  { apply N.lt_le_trans with count; [|exact Hcount].
    assert (Hlt : (k < List.length news)%nat)
      by (apply nth_error_Some; rewrite Hk; discriminate).
    rewrite Hlen in Hlt. lia. }
  rewrite (Hnth k heart Hk), N.add_0_l.
  destruct (heartParticle_frame (N.of_nat k)
              (draws g (used g + 3 * k)) (draws g (used g + 3 * k + 1))
              (draws g (used g + 3 * k + 2))) as (Htag & Hcls & Hattr & Hch & Htext).
  split; [exact Htag|]. split; [exact Hcls|]. split; [exact Hattr|].
  split; [exact Hch|]. split; [|split; [|apply heartParticle_style]].
  - rewrite Htext. f_equal.
    change 8%N with (N.of_nat 8). rewrite <- Nat2N.inj_mod, Nat2N.id. reflexivity.
  - rewrite Htext. cbn [heartEmojis List.length]. change (N.of_nat 8) with 8%N.
    rewrite rem_exact by (try split; try exact Hbelow; reflexivity).
    apply index_exact.
    apply N.lt_trans with 8%N; [apply N.mod_lt; discriminate | reflexivity].
Qed.

Lemma heart_particles_made_witness :
  List.length (fst (createHeartParticles 3 quarters)) = 3%nat
  /\ used (snd (createHeartParticles 3 quarters)) = 9%nat
  /\ option_map textContent (nth_error (fst (createHeartParticles 3 quarters)) 2)
     = Some "💗".
Proof.
  assert (Hcount : (3 <= 2 ^ 53)%N) by (vm_compute; discriminate).
  destruct (heart_particles_made 3 quarters Hcount) as (Hlen & Hused & _).
  split; [exact Hlen|]. split; [exact Hused | reflexivity].
Defined.

(** Under the contract of [Math.random], the style of every heart holds
    the three declarations: it is placed between 0% and 100% of the
    width, starts after a delay between 0 and 0.5 seconds, and its
    duration is a finite time that is not negative. *)
Theorem heart_positions_in_range :
  forall (count : N) (g : Random),
    (count <= 2 ^ 53)%N ->
    randomInUnitInterval g ->
    forall heart,
      In heart (fst (createHeartParticles count g)) ->
      exists left delay duration,
        style heart = [("left", CssPercent left);
                       ("animation-delay", CssSeconds delay);
                       ("animation-duration", CssSeconds duration)]
        /\ (isFinite left = true /\ (0 <=? left) = true /\ (left <=? 100) = true)
        /\ (isFinite delay = true /\ (0 <=? delay) = true /\ (delay <=? 0.5) = true)
        /\ (isFinite duration = true /\ (0 <=? duration) = true).
Proof.
  intros count g _ Hg heart Hin.
  apply In_nth_error in Hin. destruct Hin as [k Hk].
  unfold createHeartParticles in Hk.
  destruct (heartLoop_spec (N.to_nat count) 0%N [] g)
    as (news & Hfst & _ & _ & _ & Hnth).
  cbn [app] in Hfst. rewrite Hfst in Hk. rewrite (Hnth k heart Hk).
  rewrite heartParticle_style.
  set (r1 := draws g (used g + 3 * k)).
  set (r2 := draws g (used g + 3 * k + 1)).
  set (r3 := draws g (used g + 3 * k + 2)).
  destruct (mul_unit_bound r1 100 (Hg _) eq_refl eq_refl) as (F1 & P1 & L1).
  destruct (mul_unit_bound r2 0.5 (Hg _) eq_refl eq_refl) as (F2 & P2 & L2).
  destruct (mul_unit_bound r3 1 (Hg _) eq_refl eq_refl) as (F3 & P3 & L3).
  pose proof (one_plus_unit_finite (r3 * 1) F3 P3 L3) as F4.
  pose proof (add_nonneg 1 (r3 * 1) eq_refl P3) as P4.
  exists (r1 * 100), (r2 * 0.5), (1 + r3 * 1).
  split.
  - cbn [filter fst snd css_valid]. unfold isFinite.
    rewrite F1, F2, F4, P4. reflexivity.
  - unfold isFinite. repeat split; assumption.
Qed.

Lemma heart_positions_in_range_witness :
  Forall
    (fun heart =>
       exists left delay duration,
         style heart = [("left", CssPercent left);
                        ("animation-delay", CssSeconds delay);
                        ("animation-duration", CssSeconds duration)]
         /\ (isFinite left = true /\ (0 <=? left) = true /\ (left <=? 100) = true)
         /\ (isFinite delay = true /\ (0 <=? delay) = true /\ (delay <=? 0.5) = true)
         /\ (isFinite duration = true /\ (0 <=? duration) = true))
    (fst (createHeartParticles 20 quarters)).
Proof.
  apply Forall_forall.
  apply (heart_positions_in_range 20 quarters).
  - vm_compute. discriminate.
  - intros n. cbn [draws quarters]. destruct (Nat.ltb n 60); reflexivity.
Defined.

Section Classes.

Lemma childNodes_fold_appendChild (l : list Element) :
  forall c,
    childNodes (fold_left appendChild l c) = (childNodes c ++ l)%list
    /\ classList (fold_left appendChild l c) = classList c
    /\ textContent (fold_left appendChild l c) = textContent c.
Proof.
  induction l as [|h l IH]; intros c; cbn [fold_left].
  - rewrite app_nil_r. auto.
  - destruct (IH (appendChild c h)) as (Hch & Hcl & Htx).
    rewrite Hch, Hcl, Htx. cbn. rewrite <- app_assoc. auto.
Qed.

End Classes.

(** What [triggerCelebration] renders, whatever the container held
    before: the container is shown ([celebration--active], not [hidden])
    and holds the hearts followed by the message panel and nothing else.
    Without the reduced-motion preference there are 20 hearts and 60
    random draws; with it there is only the panel and no draw at all.  The
    panel holds the title and the subtitle of the configuration. *)
Theorem celebration_rendered :
  forall site celebrationContainer state config reducedMotion g,
    let r := triggerCelebration site celebrationContainer state config
                                reducedMotion g in
    hasClass (ce_container r) "celebration--active" = true
    /\ hasClass (ce_container r) "hidden" = false
    /\ childNodes (ce_container r)
       = ((if reducedMotion then [] else fst (createHeartParticles 20 g))
            ++ [createCelebrationMessage site (Some config)])%list
    /\ List.length (childNodes (ce_container r))
       = (if reducedMotion then 1%nat else 21%nat)
    /\ used (ce_random r) = (if reducedMotion then used g else (used g + 60)%nat)
    /\ map textContent (childNodes (createCelebrationMessage site (Some config)))
       = [celebrationTitle config; celebrationSubtitle config]
    /\ map classList (childNodes (createCelebrationMessage site (Some config)))
       = [["celebration-title"]; ["celebration-subtitle"]].
Proof.
  intros site cel state config reducedMotion g r. subst r.
  unfold triggerCelebration. cbn [ce_container ce_random].
  set (c2 := addClass (removeClass (clear_innerHTML cel) ["hidden"]) ["celebration--active"]).
  set (hearts := if negb reducedMotion then createHeartParticles 20 g else ([], g)).
  destruct (childNodes_fold_appendChild (fst hearts) c2) as (Hch & Hcl & _).
  assert (Hc2 : childNodes c2 = []).
  { subst c2. rewrite (proj1 (addClass_frame _ _)). reflexivity. }
  assert (Hhearts : fst hearts
                    = if reducedMotion then [] else fst (createHeartParticles 20 g)).
  { subst hearts. destruct reducedMotion; reflexivity. }
  split; [|split; [|split; [|split; [|split; [|split]]]]].
  - unfold hasClass. cbn [classList appendChild with_childNodes]. rewrite Hcl.
    apply hasClass_addClass.
  - unfold hasClass. cbn [classList appendChild with_childNodes]. rewrite Hcl.
    fold (hasClass c2 "hidden"). subst c2.
    rewrite hasClass_addClass_other by discriminate. apply hasClass_removeClass.
  - cbn [childNodes appendChild with_childNodes]. rewrite Hch, Hc2, Hhearts. reflexivity.
  - cbn [childNodes appendChild with_childNodes]. rewrite Hch, Hc2, Hhearts.
    rewrite length_app. cbn [List.length app].
    destruct reducedMotion; [reflexivity|].
    destruct (heart_particles_length 20 g) as [Hlen _]. rewrite Hlen. reflexivity.
  - subst hearts. destruct reducedMotion; cbn [negb snd]; [reflexivity|].
    destruct (heart_particles_length 20 g) as [_ Hused]. rewrite Hused. reflexivity.
  - unfold createCelebrationMessage. rewrite !createElement_spec. reflexivity.
  - unfold createCelebrationMessage. rewrite !createElement_spec. reflexivity.
Qed.

(** ** The state record along the life of a game *)

Section StateInvariant.

Lemma evadeNoButton_state (button container : Element) (st : LoveGameState)
    (config : LoveGameConfig) (reducedMotion : bool) (g : Random) :
  hasAnsweredYes st = false ->
  ev_state (evadeNoButton button container st config reducedMotion g)
  = mkState (fst (calculateEvasionPosition container button (noButtonPosition st) g))
            false
            (evasionCount st + 1)
            (calculateShrinkScale (evasionCount st + 1)
                                  (shrinkThreshold config) (minButtonScale config))
            (currentMessageIndex st + 1).
Proof.
  destruct st as [pos yes count scale cursor]. cbn [hasAnsweredYes]. intros ->.
  reflexivity.
Qed.

Lemma evadeAt_invariant (g : Game) (p : Page) (button container : string) :
  stateInvariant g -> stateInvariant (fst (evadeAt g p button container)).
Proof.
  intros Hinv. unfold evadeAt.
  destruct (lookup (document p) button) as [b|]; [|exact Hinv].
  destruct (lookup (document p) container) as [c|]; [|exact Hinv].
  cbn [fst]. unfold stateInvariant in *.
  destruct g as [site0 cfg st c0 y0 n0 cel0 cl0 i0]. cbn [state config with_state] in *.
  destruct (hasAnsweredYes st) eqn:Hyes.
  - rewrite evadeNoButton_answered by exact Hyes. exact Hinv.
  - rewrite evadeNoButton_state by exact Hyes.
    cbn [evasionCount currentMessageIndex noButtonScale].
    destruct Hinv as (Heq & Hpos & _).
    split; [rewrite Heq; reflexivity|].
    split; [apply add_nonneg; [exact Hpos | reflexivity] | right; reflexivity].
Qed.

Lemma celebrateAt_invariant (g : Game) (p : Page) (cel : string) :
  stateInvariant g -> stateInvariant (fst (celebrateAt g p cel)).
Proof.
  intros Hinv. unfold celebrateAt.
  destruct (lookup (document p) cel) as [e|]; [|exact Hinv].
  destruct g; exact Hinv.
Qed.

Lemma handleYesClick_invariant (g : Game) (p : Page) (cel : string) :
  stateInvariant g -> stateInvariant (fst (handleYesClick g p cel)).
Proof.
  intros Hinv. unfold handleYesClick.
  destruct (negb (hasAnsweredYes (state g))); [|exact Hinv].
  cbn [fst]. apply celebrateAt_invariant. exact Hinv.
Qed.

Lemma runListener_invariant (key : string) (w : Game * Page) (l : Listener) :
  stateInvariant (fst w) -> stateInvariant (fst (runListener key w l)).
Proof.
  intros Hinv. destruct l; cbn [runListener].
  - apply evadeAt_invariant. exact Hinv.
  - apply evadeAt_invariant. exact Hinv.
  - apply handleYesClick_invariant. exact Hinv.
  - destruct (_ || _); [apply handleYesClick_invariant|]; exact Hinv.
Qed.

Lemma step_invariant (w : Game * Page) (a : Action) :
  stateInvariant (fst w) -> stateInvariant (fst (step w a)).
Proof.
  intros Hinv. destruct a; cbn [step fst].
  - unfold init. destruct (isInitialized (fst w)); [exact Hinv|].
    destruct (querySelector _ _), (querySelector _ _), (querySelector _ _),
      (querySelector _ _); exact Hinv.
  - unfold triggerCelebrationManual.
    destruct (celebrationContainer (fst w)); [|exact Hinv].
    destruct (negb _); [|exact Hinv]. cbn [fst]. apply celebrateAt_invariant. exact Hinv.
  - unfold evadeNoButtonManual.
    destruct (noButton (fst w)); [|exact Hinv].
    destruct (container (fst w)); [|exact Hinv].
    destruct (negb _); [|exact Hinv]. apply evadeAt_invariant. exact Hinv.
  - split; [reflexivity | split; [reflexivity | left; split; reflexivity]].
  - unfold dispatchEvent.
    generalize (map snd (filter (same_registration target type) (listeners (snd w)))).
    intros ls. revert w Hinv. induction ls as [|l ls IH]; intros w Hinv; cbn [fold_left].
    + exact Hinv.
    + apply IH. apply runListener_invariant. exact Hinv.
  - exact Hinv.
  - exact Hinv.
Qed.

Lemma reachable_invariant (w : Game * Page) : reachable w -> stateInvariant (fst w).
Proof.
  intros (site0 & custom & page & actions & ->). unfold run.
  assert (Hinit : stateInvariant (fst (createLoveGame site0 custom, page))).
  { split; [reflexivity | split; [reflexivity | left; split; reflexivity]]. }
  revert Hinit. generalize (createLoveGame site0 custom, page).
  induction actions as [|a actions IH]; intros w Hinv; cbn [fold_left].
  - exact Hinv.
  - apply IH. apply step_invariant. exact Hinv.
Qed.

End StateInvariant.

(** In every world that a game can reach (through the methods of its
    handle, events on its buttons, several rounds of [init] and
    [destroy]) the evasion count and the message cursor are equal. *)
Theorem counters_agree_when_reachable :
  forall w : Game * Page,
    reachable w ->
    evasionCount (state (fst w)) = currentMessageIndex (state (fst w)).
Proof.
  intros w Hreach. destruct (reachable_invariant w Hreach) as (Heq & _). exact Heq.
Qed.

Lemma counters_agree_when_reachable_witness :
  evasionCount (state (fst demoWorld)) = currentMessageIndex (state (fst demoWorld)).
Proof.
  apply (counters_agree_when_reachable demoWorld).
  exists demoSite, noCustomConfig, (demoPage halves), demoActions.
  reflexivity.
Defined.

(** ** The scale of the "No" button *)

Section ScaleRange.

Lemma SFldexp_nonneg (v : spec_float) (e : Z) :
  sf_nonneg v = true -> sf_nonneg (SFldexp prec emax v e) = true.
Proof.
  destruct v as [s|s| |s m ex]; cbn [SFldexp]; try (intros H; exact H).
  cbn [sf_nonneg]. destruct s; [discriminate|]. intros _. apply binary_round_nonneg.
Qed.

(** The number that stands for a counter is never [NaN] and never
    negative. *)
Lemma number_of_N_nonneg (n : N) : sf_nonneg (Prim2SF (number_of_N n)) = true.
Proof.
  unfold number_of_N.
  pose proof (binary_normalize_nonneg (Z.of_N n) 0 (N2Z.is_nonneg n)) as Hshape.
  destruct (binary_normalize prec emax (Z.of_N n) 0 false) as [s|s| |s m e];
    cbn [sf_nonneg] in Hshape; try discriminate.
  - destruct s; reflexivity.
  - destruct s; [discriminate | reflexivity].
  - destruct s; [discriminate|]. cbn [SF2Prim negb].
    rewrite Z_ldexp_spec, of_uint63_spec. apply SFldexp_nonneg.
    apply binary_normalize_nonneg. apply Uint63.to_Z_bounded.
Qed.

Lemma nonneg_not_nan (v : number) :
  sf_nonneg (Prim2SF v) = true -> is_nan v = false.
Proof.
  rewrite is_nan_spec. destruct (Prim2SF v); try reflexivity. discriminate.
Qed.

(** If [x < y] does not hold for a number [x] and a finite [y], [x - y]
    is not negative. *)
Lemma SFsub_nonneg_left (v y : spec_float) :
  valid v = true -> valid y = true ->
  v <> S754_nan -> sf_finite y = true ->
  SFltb v y = false ->
  sf_nonneg (SFsub prec emax v y) = true.
Proof.
  intros Vv Vy Hv Hy Hlt.
  destruct v as [s|s| |s m e] eqn:Ev; try congruence.
  - apply SFsub_nonneg; auto.
  - destruct y as [sy|sy| |sy my ey]; try discriminate;
      destruct s; try discriminate; reflexivity.
  - apply SFsub_nonneg; auto.
Qed.

Lemma newScale_le_one_counter (count threshold : number) :
  is_nan count = false -> is_finite threshold = true ->
  (count <? threshold) = false ->
  (1 - (count - threshold) * 0.1 <=? 1) = true.
Proof.
  intros Hc Ht Hlt. rewrite is_nan_spec in Hc. rewrite is_finite_spec in Ht.
  rewrite FloatAxioms.ltb_spec in Hlt.
  rewrite FloatAxioms.leb_spec, FloatAxioms.sub_spec, FloatAxioms.mul_spec,
    FloatAxioms.sub_spec.
  change (Prim2SF 1) with one_sf.
  change (Prim2SF 0.1) with (S754_finite false 7205759403792794 (-56)).
  apply SFsub_one_le. apply SFmul_nonneg.
  apply SFsub_nonneg_left; try assumption; try apply valid_Prim2SF.
  intros Hn. rewrite Hn in Hc. discriminate.
Qed.

(** The scale computed for a counter lies between the minimum scale and
    1 when the threshold is finite and the minimum scale is at most 1. *)
Lemma shrink_scale_range_counter (count threshold minScale : number) :
  (0 <=? count) = true ->
  is_finite threshold = true -> (minScale <=? 1) = true ->
  (minScale <=? calculateShrinkScale count threshold minScale) = true
  /\ (calculateShrinkScale count threshold minScale <=? 1) = true.
Proof.
  intros Hcount Ht Hmin. unfold calculateShrinkScale.
  destruct (count <? threshold) eqn:Hlt.
  - split; [exact Hmin | reflexivity].
  - pose proof (newScale_le_one_counter count threshold
                  (nonneg_not_nan _ (nonneg_spec _ Hcount)) Ht Hlt) as Hnew.
    apply Math_max_bounds; try assumption; eapply leb_not_nan; eassumption.
Qed.

End ScaleRange.

(** In every world that a game can reach, the scale of the "No" button is
    exactly 1 while the evasion count is below the threshold, and it lies
    between the minimum scale and 1 whenever the configured threshold is
    finite and the configured minimum scale is at most 1. *)
Theorem scale_valid_when_reachable :
  forall w : Game * Page,
    reachable w ->
    let st := state (fst w) in
    let cfg := config (fst w) in
    ((evasionCount st <? shrinkThreshold cfg) = true ->
     noButtonScale st = 1)
    /\ (is_finite (shrinkThreshold cfg) = true ->
        (minButtonScale cfg <=? 1) = true ->
        (minButtonScale cfg <=? noButtonScale st) = true
        /\ (noButtonScale st <=? 1) = true).
Proof.
  intros w Hreach st cfg. subst st cfg.
  destruct (reachable_invariant w Hreach) as (_ & Hpos & [[Hzero Hone] | Hscale]).
  - split; [intros _; exact Hone|].
    intros _ Hmin. rewrite Hone. split; [exact Hmin | reflexivity].
  - split.
    + intros Hlt. rewrite Hscale. unfold calculateShrinkScale. rewrite Hlt. reflexivity.
    + intros Ht Hmin. rewrite Hscale. apply shrink_scale_range_counter; assumption.
Qed.

Lemma scale_valid_when_reachable_witness :
  evasionCount (state (fst eightEvasions)) = 8
  /\ (0.3 <=? noButtonScale (state (fst eightEvasions))) = true
  /\ (noButtonScale (state (fst eightEvasions)) <=? 1) = true.
Proof.
  split; [reflexivity|].
  assert (Hreach : reachable eightEvasions).
  { eexists demoSite, noCustomConfig, (demoPage halves), _. reflexivity. }
  destruct (scale_valid_when_reachable eightEvasions Hreach) as [_ Hrange].
  apply Hrange; reflexivity.
Defined.

(** ** What an evasion does to the state and to the button *)

(** An evasion on a game that is not won, with sizes that are finite and
    not negative and draws of [Math.random] in [0, 1), stores a position
    of the "No" button that is finite and within
    [0, max(0, container width - button width)] by
    [0, max(0, container height - button height)], wherever the button was
    before. *)
Theorem evasion_moves_within_bounds :
  forall (button container : Element) (state : LoveGameState)
         (config : LoveGameConfig) (reducedMotion : bool) (g : Random),
    hasAnsweredYes state = false ->
    validBounds container = true ->
    validBounds button = true ->
    randomInUnitInterval g ->
    let p := noButtonPosition
               (ev_state (evadeNoButton button container state config
                                        reducedMotion g)) in
    (isFinite (x p) = true
     /\ (0 <=? x p) = true
     /\ (x p <=? Math_max 0 (rectWidth container - rectWidth button)) = true)
    /\ (isFinite (y p) = true
        /\ (0 <=? y p) = true
        /\ (y p <=? Math_max 0 (rectHeight container - rectHeight button)) = true).
Proof.
  intros button container state config reducedMotion g Hno Hc Hb Hg p.
  subst p. rewrite evadeNoButton_state by exact Hno. cbn [noButtonPosition].
  destruct (validBounds_spec _ Hc) as ((Hcw & Pcw) & (Hch & Pch)).
  destruct (validBounds_spec _ Hb) as ((Hbw & Pbw) & (Hbh & Pbh)).
  destruct (calculateEvasionPosition_candidate container button
              (noButtonPosition state) g) as (i & j & Hp).
  rewrite Hp. cbn [x y]. unfold isFinite.
  destruct (safeMax_finite _ _ Hcw Pcw Hbw Pbw) as [Hfx Hpx].
  destruct (safeMax_finite _ _ Hch Pch Hbh Pbh) as [Hfy Hpy].
  split; apply mul_unit_bound; auto.
Qed.

Lemma evasion_moves_within_bounds_witness :
  let p := noButtonPosition
             (ev_state (evadeNoButton demoNoButton demoContainer createInitialState
                                      demoConfig false quarters)) in
  (isFinite (x p) = true /\ (0 <=? x p) = true /\ (x p <=? 420) = true)
  /\ (isFinite (y p) = true /\ (0 <=? y p) = true /\ (y p <=? 360) = true).
Proof.
  apply (evasion_moves_within_bounds demoNoButton demoContainer createInitialState
                                     demoConfig false quarters).
  - reflexivity.
  - reflexivity.
  - reflexivity.
  - intros n. cbn [draws quarters]. destruct (Nat.ltb n 60); reflexivity.
Defined.

Section Styles.

Lemma find_filter_other (k k' : string) (l : list (string * CssValue)) :
  k <> k' ->
  find (fun p => String.eqb k (fst p))
       (filter (fun p => negb (String.eqb k' (fst p))) l)
  = find (fun p => String.eqb k (fst p)) l.
Proof.
  intros Hne. induction l as [|[a v] l IH]; cbn [filter find fst]; [reflexivity|].
  destruct (String.eqb k' a) eqn:Hk'; cbn [negb].
  - apply String.eqb_eq in Hk'. subst a.
    destruct (String.eqb k k') eqn:Hk; [|exact IH].
    apply String.eqb_eq in Hk. congruence.
  - cbn [find fst]. destruct (String.eqb k a); [reflexivity | exact IH].
Qed.

Lemma find_filter_same (k : string) (l : list (string * CssValue)) :
  find (fun p => String.eqb k (fst p))
       (filter (fun p => negb (String.eqb k (fst p))) l) = None.
Proof.
  induction l as [|[a v] l IH]; cbn [filter find fst]; [reflexivity|].
  destruct (String.eqb k a) eqn:Hk; cbn [negb]; [exact IH|].
  cbn [find fst]. rewrite Hk. exact IH.
Qed.

Lemma find_app_none {A : Type} (f : A -> bool) (l1 l2 : list A) :
  find f l1 = None -> find f (l1 ++ l2) = find f l2.
Proof.
  induction l1 as [|a l1 IH]; cbn [find app]; [reflexivity|].
  destruct (f a); [discriminate | exact IH].
Qed.

Lemma find_app_some {A : Type} (f : A -> bool) (l1 l2 : list A) (a : A) :
  find f l1 = Some a -> find f (l1 ++ l2) = Some a.
Proof.
  induction l1 as [|b l1 IH]; cbn [find app]; [discriminate|].
  destruct (f b); [auto | exact IH].
Qed.

Lemma find_assign_same (s : list (string * CssValue)) (k : string) (v : CssValue) :
  find (fun p => String.eqb k (fst p)) (assign_declaration s k v) = Some (k, v).
Proof.
  induction s as [|[k0 v0] s IH]; cbn [assign_declaration find fst].
  - rewrite String.eqb_refl. reflexivity.
  - destruct (String.eqb_spec k0 k) as [-> | Hne]; cbn [find fst].
    + rewrite String.eqb_refl. reflexivity.
    + destruct (String.eqb_spec k k0) as [-> | _]; [congruence | exact IH].
Qed.

Lemma find_assign_other (s : list (string * CssValue)) (k k' : string)
    (v : CssValue) :
  k <> k' ->
  find (fun p => String.eqb k (fst p)) (assign_declaration s k' v)
  = find (fun p => String.eqb k (fst p)) s.
Proof.
  intros Hne. induction s as [|[k0 v0] s IH]; cbn [assign_declaration find fst].
  - destruct (String.eqb_spec k k') as [-> | _]; [congruence | reflexivity].
  - destruct (String.eqb_spec k0 k') as [-> | Hne0]; cbn [find fst].
    + destruct (String.eqb_spec k k') as [-> | _]; [congruence | reflexivity].
    + destruct (String.eqb k k0); [reflexivity | exact IH].
Qed.

(** Reading a property back after [setProperty] with a value other than
    the empty string: the value if it is CSS, else what was there. *)
Lemma setProperty_same (s : list (string * CssValue)) (k : string) (v : CssValue) :
  v <> CssText "" ->
  find (fun p => String.eqb k (fst p)) (setProperty s (k, v))
  = if css_valid k v then Some (k, v)
    else find (fun p => String.eqb k (fst p)) s.
Proof.
  intros Hv. unfold setProperty. cbn [fst snd].
  assert (Hset : find (fun p => String.eqb k (fst p))
                      (if css_valid k v then assign_declaration s k v else s)
                 = if css_valid k v then Some (k, v)
                   else find (fun p => String.eqb k (fst p)) s).
  { destruct (css_valid k v); [apply find_assign_same | reflexivity]. }
  destruct v as [[|c t]| | | |]; try exact Hset. congruence.
Qed.

Lemma setProperty_other (s : list (string * CssValue)) (k k' : string)
    (v : CssValue) :
  k <> k' ->
  find (fun p => String.eqb k (fst p)) (setProperty s (k', v))
  = find (fun p => String.eqb k (fst p)) s.
Proof.
  intros Hne. unfold setProperty. cbn [fst snd].
  assert (Hkeep : find (fun p => String.eqb k (fst p))
                       (if css_valid k' v then assign_declaration s k' v else s)
                  = find (fun p => String.eqb k (fst p)) s).
  { destruct (css_valid k' v); [apply find_assign_other; exact Hne | reflexivity]. }
  destruct v as [[|c t]| | | |]; try exact Hkeep.
  apply find_filter_other. exact Hne.
Qed.

Lemma setProperty_removed (s : list (string * CssValue)) (k : string) :
  find (fun p => String.eqb k (fst p)) (setProperty s (k, CssText "")) = None.
Proof. unfold setProperty. cbn [fst snd]. apply find_filter_same. Qed.

(** A property name without capitals goes to [setProperty] as it is. *)
Lemma set_style_property_plain (s : list (string * CssValue)) (k : string)
    (v : CssValue) :
  camelToKebab k = k -> set_style_property s (k, v) = setProperty s (k, v).
Proof.
  intros Hk. unfold set_style_property. cbn [fst snd].
  rewrite Hk. destruct (includes_dash k); reflexivity.
Qed.

End Styles.

(** After an evasion on a game that is not won the button shows the
    state: its inline style places it absolutely, at the stored position
    and scaled by the stored scale as far as these are finite (a
    coordinate or a scale that is not finite is not CSS, and the
    declaration stays as it was), with a transition unless reduced motion
    is preferred; its label becomes "Hmm..." when the count has become 1
    and is left alone otherwise. *)
Theorem button_reflects_state :
  forall (button container : Element) (state : LoveGameState)
         (config : LoveGameConfig) (reducedMotion : bool) (g : Random),
    hasAnsweredYes state = false ->
    let r := evadeNoButton button container state config reducedMotion g in
    let position := noButtonPosition (ev_state r) in
    let scale := noButtonScale (ev_state r) in
    getStyle (ev_button r) "position" = Some (CssText "absolute")
    /\ getStyle (ev_button r) "left"
       = (if isFinite (x position) then Some (CssPx (x position))
          else getStyle button "left")
    /\ getStyle (ev_button r) "top"
       = (if isFinite (y position) then Some (CssPx (y position))
          else getStyle button "top")
    /\ getStyle (ev_button r) "transform"
       = (if isFinite scale then Some (CssScale scale)
          else getStyle button "transform")
    /\ getStyle (ev_button r) "transition"
       = Some (CssText (if reducedMotion then "none" else "all 0.2s ease-out"))
    /\ textContent (ev_button r)
       = (if evasionCount (ev_state r) =? 1 then "Hmm..." else textContent button).
Proof.
  intros button container state config reducedMotion g Hno r position scale.
  subst position scale r.
  rewrite evadeNoButton_state by exact Hno.
  cbn [noButtonPosition noButtonScale evasionCount].
  unfold evadeNoButton. rewrite Hno. cbn [ev_button].
  cbn [set_evasionCount set_noButtonPosition set_noButtonScale evasionCount
       noButtonPosition noButtonScale].
  set (button1 := if evasionCount state + 1 =? 1 then set_textContent button "Hmm..."
                  else button).
  assert (Hstyle : style button1 = style button)
    by (subst button1; destruct (evasionCount state + 1 =? 1); reflexivity).
  assert (Htransition : CssText (if reducedMotion then "none" else "all 0.2s ease-out")
                        <> CssText "").
  { destruct reducedMotion; discriminate. }
  unfold getStyle, setStyles. cbn [style with_style fold_left]. rewrite Hstyle.
  rewrite !set_style_property_plain by reflexivity.
  split; [|split; [|split; [|split; [|split]]]].
  - rewrite !setProperty_other by discriminate.
    rewrite setProperty_same by discriminate. reflexivity.
  - rewrite !setProperty_other by discriminate.
    rewrite setProperty_same by discriminate.
    rewrite ?setProperty_other by discriminate.
    cbn [css_valid]. destruct (isFinite _); reflexivity.
  - rewrite !setProperty_other by discriminate.
    rewrite setProperty_same by discriminate.
    rewrite ?setProperty_other by discriminate.
    cbn [css_valid]. destruct (isFinite _); reflexivity.
  - rewrite !setProperty_other by discriminate.
    rewrite setProperty_same by discriminate.
    rewrite ?setProperty_other by discriminate.
    cbn [css_valid]. destruct (isFinite _); reflexivity.
  - rewrite setProperty_same by exact Htransition. reflexivity.
  - cbn [textContent with_style]. subst button1.
    destruct (evasionCount state + 1 =? 1); reflexivity.
Qed.

Lemma button_reflects_state_witness :
  let r := evadeNoButton demoNoButton demoContainer createInitialState demoConfig
                         false halves in
  getStyle (ev_button r) "left" = Some (CssPx 210)
  /\ getStyle (ev_button r) "top" = Some (CssPx 180)
  /\ textContent (ev_button r) = "Hmm...".
Proof.
  destruct (button_reflects_state demoNoButton demoContainer createInitialState
                                  demoConfig false halves eq_refl)
    as (_ & Hleft & Htop & _ & _ & Htext).
  split; [exact Hleft | split; [exact Htop | exact Htext]].
Defined.

(** ** Listeners along the life of a game *)

Section Wiring.

Lemma sameWiring_refl (w : Game * Page) : sameWiring w w.
Proof. repeat split; auto. Qed.

Lemma sameWiring_trans (w1 w2 w3 : Game * Page) :
  sameWiring w1 w2 -> sameWiring w2 w3 -> sameWiring w1 w3.
Proof.
  intros (A1 & A2 & A3 & A4 & A5 & A6 & A7 & A8) (B1 & B2 & B3 & B4 & B5 & B6 & B7 & B8).
  repeat split; try congruence.
  - intros H. apply A8, B8, H.
  - intros H. apply B8, A8, H.
Qed.

Lemma wired_sameWiring (w w' : Game * Page) : wired w -> sameWiring w w' -> wired w'.
Proof.
  unfold wired. intros Hw (A1 & A2 & A3 & A4 & A5 & A6 & A7 & A8).
  rewrite A1. destruct (isInitialized (fst w)).
  - destruct Hw as (c & yes & no & cel & H1 & H2 & H3 & H4 & H5 & H6 & H7 & H8 & H9 & H10).
    exists c, yes, no, cel. rewrite A2, A3, A4, A5, A6, A7.
    repeat split; try assumption; apply A8; assumption.
  - rewrite A6, A7. exact Hw.
Qed.

Lemma lookup_store (doc : list (string * Element)) (ref : string) (e : Element) :
  forall k, lookup (store doc ref e) k <> None <-> lookup doc k <> None.
Proof.
  intros k. induction doc as [|[a e0] doc IH]; cbn [store lookup]; [tauto|].
  destruct (String.eqb a ref) eqn:Href; cbn [lookup].
  - destruct (String.eqb a k); [split; discriminate | tauto].
  - destruct (String.eqb a k); [split; discriminate | exact IH].
Qed.

Lemma mutate_frame (p : Page) (ref : string) (f : Element -> Element) :
  listeners (mutate p ref f) = listeners p
  /\ forall k, lookup (document (mutate p ref f)) k <> None
               <-> lookup (document p) k <> None.
Proof.
  unfold mutate. destruct (lookup (document p) ref) as [e|].
  - cbn [with_document listeners document]. split; [reflexivity | apply lookup_store].
  - split; [reflexivity | tauto].
Qed.

Lemma evadeAt_sameWiring (g : Game) (p : Page) (button container : string) :
  sameWiring (g, p) (evadeAt g p button container).
Proof.
  unfold evadeAt.
  destruct (lookup (document p) button) as [b|]; [|apply sameWiring_refl].
  destruct (lookup (document p) container) as [c|]; [|apply sameWiring_refl].
  repeat split; try reflexivity; cbn [fst snd with_random with_document document];
    intros H.
  - apply lookup_store in H. apply lookup_store in H. exact H.
  - apply lookup_store, lookup_store. exact H.
Qed.

Lemma celebrateAt_sameWiring (g : Game) (p : Page) (cel : string) :
  sameWiring (g, p) (celebrateAt g p cel).
Proof.
  unfold celebrateAt.
  destruct (lookup (document p) cel) as [e|]; [|apply sameWiring_refl].
  repeat split; try reflexivity; cbn [fst snd with_random with_document document];
    intros H.
  - apply lookup_store in H. exact H.
  - apply lookup_store. exact H.
Qed.

Lemma hideContainer_sameWiring (g g0 : Game) (p : Page) :
  sameWiring (g, p) (g, hideContainer g0 p).
Proof.
  unfold hideContainer. destruct (container g0) as [c|]; [|apply sameWiring_refl].
  destruct (mutate_frame p c hideGameElements) as [Hl Hd].
  repeat split; try reflexivity; cbn [fst snd]; try exact Hl; apply Hd.
Qed.

Lemma celebrate_and_hide_sameWiring (g : Game) (p : Page) (cel : string) :
  sameWiring (g, p)
             (fst (celebrateAt g p cel),
              hideContainer (fst (celebrateAt g p cel)) (snd (celebrateAt g p cel))).
Proof.
  eapply sameWiring_trans; [apply (celebrateAt_sameWiring g p cel)|].
  destruct (celebrateAt g p cel) as [g' p']. apply hideContainer_sameWiring.
Qed.

Lemma handleYesClick_sameWiring (g : Game) (p : Page) (cel : string) :
  sameWiring (g, p) (handleYesClick g p cel).
Proof.
  unfold handleYesClick. destruct (negb _); [|apply sameWiring_refl].
  apply celebrate_and_hide_sameWiring.
Qed.

Lemma runListener_sameWiring (key : string) (w : Game * Page) (l : Listener) :
  sameWiring w (runListener key w l).
Proof.
  destruct w as [g p]. destruct l; cbn [runListener fst snd].
  - apply evadeAt_sameWiring.
  - apply evadeAt_sameWiring.
  - apply handleYesClick_sameWiring.
  - destruct (_ || _); [apply handleYesClick_sameWiring | apply sameWiring_refl].
Qed.

Lemma runListeners_sameWiring (key : string) (ls : list Listener) :
  forall w, sameWiring w (fold_left (runListener key) ls w).
Proof.
  induction ls as [|l ls IH]; intros w; cbn [fold_left].
  - apply sameWiring_refl.
  - eapply sameWiring_trans; [apply runListener_sameWiring | apply IH].
Qed.

Lemma querySelector_found (p : Page) (selector ref : string) :
  querySelector p selector = Some ref ->
  ref = selector /\ lookup (document p) selector <> None.
Proof.
  unfold querySelector. destruct (lookup (document p) selector) eqn:Hl; [|discriminate].
  intros H. injection H as <-. split; [reflexivity | discriminate].
Qed.

(** The two clean-up closures remove the five registrations. *)
Lemma cleanups_remove_listeners (p : Page) (no c yes cel : string) :
  listeners p = gameListeners no c yes cel ->
  listeners (fold_left runCleanup [NoButtonCleanup no; YesButtonCleanup yes] p) = [].
Proof.
  intros Hl. cbn [fold_left runCleanup]. unfold removeEventListener.
  cbn [with_listeners listeners]. rewrite Hl. unfold gameListeners, same_registration.
  cbn [filter fst snd].
  repeat (rewrite ?String.eqb_refl, ?andb_false_r; cbn [filter fst snd negb andb String.eqb Ascii.eqb Bool.eqb]).
  reflexivity.
Qed.

Lemma step_wired (w : Game * Page) (a : Action) : wired w -> wired (step w a).
Proof.
  intros Hw. destruct w as [g p]. destruct a; cbn [step fst snd].
  - (* init *)
    unfold init. destruct (isInitialized g) eqn:Hinit; [exact Hw|].
    unfold wired in Hw. cbn [fst snd] in Hw. rewrite Hinit in Hw.
    destruct Hw as [Hl Hc].
    destruct (querySelector p (containerSelector (config g))) as [c|] eqn:Qc;
      [destruct (querySelector p (yesButtonSelector (config g))) as [yes|] eqn:Qy;
       [destruct (querySelector p (noButtonSelector (config g))) as [no|] eqn:Qn;
        [destruct (querySelector p (celebrationSelector (config g))) as [cel|] eqn:Qcel|]|]|];
      unfold wired; cbn [fst snd isInitialized cleanupFunctions console_warn listeners];
      try (rewrite ?Hinit; split; assumption).
    destruct (querySelector_found _ _ _ Qc) as [_ Lc].
    destruct (querySelector_found _ _ _ Qy) as [_ Ly].
    destruct (querySelector_found _ _ _ Qn) as [_ Ln].
    destruct (querySelector_found _ _ _ Qcel) as [_ Lcel].
    apply querySelector_found in Qc, Qy, Qn, Qcel.
    destruct Qc as [-> _], Qy as [-> _], Qn as [-> _], Qcel as [-> _].
    set (fix_position := fun e => setStyles e [("position", CssText "relative")]).
    destruct (mutate_frame p (containerSelector (config g)) fix_position) as [Hl1 Hd1].
    eexists _, _, _, _.
    cbn [container yesButton noButton celebrationContainer].
    split; [reflexivity|]. split; [reflexivity|]. split; [reflexivity|].
    split; [reflexivity|].
    unfold setupYesButtonHandlers, setupNoButtonHandlers, addEventListener.
    cbn [fst snd with_listeners listeners document].
    rewrite Hl1, Hl, Hc. cbn [app].
    split; [reflexivity|]. split; [reflexivity|].
    repeat split; apply Hd1; assumption.
  - (* triggerCelebration *)
    unfold triggerCelebrationManual.
    destruct (celebrationContainer g) as [cel|]; [|exact Hw].
    destruct (negb _); [|exact Hw].
    eapply wired_sameWiring; [exact Hw | apply celebrate_and_hide_sameWiring].
  - (* evadeNoButton *)
    unfold evadeNoButtonManual.
    destruct (noButton g) as [no|]; [|exact Hw].
    destruct (container g) as [c|]; [|exact Hw].
    destruct (negb _); [|exact Hw].
    eapply wired_sameWiring; [exact Hw | apply evadeAt_sameWiring].
  - (* destroy *)
    unfold destroy, wired. cbn [fst snd isInitialized cleanupFunctions].
    split; [|reflexivity].
    assert (Hreset : forall q, listeners (resetElements g q) = listeners q).
    { intros q. unfold resetElements.
      destruct (noButton g), (celebrationContainer g), (container g);
        repeat match goal with
               | |- context [mutate ?q' ?r ?f] =>
                   rewrite (proj1 (mutate_frame q' r f))
               end; reflexivity. }
    rewrite Hreset. unfold wired in Hw. cbn [fst snd] in Hw.
    destruct (isInitialized g).
    + destruct Hw as (c & yes & no & cel & _ & _ & _ & _ & Hl & Hc & _).
      rewrite Hc. apply cleanups_remove_listeners with (c := c) (cel := cel). exact Hl.
    + destruct Hw as [Hl Hc]. rewrite Hc. exact Hl.
  - (* events *)
    eapply wired_sameWiring; [exact Hw|]. unfold dispatchEvent.
    apply runListeners_sameWiring.
  - (* layout *)
    destruct (mutate_frame p ref (relayout w h)) as [Hl Hd].
    eapply wired_sameWiring; [exact Hw|].
    repeat split; try reflexivity; cbn [fst snd]; try exact Hl; apply Hd.
  - (* motion preference *)
    eapply wired_sameWiring; [exact Hw|]. repeat split; auto.
Qed.

Lemma run_wired (actions : list Action) :
  forall w, wired w -> wired (run actions w).
Proof.
  unfold run. induction actions as [|a actions IH]; intros w Hw; cbn [fold_left].
  - exact Hw.
  - apply IH. apply step_wired. exact Hw.
Qed.

Lemma created_wired (site0 : SiteLoveGame) (custom : PartialConfig) (page : Page) :
  listeners page = [] -> wired (createLoveGame site0 custom, page).
Proof. intros Hl. unfold wired. cbn. split; [exact Hl | reflexivity]. Qed.

End Wiring.

(** On a page that had no listeners when the game was created, whatever
    happened since, [destroy] leaves no listener and no clean-up closure
    behind and marks the game as not initialized: afterwards no event on
    any element reaches the game. *)
Theorem destroy_detaches_the_game :
  forall (site0 : SiteLoveGame) (custom : PartialConfig) (page : Page)
         (actions : list Action),
    listeners page = [] ->
    let w := run actions (createLoveGame site0 custom, page) in
    let w' := destroy (fst w) (snd w) in
    listeners (snd w') = []
    /\ cleanupFunctions (fst w') = []
    /\ isInitialized (fst w') = false
    /\ forall target type key, dispatchEvent target type key w' = w'.
Proof.
  intros site0 custom page actions Hl w w'.
  assert (Hw : wired w) by (apply run_wired, created_wired; exact Hl).
  pose proof (step_wired w Destroy Hw) as Hw'.
  change (step w Destroy) with w' in Hw'.
  unfold wired in Hw'.
  assert (Hinit : isInitialized (fst w') = false) by reflexivity.
  rewrite Hinit in Hw'. destruct Hw' as [Hnone Hclean].
  split; [exact Hnone|]. split; [exact Hclean|]. split; [exact Hinit|].
  intros target type key. unfold dispatchEvent. rewrite Hnone. reflexivity.
Qed.

Lemma destroy_detaches_the_game_witness :
  let w' := destroy (fst demoWorld) (snd demoWorld) in
  listeners (snd demoWorld) <> []
  /\ listeners (snd w') = []
  /\ dispatchEvent "#no-button" "mouseenter" "" w' = w'.
Proof.
  split; [discriminate|].
  destruct (destroy_detaches_the_game demoSite noCustomConfig (demoPage halves)
                                      demoActions eq_refl)
    as (Hnone & _ & _ & Hdispatch).
  split; [exact Hnone | apply Hdispatch].
Defined.

Section Events.

Variables (g : Game) (p : Page) (c yes no cel : string).
Hypothesis Hlisteners : listeners p = gameListeners no c yes cel.

Lemma listeners_for_evasion (type : string) :
  type = "mouseenter" \/ type = "touchstart" ->
  exists l, map snd (filter (same_registration no type) (listeners p)) = [l]
            /\ (l = HandleEvasion no c \/ l = HandleTouchStart no c).
Proof.
  rewrite Hlisteners. unfold gameListeners, same_registration.
  intros [-> | ->]; cbn [filter fst snd];
    repeat (rewrite ?String.eqb_refl, ?andb_false_r;
            cbn [filter fst snd negb andb String.eqb Ascii.eqb Bool.eqb map]);
    eexists; split; try reflexivity; auto.
Qed.

Lemma listeners_for_accept (type : string) :
  type = "click" \/ type = "touchend" ->
  map snd (filter (same_registration yes type) (listeners p)) = [HandleYesClick cel].
Proof.
  rewrite Hlisteners. unfold gameListeners, same_registration.
  intros [-> | ->]; cbn [filter fst snd];
    repeat (rewrite ?String.eqb_refl, ?andb_false_r;
            cbn [filter fst snd negb andb String.eqb Ascii.eqb Bool.eqb map]);
    reflexivity.
Qed.

Lemma listeners_for_keys :
  map snd (filter (same_registration yes "keydown") (listeners p)) = [HandleKeyDown cel].
Proof.
  rewrite Hlisteners. unfold gameListeners, same_registration.
  cbn [filter fst snd];
    repeat (rewrite ?String.eqb_refl, ?andb_false_r;
            cbn [filter fst snd negb andb String.eqb Ascii.eqb Bool.eqb map]);
    reflexivity.
Qed.

Hypothesis Hno : hasAnsweredYes (state g) = false.

Lemma evadeAt_counts :
  lookup (document p) no <> None -> lookup (document p) c <> None ->
  evasionCount (state (fst (evadeAt g p no c))) = evasionCount (state g) + 1.
Proof.
  intros Hn Hc. unfold evadeAt.
  destruct (lookup (document p) no) as [b|]; [|congruence].
  destruct (lookup (document p) c) as [e|]; [|congruence].
  cbn [fst]. destruct g; cbn [state with_state] in *.
  apply evadeNoButton_counts. exact Hno.
Qed.

Lemma handleYesClick_answers :
  lookup (document p) cel <> None ->
  hasAnsweredYes (state (fst (handleYesClick g p cel))) = true.
Proof.
  intros Hc. unfold handleYesClick, celebrateAt. rewrite Hno. cbn [negb fst].
  destruct (lookup (document p) cel) as [e|]; [|congruence].
  destruct g; reflexivity.
Qed.

End Events.

(** In an initialized game that is not won yet (on a page that had no
    listeners when the game was created) the input devices are wired as
    intended: a [mouseenter] or a [touchstart] on the "No" button is one
    evasion; a [click], a [touchend], or a [keydown] of Enter or Space on
    the "Yes" button wins the game; any other key changes nothing. *)
Theorem events_reach_the_game :
  forall (site0 : SiteLoveGame) (custom : PartialConfig) (page : Page)
         (actions : list Action),
    listeners page = [] ->
    let w := run actions (createLoveGame site0 custom, page) in
    isInitialized (fst w) = true ->
    hasAnsweredYes (state (fst w)) = false ->
    exists no yes,
      noButton (fst w) = Some no /\ yesButton (fst w) = Some yes
      /\ (forall type key,
             type = "mouseenter" \/ type = "touchstart" ->
             evasionCount (state (fst (dispatchEvent no type key w)))
             = evasionCount (state (fst w)) + 1)
      /\ (forall type key,
             type = "click" \/ type = "touchend" ->
             hasAnsweredYes (state (fst (dispatchEvent yes type key w))) = true)
      /\ (forall key,
             key = "Enter" \/ key = " " ->
             hasAnsweredYes (state (fst (dispatchEvent yes "keydown" key w))) = true)
      /\ (forall key,
             key <> "Enter" -> key <> " " ->
             dispatchEvent yes "keydown" key w = w).
Proof.
  intros site0 custom page actions Hl w Hinit Hno.
  assert (Hw : wired w) by (apply run_wired, created_wired; exact Hl).
  unfold wired in Hw. rewrite Hinit in Hw.
  destruct Hw as (c & yes & no & cel & Hc & Hy & Hn & Hcel & Hls & _ & Lc & Ly & Ln & Lcel).
  exists no, yes. split; [exact Hn|]. split; [exact Hy|].
  destruct w as [g p]. cbn [fst snd] in *.
  split; [|split; [|split]].
  - intros type key Htype. unfold dispatchEvent. cbn [snd].
    destruct (listeners_for_evasion p c yes no cel Hls type Htype) as (l & -> & [-> | ->]);
      cbn [fold_left runListener fst snd]; apply evadeAt_counts; assumption.
  - intros type key Htype. unfold dispatchEvent. cbn [snd].
    rewrite (listeners_for_accept p c yes no cel Hls type Htype).
    cbn [fold_left runListener fst snd]. apply handleYesClick_answers; assumption.
  - intros key Hkey. unfold dispatchEvent. cbn [snd].
    rewrite (listeners_for_keys p c yes no cel Hls).
    cbn [fold_left runListener fst snd].
    assert (Hk : (String.eqb key "Enter" || String.eqb key " ") = true).
    { destruct Hkey as [-> | ->]; reflexivity. }
    rewrite Hk. apply handleYesClick_answers; assumption.
  - intros key Henter Hspace. unfold dispatchEvent. cbn [snd].
    rewrite (listeners_for_keys p c yes no cel Hls).
    cbn [fold_left runListener fst snd].
    destruct (String.eqb_spec key "Enter") as [|_]; [congruence|].
    destruct (String.eqb_spec key " ") as [|_]; [congruence|].
    reflexivity.
Qed.

Lemma events_reach_the_game_witness :
  evasionCount (state (fst (dispatchEvent "#no-button" "touchstart" "" initializedWorld)))
  = 2
  /\ hasAnsweredYes
       (state (fst (dispatchEvent "#yes-button" "keydown" " " initializedWorld)))
     = true
  /\ dispatchEvent "#yes-button" "keydown" "Tab" initializedWorld = initializedWorld.
Proof.
  destruct (events_reach_the_game demoSite noCustomConfig (demoPage halves)
                                  [Init; EvadeNoButton] eq_refl eq_refl eq_refl)
    as (no & yes & Hn & Hy & Hevade & _ & Hkeys & Hother).
  injection Hn as <-. injection Hy as <-.
  split; [apply Hevade; right; reflexivity|].
  split; [apply Hkeys; right; reflexivity|].
  apply Hother; discriminate.
Defined.

(** ** The pleading messages *)

Section MessageReuse.

Lemma scanClass_finds (c : string) (l : list Element) :
  forall i j child,
    nth_error l i = Some child ->
    hasClass child c = true \/ querySelectorClass c child <> None ->
    scanClass c l j <> None.
Proof.
  induction l as [|h l IH]; intros [|i] j child Hnth Hfound; cbn in Hnth;
    try discriminate; cbn [scanClass].
  - injection Hnth as ->.
    destruct (hasClass child c); [discriminate|].
    destruct Hfound as [H | H]; [discriminate|].
    destruct (querySelectorClass c child); [discriminate | congruence].
  - destruct (hasClass h c); [discriminate|].
    destruct (querySelectorClass c h); [discriminate|].
    apply (IH i (S j) child Hnth Hfound).
Qed.

(** The query finds an element whenever some descendant carries the
    class. *)
Lemma querySelectorClass_complete (c : string) (p : list nat) :
  forall e el,
    p <> [] -> nodeAt p e = Some el -> hasClass el c = true ->
    querySelectorClass c e <> None.
Proof.
  induction p as [|i q IH]; intros e el Hp Hnode Hhas; [congruence|].
  cbn [nodeAt] in Hnode.
  destruct (nth_error (childNodes e) i) as [child|] eqn:Hchild; [|discriminate].
  rewrite querySelectorClass_scan.
  apply (scanClass_finds c _ i 0%nat child Hchild).
  destruct q as [|k q'].
  - cbn in Hnode. injection Hnode as ->. left. exact Hhas.
  - right. apply (IH child el); [discriminate | exact Hnode | exact Hhas].
Qed.

Lemma scanClass_nonempty (c : string) (l : list Element) :
  forall i p, scanClass c l i = Some p -> p <> [].
Proof.
  induction l as [|h l IH]; intros i p H; cbn [scanClass] in H; [discriminate|].
  destruct (hasClass h c); [injection H as <-; discriminate|].
  destruct (querySelectorClass c h); [injection H as <-; discriminate|].
  apply (IH _ _ H).
Qed.

Lemma messageElement_ref_nonempty (container : Element) :
  snd (messageElement container) <> [].
Proof.
  unfold messageElement.
  destruct (querySelectorClass "pleading-message" container) as [p|] eqn:Hq;
    cbn [snd]; [|discriminate].
  rewrite querySelectorClass_scan in Hq. apply (scanClass_nonempty _ _ _ _ Hq).
Qed.

Lemma length_replace_nth {A : Type} (f : A -> A) (l : list A) :
  forall i, List.length (replace_nth i f l) = List.length l.
Proof.
  induction l as [|a l IH]; intros [|i]; cbn; try reflexivity.
  rewrite IH. reflexivity.
Qed.

Lemma updateAt_children (p : list nat) (f : Element -> Element) (e : Element) :
  p <> [] -> List.length (childNodes (updateAt p f e)) = List.length (childNodes e).
Proof.
  destruct p as [|i q]; [congruence|]. intros _. cbn. apply length_replace_nth.
Qed.

End MessageReuse.

(** [showPleadingMessage] creates the message element at most once: the
    first call appends at most one child to the container, after any call
    the query for the message element succeeds, and a further call
    (whatever the state and the configuration) appends nothing. *)
Theorem message_element_is_reused :
  forall (container : Element) (state state' : LoveGameState)
         (config config' : LoveGameConfig),
    let c1 := fst (showPleadingMessage container state config) in
    let c2 := fst (showPleadingMessage c1 state' config') in
    querySelectorClass "pleading-message" c1 <> None
    /\ (List.length (childNodes c1) <= List.length (childNodes container) + 1)%nat
    /\ (querySelectorClass "pleading-message" container <> None ->
        List.length (childNodes c1) = List.length (childNodes container))
    /\ List.length (childNodes c2) = List.length (childNodes c1).
Proof.
  intros container state state' config config' c1 c2.
  assert (Hfound : forall c s cfg,
             querySelectorClass "pleading-message" (fst (showPleadingMessage c s cfg))
             <> None).
  { intros c s cfg.
    destruct (showPleadingMessage_shows c s cfg) as ((el & Hel & Hhas & _) & _).
    apply (querySelectorClass_complete _ _ _ el (messageElement_ref_nonempty c) Hel Hhas). }
  assert (Hlen : forall c s cfg,
             List.length (childNodes (fst (showPleadingMessage c s cfg)))
             = List.length (childNodes (fst (messageElement c)))).
  { intros c s cfg. unfold showPleadingMessage. cbn [fst].
    apply updateAt_children. apply messageElement_ref_nonempty. }
  assert (Hkeep : forall c,
             querySelectorClass "pleading-message" c <> None ->
             fst (messageElement c) = c).
  { intros c Hq. unfold messageElement.
    destruct (querySelectorClass "pleading-message" c); [reflexivity | congruence]. }
  split; [apply Hfound|]. split; [|split].
  - subst c1. rewrite Hlen. unfold messageElement.
    destruct (querySelectorClass "pleading-message" container); cbn [fst].
    + lia.
    + cbn. rewrite length_app. cbn. lia.
  - intros Hq. subst c1. rewrite Hlen, (Hkeep _ Hq). reflexivity.
  - subst c2 c1. rewrite Hlen, (Hkeep _ (Hfound container state config)). reflexivity.
Qed.

(** With a list of pleading messages that is not empty and a cursor that
    is an integer below 2^53, the message shown is the one at the cursor
    modulo the length of the list (the fallback text is not used, also
    for a message that is the empty string), and the message for a cursor
    is shown again once the cursor has advanced by the length of the
    list. *)
Theorem pleading_messages_cycle :
  forall (container : Element) (state : LoveGameState) (config : LoveGameConfig)
         (cursor : N),
    pleadingMessages config <> [] ->
    let messages := pleadingMessages config in
    let len := N.of_nat (List.length messages) in
    (len < 2 ^ 53)%N ->
    (cursor < 2 ^ 53)%N ->
    currentMessageIndex state = number_of_N cursor ->
    let shown (s : LoveGameState) :=
      option_map textContent
                 (nodeAt (snd (messageElement container))
                         (fst (showPleadingMessage container s config))) in
    (exists message,
        shown state = Some message
        /\ nth_error messages (N.to_nat (cursor mod len)) = Some message
        /\ In message messages)
    /\ ((cursor + len < 2 ^ 53)%N ->
        shown (set_currentMessageIndex state (number_of_N (cursor + len)))
        = shown state).
Proof.
  intros container state config cursor Hne messages len Hlen53 Hcursor Hstate shown.
  assert (Hlen : len <> 0%N).
  { subst len messages. destruct (pleadingMessages config); [congruence | cbn; lia]. }
  assert (Hshown : forall s k,
             (k < 2 ^ 53)%N -> currentMessageIndex s = number_of_N k ->
             exists message,
               shown s = Some message
               /\ nth_error messages (N.to_nat (k mod len)) = Some message).
  { intros s k Hk Hs. subst shown. cbn beta.
    destruct (showPleadingMessage_shows container s config)
      as ((el & Hel & _ & Htext) & _).
    rewrite Hel. cbn [option_map]. rewrite Htext.
    fold messages len. rewrite Hs, rem_exact by lia.
    pose proof (N.mod_lt k len Hlen) as Hmod.
    rewrite index_exact by lia.
    destruct (nth_error messages (N.to_nat (k mod len))) as [message|] eqn:Hnth.
    - exists message. split; reflexivity.
    - apply nth_error_None in Hnth. subst len. lia. }
  split.
  - destruct (Hshown state cursor Hcursor Hstate) as (message & Hs & Hnth).
    exists message. split; [exact Hs|]. split; [exact Hnth|].
    apply (nth_error_In _ _ Hnth).
  - intros Hroom.
    destruct (Hshown state cursor Hcursor Hstate) as (m1 & Hs1 & Hn1).
    destruct (Hshown (set_currentMessageIndex state (number_of_N (cursor + len)))
                     (cursor + len)%N Hroom eq_refl)
      as (m2 & Hs2 & Hn2).
    replace ((cursor + len) mod len)%N with (cursor mod len)%N in Hn2.
    + rewrite Hs1, Hs2. congruence.
    + rewrite <- (N.mul_1_l len) at 2. rewrite N.Div0.mod_add. reflexivity.
Qed.

Lemma pleading_messages_cycle_witness :
  option_map textContent
    (nodeAt [0%nat]
       (fst (showPleadingMessage demoContainer
               (set_currentMessageIndex createInitialState 3) demoConfig)))
  = Some "Itna mushkil hai kya? 😢".
Proof.
  assert (Hne : pleadingMessages demoConfig <> []) by discriminate.
  assert (Hlen : (N.of_nat (List.length (pleadingMessages demoConfig)) < 2 ^ 53)%N)
    by (vm_compute; reflexivity).
  assert (Hcursor : (3 < 2 ^ 53)%N) by (vm_compute; reflexivity).
  destruct (pleading_messages_cycle demoContainer
              (set_currentMessageIndex createInitialState 3) demoConfig 3%N
              Hne Hlen Hcursor eq_refl)
    as ((message & Hshown & Hnth & _) & _).
  cbn in Hnth. injection Hnth as <-. exact Hshown.
Defined.

(** ** What [destroy] does to the page *)

Section ResetPage.

Lemma lookup_store_eq (doc : list (string * Element)) (ref : string) (e : Element) :
  forall k,
    lookup (store doc ref e) k
    = match lookup doc k with
      | Some e0 => Some (if String.eqb ref k then e else e0)
      | None => None
      end.
Proof.
  intros k. induction doc as [|[a e0] doc IH]; cbn [store lookup]; [reflexivity|].
  destruct (String.eqb a ref) eqn:Href; cbn [lookup].
  - apply String.eqb_eq in Href. subst a.
    destruct (String.eqb ref k) eqn:Hk; [reflexivity|].
    destruct (lookup doc k); reflexivity.
  - destruct (String.eqb a k) eqn:Hk.
    + apply String.eqb_eq in Hk. subst a.
      rewrite String.eqb_sym, Href. reflexivity.
    + exact IH.
Qed.

Lemma lookup_mutate (p : Page) (ref : string) (f : Element -> Element) :
  forall k,
    lookup (document (mutate p ref f)) k
    = match lookup (document p) k with
      | Some e0 => Some (if String.eqb ref k then f e0 else e0)
      | None => None
      end.
Proof.
  intros k. unfold mutate.
  destruct (lookup (document p) ref) as [e|] eqn:Href.
  - cbn [with_document document]. rewrite lookup_store_eq.
    destruct (lookup (document p) k) as [e0|] eqn:Hk; [|reflexivity].
    destruct (String.eqb_spec ref k) as [->|]; [|reflexivity].
    congruence.
  - destruct (lookup (document p) k) as [e0|] eqn:Hk; [|reflexivity].
    destruct (String.eqb_spec ref k) as [->|]; [congruence | reflexivity].
Qed.

Lemma updateAt_frame (q : list nat) (f : Element -> Element) (e : Element) :
  q <> [] ->
  style (updateAt q f e) = style e /\ classList (updateAt q f e) = classList e.
Proof. destruct q; [congruence|]. intros _. split; reflexivity. Qed.

Lemma querySelectorClass_nonempty (c : string) (e : Element) (q : list nat) :
  querySelectorClass c e = Some q -> q <> [].
Proof.
  rewrite querySelectorClass_scan. apply scanClass_nonempty.
Qed.

(** Showing the question and the buttons again changes neither the
    style nor the classes of the container itself, and nothing at all in
    an element without children. *)
Lemma showGameElements_frame (e : Element) :
  style (showGameElements e) = style e
  /\ classList (showGameElements e) = classList e
  /\ (childNodes e = [] -> showGameElements e = e).
Proof.
  unfold showGameElements.
  destruct (querySelectorClass "game-question" e) as [q|] eqn:Hq;
    destruct (querySelectorClass "game-buttons" e) as [b|] eqn:Hb.
  - destruct (updateAt_frame b (fun n => removeClass n ["hidden"])
                (updateAt q (fun n => removeClass n ["hidden"]) e)
                (querySelectorClass_nonempty _ _ _ Hb)) as [Hs Hc].
    destruct (updateAt_frame q (fun n => removeClass n ["hidden"]) e
                (querySelectorClass_nonempty _ _ _ Hq)) as [Hs' Hc'].
    rewrite Hs, Hc, Hs', Hc'. repeat split.
    intros Hnone. rewrite querySelectorClass_scan, Hnone in Hq. discriminate.
  - destruct (updateAt_frame q (fun n => removeClass n ["hidden"]) e
                (querySelectorClass_nonempty _ _ _ Hq)) as [Hs Hc].
    rewrite Hs, Hc. repeat split.
    intros Hnone. rewrite querySelectorClass_scan, Hnone in Hq. discriminate.
  - destruct (updateAt_frame b (fun n => removeClass n ["hidden"]) e
                (querySelectorClass_nonempty _ _ _ Hb)) as [Hs Hc].
    rewrite Hs, Hc. repeat split.
    intros Hnone. rewrite querySelectorClass_scan, Hnone in Hb. discriminate.
  - repeat split.
Qed.

Lemma resetElements_lookup (g : Game) (p : Page) (k : string) :
  lookup (document (resetElements g p)) k
  = match lookup (document p) k with
    | Some e0 =>
        let e1 := match noButton g with
                  | Some no => if String.eqb no k then clearButtonStyles e0 else e0
                  | None => e0
                  end in
        let e2 := match celebrationContainer g with
                  | Some cel => if String.eqb cel k then hideCelebration e1 else e1
                  | None => e1
                  end in
        Some match container g with
             | Some c => if String.eqb c k then showGameElements e2 else e2
             | None => e2
             end
    | None => None
    end.
Proof.
  unfold resetElements.
  destruct (noButton g) as [no|], (celebrationContainer g) as [cel|],
    (container g) as [c|];
    repeat (rewrite lookup_mutate);
    destruct (lookup (document p) k) as [e0|]; reflexivity.
Qed.

Lemma clearButtonStyles_spec (e : Element) (k : string) :
  In k ["position"; "left"; "top"; "transform"; "transition"] ->
  getStyle (clearButtonStyles e) k = None.
Proof.
  unfold getStyle, clearButtonStyles, setStyles. cbn [style with_style fold_left].
  intros [<- | [<- | [<- | [<- | [<- | []]]]]];
    rewrite !set_style_property_plain by reflexivity;
    rewrite ?setProperty_other by discriminate;
    rewrite setProperty_removed; reflexivity.
Qed.

Lemma hideCelebration_spec (e : Element) :
  hasClass (hideCelebration e) "hidden" = true
  /\ hasClass (hideCelebration e) "celebration--active" = false
  /\ childNodes (hideCelebration e) = []
  /\ style (hideCelebration e) = style e.
Proof.
  unfold hideCelebration. repeat split.
  - unfold hasClass. cbn [classList clear_innerHTML set_textContent].
    apply hasClass_addClass.
  - unfold hasClass. cbn [classList clear_innerHTML set_textContent].
    fold (hasClass (addClass (removeClass e ["celebration--active"]) ["hidden"])
                   "celebration--active").
    rewrite hasClass_addClass_other by discriminate. apply hasClass_removeClass.
  - cbn [style clear_innerHTML set_textContent].
    rewrite (proj2 (proj2 (addClass_frame _ _))). reflexivity.
Qed.

Lemma cleanups_keep_document (cs : list Cleanup) :
  forall p, document (fold_left runCleanup cs p) = document p.
Proof.
  induction cs as [|c0 cs IH]; intros p; cbn [fold_left]; [reflexivity|].
  rewrite IH. destruct c0; reflexivity.
Qed.

End ResetPage.

(** [destroy] clears what the game put on the elements it holds: the
    "No" button loses the five inline style properties that evasions
    set, and the celebration container is no longer active and is empty.
    A celebration container that is not itself a question or a buttons
    block (it carries neither the class [game-question] nor
    [game-buttons], the two classes that [destroy] looks up in the game
    container to show them again) is also left hidden. *)
Theorem destroy_resets_page :
  forall (g : Game) (p : Page) (no cel : string) (button celebration : Element),
    noButton g = Some no -> celebrationContainer g = Some cel ->
    lookup (document p) no = Some button ->
    lookup (document p) cel = Some celebration ->
    let p' := snd (destroy g p) in
    (exists button',
        lookup (document p') no = Some button'
        /\ forall k, In k ["position"; "left"; "top"; "transform"; "transition"] ->
                     getStyle button' k = None)
    /\ (exists celebration',
           lookup (document p') cel = Some celebration'
           /\ hasClass celebration' "celebration--active" = false
           /\ childNodes celebration' = []
           /\ (hasClass celebration "game-question" = false ->
               hasClass celebration "game-buttons" = false ->
               hasClass celebration' "hidden" = true)).
Proof.
  intros g p no cel button celebration Hno Hcel Lno Lcel p'.
  pose proof (cleanups_keep_document (cleanupFunctions g) p) as Hdoc.
  subst p'. unfold destroy. cbn [snd].
  split.
  - rewrite resetElements_lookup, Hdoc, Lno, Hno, Hcel. rewrite String.eqb_refl.
    eexists. split; [reflexivity|]. intros k Hk. cbv zeta.
    assert (Hbase : forall e, style e = style (clearButtonStyles button) ->
                              getStyle e k = None).
    { intros e He. unfold getStyle. rewrite He.
      apply (clearButtonStyles_spec button k Hk). }
    pose proof (fun e => proj1 (showGameElements_frame e)) as Hshow.
    pose proof (fun e => proj2 (proj2 (proj2 (hideCelebration_spec e)))) as Hhide.
    destruct (container g) as [c|]; [destruct (String.eqb c no)|];
      destruct (String.eqb cel no); apply Hbase.
    + rewrite Hshow, Hhide. reflexivity.
    + rewrite Hshow. reflexivity.
    + rewrite Hhide. reflexivity.
    + reflexivity.
    + rewrite Hhide. reflexivity.
    + reflexivity.
  - rewrite resetElements_lookup, Hdoc, Lcel, Hno, Hcel. rewrite String.eqb_refl.
    cbv zeta.
    set (e1 := if String.eqb no cel then clearButtonStyles celebration else celebration).
    destruct (hideCelebration_spec e1) as (Hhid & Hact & Hch & _).
    destruct (showGameElements_frame (hideCelebration e1)) as (_ & Hcls & Hsame).
    destruct (container g) as [c|]; [destruct (String.eqb c cel)|].
    + rewrite (Hsame Hch). eexists.
      split; [reflexivity|]. split; [exact Hact|]. split; [exact Hch|].
      intros _ _. exact Hhid.
    + eexists.
      split; [reflexivity|]. split; [exact Hact|]. split; [exact Hch|].
      intros _ _. exact Hhid.
    + eexists.
      split; [reflexivity|]. split; [exact Hact|]. split; [exact Hch|].
      intros _ _. exact Hhid.
Qed.

Lemma destroy_resets_page_witness :
  let p' := snd (destroy (fst demoWorld) (snd demoWorld)) in
  (exists button',
      lookup (document p') "#no-button" = Some button'
      /\ forall k, In k ["position"; "left"; "top"; "transform"; "transition"] ->
                   getStyle button' k = None)
  /\ (exists celebration',
         lookup (document p') "#celebration" = Some celebration'
         /\ hasClass celebration' "celebration--active" = false
         /\ childNodes celebration' = []
         /\ hasClass celebration' "hidden" = true).
Proof.
  destruct (destroy_resets_page
              (fst demoWorld) (snd demoWorld) "#no-button" "#celebration"
              (nullish (lookup (document (snd demoWorld)) "#no-button") demoNoButton)
              (nullish (lookup (document (snd demoWorld)) "#celebration")
                       demoCelebration))
    as (Hbutton & celebration' & Hlookup & Hactive & Hempty & Hhidden);
    try (vm_compute; reflexivity).
  split; [exact Hbutton|].
  exists celebration'. repeat split; try assumption.
  apply Hhidden; vm_compute; reflexivity.
Defined.

(** ** Setting a game up, and setting it up again *)

Section Setup.

Lemma evadeAt_references (g : Game) (p : Page) (button container : string) :
  references (fst (evadeAt g p button container)) = references g.
Proof.
  unfold evadeAt.
  destruct (lookup (document p) button); [|reflexivity].
  destruct (lookup (document p) container); reflexivity.
Qed.

Lemma handleYesClick_references (g : Game) (p : Page) (cel : string) :
  references (fst (handleYesClick g p cel)) = references g.
Proof.
  unfold handleYesClick, celebrateAt.
  destruct (negb (hasAnsweredYes (state g))); [|reflexivity].
  destruct (lookup (document p) cel); reflexivity.
Qed.

Lemma runListener_references (key : string) (w : Game * Page) (l : Listener) :
  references (fst (runListener key w l)) = references (fst w).
Proof.
  destruct l; cbn [runListener];
    try apply evadeAt_references; try apply handleYesClick_references.
  destruct (String.eqb key "Enter" || String.eqb key " ");
    [apply handleYesClick_references | reflexivity].
Qed.

Lemma runListeners_references (key : string) (ls : list Listener) :
  forall w, references (fst (fold_left (runListener key) ls w)) = references (fst w).
Proof.
  induction ls as [|l ls IH]; intros w; cbn [fold_left]; [reflexivity|].
  rewrite IH. apply runListener_references.
Qed.

Lemma refsFromConfig_references (g g' : Game) :
  references g' = references g -> refsFromConfig g -> refsFromConfig g'.
Proof.
  unfold references, refsFromConfig. intros H.
  injection H as -> -> -> -> ->. tauto.
Qed.

Lemma querySelector_fromSelector (p : Page) (selector : string) :
  fromSelector (querySelector p selector) selector.
Proof.
  unfold fromSelector, querySelector.
  destruct (lookup (document p) selector); [right | left]; reflexivity.
Qed.

Lemma step_refsFromConfig (w : Game * Page) (a : Action) :
  refsFromConfig (fst w) -> refsFromConfig (fst (step w a)).
Proof.
  destruct w as [g p]. cbn [fst]. intros Hr.
  destruct a; cbn [step fst snd].
  - unfold init. destruct (isInitialized g); [exact Hr|].
    assert (Hq : forall cleanups initialized,
               refsFromConfig
                 (mkGame (site g) (config g) (state g)
                    (querySelector p (containerSelector (config g)))
                    (querySelector p (yesButtonSelector (config g)))
                    (querySelector p (noButtonSelector (config g)))
                    (querySelector p (celebrationSelector (config g)))
                    cleanups initialized)).
    { intros cleanups initialized. unfold refsFromConfig.
      cbn [container yesButton noButton celebrationContainer config].
      repeat split; apply querySelector_fromSelector. }
    destruct (querySelector p (containerSelector (config g)));
      [destruct (querySelector p (yesButtonSelector (config g)));
       [destruct (querySelector p (noButtonSelector (config g)));
        [destruct (querySelector p (celebrationSelector (config g)))|]|]|];
      cbn [fst]; apply Hq.
  - apply (refsFromConfig_references g); [|exact Hr].
    unfold triggerCelebrationManual.
    destruct (celebrationContainer g) as [cel|]; [|reflexivity].
    destruct (negb (hasAnsweredYes (state g))); [|reflexivity].
    cbn [fst]. unfold celebrateAt.
    destruct (lookup (document p) cel); reflexivity.
  - apply (refsFromConfig_references g); [|exact Hr].
    unfold evadeNoButtonManual.
    destruct (noButton g) as [no|]; [|reflexivity].
    destruct (container g) as [c|]; [|reflexivity].
    destruct (negb (hasAnsweredYes (state g))); [|reflexivity].
    apply evadeAt_references.
  - exact Hr.
  - apply (refsFromConfig_references g); [|exact Hr].
    unfold dispatchEvent. apply runListeners_references.
  - exact Hr.
  - exact Hr.
Qed.

Lemma run_refsFromConfig (actions : list Action) :
  forall w, refsFromConfig (fst w) -> refsFromConfig (fst (run actions w)).
Proof.
  unfold run. induction actions as [|a actions IH]; intros w Hw; cbn [fold_left].
  - exact Hw.
  - apply IH. apply step_refsFromConfig. exact Hw.
Qed.

Lemma created_refsFromConfig (site0 : SiteLoveGame) (custom : PartialConfig) :
  refsFromConfig (createLoveGame site0 custom).
Proof. repeat split; left; reflexivity. Qed.

Lemma destroy_keeps_elements (g : Game) (p : Page) (k : string) :
  lookup (document p) k <> None ->
  lookup (document (snd (destroy g p))) k <> None.
Proof.
  unfold destroy. cbn [snd].
  rewrite resetElements_lookup, cleanups_keep_document.
  destruct (lookup (document p) k); [discriminate | congruence].
Qed.

Lemma querySelector_some (p : Page) (selector : string) :
  lookup (document p) selector <> None -> querySelector p selector = Some selector.
Proof.
  unfold querySelector. destruct (lookup (document p) selector); congruence.
Qed.

(** [init] on a page that holds the four elements. *)
Lemma init_succeeds (g : Game) (p : Page) :
  isInitialized g = false ->
  lookup (document p) (containerSelector (config g)) <> None ->
  lookup (document p) (yesButtonSelector (config g)) <> None ->
  lookup (document p) (noButtonSelector (config g)) <> None ->
  lookup (document p) (celebrationSelector (config g)) <> None ->
  isInitialized (fst (init g p)) = true
  /\ state (fst (init g p)) = state g
  /\ listeners (snd (init g p))
     = (listeners p
          ++ gameListeners (noButtonSelector (config g)) (containerSelector (config g))
               (yesButtonSelector (config g)) (celebrationSelector (config g)))%list
  /\ cleanupFunctions (fst (init g p))
     = (cleanupFunctions g
          ++ [NoButtonCleanup (noButtonSelector (config g));
              YesButtonCleanup (yesButtonSelector (config g))])%list.
Proof.
  intros Hinit Lc Ly Ln Lcel. unfold init. rewrite Hinit.
  rewrite (querySelector_some _ _ Lc), (querySelector_some _ _ Ly),
    (querySelector_some _ _ Ln), (querySelector_some _ _ Lcel).
  cbn [fst snd isInitialized state cleanupFunctions].
  split; [reflexivity|]. split; [reflexivity|]. split; [|reflexivity].
  unfold setupYesButtonHandlers, setupNoButtonHandlers, addEventListener.
  cbn [fst snd with_listeners listeners document].
  rewrite (proj1 (mutate_frame p _ _)).
  unfold gameListeners. rewrite <- !app_assoc. reflexivity.
Qed.

End Setup.

(** After [destroy] a further [init] does not return early but sets the
    game up again.  On a page that had no listeners when the game was
    created: when the four selectors find elements on the page as
    [destroy] left it, the game is initialized again, the listeners on
    the page are the five that this [init] registers for the elements it
    found (none is left over from before), the game holds the two
    clean-up closures of this [init], and it starts from the initial
    state. *)
Theorem init_after_destroy_rewires :
  forall (site0 : SiteLoveGame) (custom : PartialConfig) (page : Page)
         (actions : list Action),
    listeners page = [] ->
    let w := run actions (createLoveGame site0 custom, page) in
    let destroyed := run [Destroy] w in
    let cfg := config (fst w) in
    lookup (document (snd destroyed)) (containerSelector cfg) <> None ->
    lookup (document (snd destroyed)) (yesButtonSelector cfg) <> None ->
    lookup (document (snd destroyed)) (noButtonSelector cfg) <> None ->
    lookup (document (snd destroyed)) (celebrationSelector cfg) <> None ->
    let w' := run [Init] destroyed in
    isInitialized (fst w') = true
    /\ listeners (snd w')
       = gameListeners (noButtonSelector cfg) (containerSelector cfg)
                       (yesButtonSelector cfg) (celebrationSelector cfg)
    /\ cleanupFunctions (fst w')
       = [NoButtonCleanup (noButtonSelector cfg);
          YesButtonCleanup (yesButtonSelector cfg)]
    /\ state (fst w') = createInitialState.
Proof.
  intros site0 custom page actions Hl w destroyed cfg Lc Ly Ln Lcel w'.
  assert (Hw : wired w) by (apply run_wired, created_wired; exact Hl).
  pose proof (step_wired w Destroy Hw) as Hd.
  subst w' destroyed cfg. unfold run in Lc, Ly, Ln, Lcel |- *.
  cbn [fold_left] in Lc, Ly, Ln, Lcel |- *.
  destruct w as [g p]. cbn [fst snd] in *. cbn [step fst snd] in *.
  unfold wired in Hd. cbn [fst snd] in Hd.
  assert (Hfalse : isInitialized (fst (destroy g p)) = false) by reflexivity.
  rewrite Hfalse in Hd. destruct Hd as [Hnone Hclean].
  assert (Hconfig : config (fst (destroy g p)) = config g) by reflexivity.
  destruct (init_succeeds (fst (destroy g p)) (snd (destroy g p)) Hfalse)
    as (Hi & Hs & Hl' & Hc'); rewrite ?Hconfig; try assumption.
  rewrite Hconfig in Hl', Hc'.
  split; [exact Hi|].
  split; [rewrite Hl', Hnone; reflexivity|].
  split; [rewrite Hc', Hclean; reflexivity|].
  rewrite Hs. reflexivity.
Qed.

Lemma init_after_destroy_rewires_witness :
  let w' := run [Init] (run [Destroy] demoWorld) in
  let cfg := config (fst demoWorld) in
  isInitialized (fst w') = true
  /\ listeners (snd w')
     = gameListeners (noButtonSelector cfg) (containerSelector cfg)
                     (yesButtonSelector cfg) (celebrationSelector cfg)
  /\ cleanupFunctions (fst w')
     = [NoButtonCleanup (noButtonSelector cfg);
        YesButtonCleanup (yesButtonSelector cfg)]
  /\ state (fst w') = createInitialState.
Proof.
  apply (init_after_destroy_rewires demoSite noCustomConfig (demoPage halves)
                                    demoActions);
    [reflexivity | vm_compute; discriminate ..].
Defined.

(** When one of the four elements is missing, [init] registers nothing,
    changes no element, logs one warning and leaves the game not
    initialized, so that a further [init] tries (and warns) again.  The
    references that were found are kept all the same: with the "No"
    button and the container on the page, the [evadeNoButton] method of
    the handle still performs an evasion. *)
Theorem init_without_elements_warns :
  forall (g : Game) (p : Page),
    isInitialized g = false ->
    querySelector p (containerSelector (config g)) = None
    \/ querySelector p (yesButtonSelector (config g)) = None
    \/ querySelector p (noButtonSelector (config g)) = None
    \/ querySelector p (celebrationSelector (config g)) = None ->
    let w' := init g p in
    isInitialized (fst w') = false
    /\ cleanupFunctions (fst w') = cleanupFunctions g
    /\ state (fst w') = state g
    /\ listeners (snd w') = listeners p
    /\ document (snd w') = document p
    /\ console (snd w') = (console p ++ ["Love game elements not found"])%list
    /\ console (snd (init (fst w') (snd w')))
       = (console p ++ ["Love game elements not found";
                        "Love game elements not found"])%list
    /\ (hasAnsweredYes (state g) = false ->
        querySelector p (noButtonSelector (config g)) <> None ->
        querySelector p (containerSelector (config g)) <> None ->
        evasionCount (state (fst (evadeNoButtonManual (fst w') (snd w'))))
        = evasionCount (state g) + 1).
Proof.
  intros g p Hinit Hmissing w'.
  assert (Hfail : forall g0 p0,
             isInitialized g0 = false ->
             querySelector p0 (containerSelector (config g0)) = None
             \/ querySelector p0 (yesButtonSelector (config g0)) = None
             \/ querySelector p0 (noButtonSelector (config g0)) = None
             \/ querySelector p0 (celebrationSelector (config g0)) = None ->
             init g0 p0
             = (mkGame (site g0) (config g0) (state g0)
                  (querySelector p0 (containerSelector (config g0)))
                  (querySelector p0 (yesButtonSelector (config g0)))
                  (querySelector p0 (noButtonSelector (config g0)))
                  (querySelector p0 (celebrationSelector (config g0)))
                  (cleanupFunctions g0) false,
                console_warn p0 "Love game elements not found")).
  { intros g0 p0 H0 Hm. unfold init. rewrite H0.
    destruct (querySelector p0 (containerSelector (config g0)));
      destruct (querySelector p0 (yesButtonSelector (config g0)));
      destruct (querySelector p0 (noButtonSelector (config g0)));
      destruct (querySelector p0 (celebrationSelector (config g0)));
      try reflexivity;
      destruct Hm as [Hm | [Hm | [Hm | Hm]]]; discriminate. }
  subst w'. rewrite (Hfail g p Hinit Hmissing). cbn [fst snd].
  split; [reflexivity|]. split; [reflexivity|]. split; [reflexivity|].
  split; [reflexivity|]. split; [reflexivity|]. split; [reflexivity|].
  split.
  - rewrite Hfail; [|reflexivity|exact Hmissing].
    cbn [snd console_warn console]. rewrite <- app_assoc. reflexivity.
  - intros Hno Qn Qc. unfold evadeNoButtonManual.
    cbn [noButton container state].
    destruct (querySelector p (noButtonSelector (config g))) as [no|] eqn:En;
      [|congruence].
    destruct (querySelector p (containerSelector (config g))) as [c|] eqn:Ec;
      [|congruence].
    rewrite Hno. cbn [negb].
    destruct (querySelector_found _ _ _ En) as [-> Ln].
    destruct (querySelector_found _ _ _ Ec) as [-> Lc].
    match goal with
    | |- context [evadeAt ?G ?P ?n ?c] => apply (evadeAt_counts G P c n)
    end; [exact Hno | exact Ln | exact Lc].
Qed.

Lemma init_without_elements_warns_witness :
  let w' := init (createLoveGame demoSite noCustomConfig)
                 (pageWithoutCelebration halves) in
  isInitialized (fst w') = false
  /\ console (snd w') = ["Love game elements not found"]
  /\ evasionCount (state (fst (evadeNoButtonManual (fst w') (snd w')))) = 1.
Proof.
  destruct (init_without_elements_warns
              (createLoveGame demoSite noCustomConfig)
              (pageWithoutCelebration halves) eq_refl
              (or_intror (or_intror (or_intror eq_refl))))
    as (Hi & _ & _ & _ & _ & Hconsole & _ & Hevade).
  split; [exact Hi|]. split; [exact Hconsole|].
  apply Hevade; [reflexivity | discriminate | discriminate].
Defined.

(** ** Hiding the question and the buttons, and showing them again *)

Section HideAndShow.

Lemma nth_error_replace_nth_other {A : Type} (f : A -> A) (l : list A) :
  forall i j, i <> j -> nth_error (replace_nth j f l) i = nth_error l i.
Proof.
  induction l as [|a l IH]; intros [|i] [|j] Hne; cbn; try reflexivity.
  - congruence.
  - apply IH. congruence.
Qed.

Lemma hasClass_updateAt (f : Element -> Element) (c : string) :
  (forall x, hasClass (f x) c = hasClass x c) ->
  forall p e, hasClass (updateAt p f e) c = hasClass e c.
Proof. intros Hsame [|i q] e; [apply Hsame | reflexivity]. Qed.

Variable f : Element -> Element.
Hypothesis f_children : forall x, childNodes (f x) = childNodes x.

(** An update that keeps the children of the element it changes keeps
    every path valid, and keeps a class flag that [f] keeps. *)
Lemma updateAt_keeps (cls : string) (b : bool) :
  (forall x, hasClass x cls = b -> hasClass (f x) cls = b) ->
  forall q p e n,
    nodeAt q e = Some n ->
    exists n', nodeAt q (updateAt p f e) = Some n'
               /\ (hasClass n cls = b -> hasClass n' cls = b).
Proof.
  intros Hcl. induction q as [|i q IH]; intros p e n Hn.
  - cbn in Hn. injection Hn as <-. eexists. split; [reflexivity|].
    destruct p as [|j p']; [apply Hcl | trivial].
  - cbn [nodeAt] in Hn.
    destruct (nth_error (childNodes e) i) as [child|] eqn:Hchild; [|discriminate].
    destruct p as [|j p'].
    + exists n. split; [|trivial]. cbn [updateAt nodeAt].
      rewrite f_children, Hchild. exact Hn.
    + cbn [updateAt nodeAt with_childNodes childNodes].
      destruct (Nat.eq_dec i j) as [<- | Hne].
      * rewrite (nth_error_replace_nth _ _ _ _ Hchild). apply IH. exact Hn.
      * rewrite (nth_error_replace_nth_other _ _ _ _ Hne), Hchild.
        exists n. split; [exact Hn | trivial].
Qed.

(** Such an update, when it also keeps the class that a query looks for,
    does not change what the query finds. *)
Lemma querySelectorClass_updateAt (c : string) :
  (forall x, hasClass (f x) c = hasClass x c) ->
  forall e p, querySelectorClass c (updateAt p f e) = querySelectorClass c e.
Proof.
  intros Hsame. induction e as [e IHe] using Element_children_ind.
  intros [|j p'].
  - cbn [updateAt]. rewrite !querySelectorClass_scan, f_children. reflexivity.
  - rewrite !querySelectorClass_scan. cbn [updateAt with_childNodes childNodes].
    generalize 0%nat. revert j.
    induction IHe as [|a l Ha _ IHl]; intros [|j] i; cbn [replace_nth scanClass];
      try reflexivity.
    + rewrite (hasClass_updateAt f c Hsame), Ha. reflexivity.
    + fold (scanClass c). rewrite (IHl j (S i)). reflexivity.
Qed.

Lemma onGameElements_spec (b : bool) :
  (forall x, hasClass (f x) "hidden" = b) ->
  forall e q,
    querySelectorClass "game-question" e = Some q
    \/ querySelectorClass "game-buttons" e = Some q ->
    exists n, nodeAt q (onGameElements f e) = Some n /\ hasClass n "hidden" = b.
Proof.
  intros Hset e q Hq. unfold onGameElements.
  assert (Hkeep : forall x, hasClass x "hidden" = b -> hasClass (f x) "hidden" = b)
    by (intros x _; apply Hset).
  destruct Hq as [Hq | Hq].
  - rewrite Hq.
    destruct (querySelectorClass_sound _ _ _ Hq) as (el & Hel & _).
    pose proof (nodeAt_updateAt f q e el Hel) as H1.
    destruct (querySelectorClass "game-buttons" e) as [bb|].
    + destruct (updateAt_keeps "hidden" b Hkeep q bb _ _ H1) as (n' & Hn' & Hb).
      exists n'. split; [exact Hn' | apply Hb, Hset].
    + exists (f el). split; [exact H1 | apply Hset].
  - rewrite Hq.
    destruct (querySelectorClass_sound _ _ _ Hq) as (el & Hel & _).
    assert (H1 : exists n1,
               nodeAt q match querySelectorClass "game-question" e with
                        | Some qq => updateAt qq f e
                        | None => e
                        end = Some n1).
    { destruct (querySelectorClass "game-question" e) as [qq|].
      - destruct (updateAt_keeps "hidden" b Hkeep q qq e el Hel) as (n1 & Hn1 & _).
        exists n1. exact Hn1.
      - exists el. exact Hel. }
    destruct H1 as (n1 & Hn1).
    exists (f n1). split; [apply nodeAt_updateAt; exact Hn1 | apply Hset].
Qed.

Lemma onGameElements_query (c : string) :
  (forall x, hasClass (f x) c = hasClass x c) ->
  forall e, querySelectorClass c (onGameElements f e) = querySelectorClass c e.
Proof.
  intros Hsame e. unfold onGameElements.
  destruct (querySelectorClass "game-question" e),
    (querySelectorClass "game-buttons" e);
    rewrite ?(querySelectorClass_updateAt c Hsame); reflexivity.
Qed.

End HideAndShow.

(** [hideGameElements] hides the first element of class [game-question]
    and the first of class [game-buttons] (also when one lies inside the
    other or both are one element), and adds nothing else: the container
    keeps its own classes and styles, and the two queries still find the
    same elements afterwards. *)
Theorem hide_game_elements_hides :
  forall (container : Element) (q : list nat),
    querySelectorClass "game-question" container = Some q
    \/ querySelectorClass "game-buttons" container = Some q ->
    (exists n, nodeAt q (hideGameElements container) = Some n
               /\ hasClass n "hidden" = true)
    /\ querySelectorClass "game-question" (hideGameElements container)
       = querySelectorClass "game-question" container
    /\ querySelectorClass "game-buttons" (hideGameElements container)
       = querySelectorClass "game-buttons" container
    /\ classList (hideGameElements container) = classList container
    /\ style (hideGameElements container) = style container.
Proof.
  intros container q Hq.
  change (hideGameElements container)
    with (onGameElements (fun e => addClass e ["hidden"]) container).
  assert (Hch : forall x, childNodes (addClass x ["hidden"]) = childNodes x)
    by (intros x; apply addClass_frame).
  split; [apply (onGameElements_spec _ Hch true);
          [intros x; apply hasClass_addClass | exact Hq]|].
  split; [apply (onGameElements_query _ Hch);
          intros x; apply hasClass_addClass_other; discriminate|].
  split; [apply (onGameElements_query _ Hch);
          intros x; apply hasClass_addClass_other; discriminate|].
  unfold onGameElements.
  destruct (querySelectorClass "game-question" container) as [qq|] eqn:Hqq;
    destruct (querySelectorClass "game-buttons" container) as [bb|] eqn:Hbb;
    repeat match goal with
           | H : querySelectorClass _ _ = Some ?r |- _ =>
               apply querySelectorClass_nonempty in H
           end;
    repeat match goal with
           | |- context [updateAt ?r ?g ?e] =>
               rewrite (proj1 (updateAt_frame r g e ltac:(assumption))),
                 (proj2 (updateAt_frame r g e ltac:(assumption)))
           end;
    split; reflexivity.
Qed.

Lemma hide_game_elements_hides_witness :
  option_map (fun n => hasClass n "hidden")
             (nodeAt [0; 1]%nat (hideGameElements gameContainer))
  = Some true.
Proof.
  destruct (hide_game_elements_hides gameContainer [0; 1]%nat (or_intror eq_refl))
    as ((n & Hn & Hhidden) & _).
  rewrite Hn. cbn [option_map]. rewrite Hhidden. reflexivity.
Defined.

(** [destroy] shows the game again: in the container as [destroy] leaves
    it, the first element of class [game-question] and the first of
    class [game-buttons], where there is one, are not hidden. *)
Theorem destroy_shows_game_elements :
  forall (g : Game) (p : Page) (c : string) (e : Element),
    container g = Some c ->
    lookup (document p) c = Some e ->
    exists e',
      lookup (document (snd (destroy g p))) c = Some e'
      /\ forall q : list nat,
          querySelectorClass "game-question" e' = Some q
          \/ querySelectorClass "game-buttons" e' = Some q ->
          exists n, nodeAt q e' = Some n /\ hasClass n "hidden" = false.
Proof.
  intros g p c e Hc He.
  unfold destroy. cbn [snd].
  rewrite resetElements_lookup, cleanups_keep_document, He, Hc, String.eqb_refl.
  cbv zeta.
  set (e1 := match noButton g with
             | Some no => if String.eqb no c then clearButtonStyles e else e
             | None => e
             end).
  set (e2 := match celebrationContainer g with
             | Some cel => if String.eqb cel c then hideCelebration e1 else e1
             | None => e1
             end).
  change (showGameElements e2)
    with (onGameElements (fun n => removeClass n ["hidden"]) e2).
  eexists. split; [reflexivity|].
  intros q Hq.
  apply (onGameElements_spec (fun n => removeClass n ["hidden"])
           (fun x => eq_refl) false (fun x => hasClass_removeClass x "hidden")).
  rewrite !(onGameElements_query (fun n => removeClass n ["hidden"])
              (fun x => eq_refl)) in Hq;
    [exact Hq | intros x; apply hasClass_removeClass_other; discriminate ..].
Qed.

Lemma destroy_shows_game_elements_witness :
  let accepted :=
    run [Init; Dispatch "#yes-button" "click" ""]
        (createLoveGame demoSite noCustomConfig, gamePage halves) in
  let container' (w : Game * Page) :=
    nullish (lookup (document (snd w)) "#game-container") demoContainer in
  option_map (fun n => hasClass n "hidden") (nodeAt [0; 0]%nat (container' accepted))
  = Some true
  /\ option_map (fun n => hasClass n "hidden")
                (nodeAt [0; 0]%nat
                        (container' (destroy (fst accepted) (snd accepted))))
     = Some false.
Proof.
  split; [reflexivity|].
  destruct (destroy_shows_game_elements
              (fst (run [Init; Dispatch "#yes-button" "click" ""]
                        (createLoveGame demoSite noCustomConfig, gamePage halves)))
              (snd (run [Init; Dispatch "#yes-button" "click" ""]
                        (createLoveGame demoSite noCustomConfig, gamePage halves)))
              "#game-container"
              (nullish
                 (lookup
                    (document
                       (snd (run [Init; Dispatch "#yes-button" "click" ""]
                                 (createLoveGame demoSite noCustomConfig,
                                  gamePage halves))))
                    "#game-container")
                 demoContainer)
              eq_refl)
    as (e' & He' & Hshown).
  - vm_compute. reflexivity.
  - cbv zeta. rewrite He'. cbn [nullish].
    destruct (Hshown [0; 0]%nat) as (n & Hn & Hvisible).
    + left. vm_compute in He'. injection He' as <-. vm_compute. reflexivity.
    + rewrite Hn. cbn [option_map]. rewrite Hvisible. reflexivity.
Defined.

(** ** The class that mirrors the motion preference *)

Section MotionPreference.

Import Motion.

Lemma contains_add (l : list string) (c : string) : contains (classList_add l c) c = true.
Proof.
  unfold classList_add. destruct (contains l c) eqn:H; [exact H|].
  unfold contains. rewrite existsb_app. cbn. rewrite String.eqb_refl, orb_true_r.
  reflexivity.
Qed.

Lemma contains_remove (l : list string) (c : string) :
  contains (classList_remove l c) c = false.
Proof.
  unfold contains, classList_remove.
  induction l as [|d l IH]; cbn; [reflexivity|].
  destruct (String.eqb c d) eqn:Heq; cbn; [exact IH|]. rewrite Heq. exact IH.
Qed.

(** What a [change] event leaves alone, and what it does to the class. *)
Lemma runCallbacks_spec (v : bool) (hs : list (nat * Callback)) :
  forall b,
    let b' := fold_left (runCallback v) hs b in
    mediaQueryList b' = mediaQueryList b
    /\ matches b' = matches b
    /\ has_removeEventListener b' = has_removeEventListener b
    /\ has_removeListener b' = has_removeListener b
    /\ (contains (rootClasses b) REDUCED_MOTION_CLASS = v \/ appliesClass hs ->
        contains (rootClasses b') REDUCED_MOTION_CLASS = v)
    /\ (~ appliesClass hs -> rootClasses b' = rootClasses b).
Proof.
  induction hs as [|h hs IH]; intros b; cbn [fold_left].
  - repeat split; trivial. intros [H | [x []]]. exact H.
  - destruct (IH (runCallback v b h)) as (Hm & Hv & He & Hl & Hc & Hn).
    assert (Hstep : mediaQueryList (runCallback v b h) = mediaQueryList b
                    /\ matches (runCallback v b h) = matches b
                    /\ has_removeEventListener (runCallback v b h)
                       = has_removeEventListener b
                    /\ has_removeListener (runCallback v b h) = has_removeListener b)
      by (unfold runCallback; destruct (snd h); repeat split; reflexivity).
    destruct Hstep as (S1 & S2 & S3 & S4).
    split; [rewrite Hm; exact S1|]. split; [rewrite Hv; exact S2|].
    split; [rewrite He; exact S3|]. split; [rewrite Hl; exact S4|].
    split.
    + intros Hpre. apply Hc.
      destruct h as [handler [|name]].
      * left. unfold runCallback. cbn [snd rootClasses with_rootClasses].
        destruct v; [apply contains_add | apply contains_remove].
      * destruct Hpre as [Hpre | [x [Hx | Hx]]].
        -- left. exact Hpre.
        -- discriminate.
        -- right. exists x. exact Hx.
    + intros Hnone. rewrite Hn.
      * destruct h as [handler [|name]]; [|reflexivity].
        exfalso. apply Hnone. exists handler. left. reflexivity.
      * intros [x Hx]. apply Hnone. exists x. right. exact Hx.
Qed.

(** One change of the preference, seen through the handlers. *)
Lemma preferenceChanged_spec (b : Browser) :
  let b' := preferenceChanged b in
  mediaQueryList b' = mediaQueryList b
  /\ matches b' = negb (matches b)
  /\ has_removeEventListener b' = has_removeEventListener b
  /\ has_removeListener b' = has_removeListener b
  /\ (appliesClass (handlersOf b) ->
      contains (rootClasses b') REDUCED_MOTION_CLASS = negb (matches b))
  /\ (~ appliesClass (handlersOf b) -> rootClasses b' = rootClasses b).
Proof.
  unfold preferenceChanged, handlersOf.
  replace (mediaQueryList (with_matches b (negb (matches b))))
    with (mediaQueryList b) by reflexivity.
  destruct (mediaQueryList b) as [hs|] eqn:Hq.
  - destruct (runCallbacks_spec (negb (matches b)) hs
                (with_matches b (negb (matches b))))
      as (Hm & Hv & He & Hl & Hc & Hn).
    split; [rewrite Hm; exact Hq|]. split; [rewrite Hv; reflexivity|].
    split; [rewrite He; reflexivity|]. split; [rewrite Hl; reflexivity|].
    split; [intros Ha; apply Hc; right; exact Ha|].
    intros Ha. rewrite (Hn Ha). reflexivity.
  - cbv zeta. split; [exact Hq|]. repeat split; try reflexivity.
    intros [x []].
Qed.

Lemma changes_spec (n : nat) (b : Browser) :
  let b' := Nat.iter n preferenceChanged b in
  mediaQueryList b' = mediaQueryList b
  /\ has_removeEventListener b' = has_removeEventListener b
  /\ has_removeListener b' = has_removeListener b
  /\ (~ appliesClass (handlersOf b) -> rootClasses b' = rootClasses b).
Proof.
  induction n as [|n IH]; [repeat split; reflexivity|].
  cbv zeta in *. rewrite Nat.iter_succ.
  destruct IH as (I1 & I2 & I3 & I4).
  destruct (preferenceChanged_spec (Nat.iter n preferenceChanged b))
    as (P1 & _ & P3 & P4 & _ & P6).
  cbv zeta in *.
  split; [rewrite P1; exact I1|]. split; [rewrite P3; exact I2|].
  split; [rewrite P4; exact I3|].
  intros Ha. rewrite P6; [apply I4; exact Ha|].
  unfold handlersOf. rewrite I1. exact Ha.
Qed.

Lemma changes_subscribed (n : nat) :
  forall b,
    appliesClass (handlersOf b) ->
    (n <> 0%nat \/ contains (rootClasses b) REDUCED_MOTION_CLASS = matches b) ->
    contains (rootClasses (Nat.iter n preferenceChanged b)) REDUCED_MOTION_CLASS
    = matches (Nat.iter n preferenceChanged b).
Proof.
  destruct n as [|n]; intros b Ha Hpre.
  - destruct Hpre as [H | H]; [congruence | exact H].
  - rewrite Nat.iter_succ.
    destruct (preferenceChanged_spec (Nat.iter n preferenceChanged b))
      as (_ & P2 & _ & _ & P5 & _).
    cbv zeta in *. rewrite P2. apply P5.
    unfold handlersOf. rewrite (proj1 (changes_spec n b)). exact Ha.
Qed.

(** [initMotionPreference] where the browser has [matchMedia] and its
    objects take listeners. *)
Lemma initMotionPreference_supported (b : Browser) :
  has_matchMedia b = true ->
  has_addEventListener b || has_addListener b = true ->
  initMotionPreference b
  = (RemoveHandler (nextHandler b),
     mkBrowser true (has_addEventListener b) (has_addListener b)
               (has_removeEventListener b) (has_removeListener b) (matches b)
               (Some (handlersOf b ++ [(nextHandler b, ApplyMotionClass)])%list)
               (S (nextHandler b))
               (if matches b
                then classList_add (rootClasses b) REDUCED_MOTION_CLASS
                else rootClasses b)
               (calls b)).
Proof.
  intros Hmm Hadd.
  destruct b as [mm ael al rel rl m mql next classes cs].
  cbn [has_matchMedia has_addEventListener has_addListener] in Hmm, Hadd.
  subst mm.
  destruct mql as [hs|], m, ael, al; try discriminate Hadd; reflexivity.
Qed.

End MotionPreference.

(** Where the browser has [matchMedia] and its objects take listeners
    (either way), after [initMotionPreference] the root element carries
    the class [reduced-motion] exactly when the user prefers reduced
    motion, whatever the number of changes of the preference since.
    (Before the first change this needs that the class was not there when
    the user did not prefer reduced motion.) *)
Theorem motion_class_tracks_preference :
  forall (b : Motion.Browser) (changes : nat),
    Motion.has_matchMedia b = true ->
    Motion.has_addEventListener b || Motion.has_addListener b = true ->
    changes <> 0%nat
    \/ Motion.contains (Motion.rootClasses b) Motion.REDUCED_MOTION_CLASS = false ->
    let b' := Nat.iter changes Motion.preferenceChanged
                       (snd (Motion.initMotionPreference b)) in
    Motion.contains (Motion.rootClasses b') Motion.REDUCED_MOTION_CLASS
    = Motion.matches b'.
Proof.
  intros b changes Hmm Hadd Hpre b'. subst b'.
  rewrite (initMotionPreference_supported b Hmm Hadd). cbn [snd].
  apply changes_subscribed.
  - exists (Motion.nextHandler b). unfold handlersOf at 1.
    cbn [Motion.mediaQueryList]. apply in_or_app. right. left. reflexivity.
  - destruct Hpre as [Hn | Hclean]; [left; exact Hn | right].
    cbn [Motion.rootClasses Motion.matches].
    destruct (Motion.matches b); [apply contains_add | exact Hclean].
Qed.

Lemma motion_class_tracks_preference_witness :
  let b' := Nat.iter 3 Motion.preferenceChanged
                     (snd (Motion.initMotionPreference demoBrowser)) in
  Motion.matches b' = false
  /\ Motion.contains (Motion.rootClasses b') Motion.REDUCED_MOTION_CLASS = false.
Proof.
  split; [reflexivity|].
  rewrite (motion_class_tracks_preference demoBrowser 3 eq_refl eq_refl
             (or_introl (Nat.neq_succ_0 2))).
  reflexivity.
Defined.

(** On first use of the module, the clean-up function that
    [initMotionPreference] returned, called after any number of changes
    of the preference, takes the handler off again and removes the class,
    and no later change of the preference brings the class back. *)
Theorem motion_cleanup_detaches :
  forall (b : Motion.Browser) (changes later : nat),
    Motion.has_matchMedia b = true ->
    Motion.has_addEventListener b || Motion.has_addListener b = true ->
    Motion.has_removeEventListener b || Motion.has_removeListener b = true ->
    Motion.mediaQueryList b = None ->
    let r := Motion.initMotionPreference b in
    let b1 := Nat.iter changes Motion.preferenceChanged (snd r) in
    let b2 := Motion.cleanup (fst r) b1 in
    Motion.mediaQueryList b2 = Some []
    /\ Motion.contains (Motion.rootClasses b2) Motion.REDUCED_MOTION_CLASS = false
    /\ Motion.rootClasses (Nat.iter later Motion.preferenceChanged b2)
       = Motion.rootClasses b2.
Proof.
  intros b changes later Hmm Hadd Hrem Hnone r b1 b2.
  subst b2 b1 r. rewrite (initMotionPreference_supported b Hmm Hadd).
  assert (Hh : handlersOf b = []) by (unfold handlersOf; rewrite Hnone; reflexivity).
  cbn [fst snd]. rewrite Hh. cbn [app].
  match goal with
  | |- context [Nat.iter changes Motion.preferenceChanged ?b0] =>
      destruct (changes_spec changes b0) as (K1 & K2 & K3 & _);
      set (b1 := Nat.iter changes Motion.preferenceChanged b0) in *
  end.
  cbn [Motion.mediaQueryList Motion.has_removeEventListener Motion.has_removeListener]
    in K1, K2, K3.
  assert (Hun : Motion.mediaQueryList
                  (Motion.unregister b1 (Motion.nextHandler b)) = Some []).
  { unfold Motion.unregister. rewrite K1.
    cbn [Motion.mediaQueryList Motion.with_mediaQueryList filter fst].
    rewrite Nat.eqb_refl. reflexivity. }
  assert (Hb2 : Motion.mediaQueryList
                  (Motion.cleanup (Motion.RemoveHandler (Motion.nextHandler b)) b1)
                = Some []).
  { unfold Motion.cleanup, Motion.unsubscribe.
    cbn [Motion.mediaQueryList Motion.with_rootClasses].
    rewrite K2, K3.
    destruct (Motion.has_removeEventListener b); [exact Hun|].
    destruct (Motion.has_removeListener b); [exact Hun | discriminate]. }
  split; [exact Hb2|].
  split; [apply contains_remove|].
  destruct (changes_spec later
              (Motion.cleanup (Motion.RemoveHandler (Motion.nextHandler b)) b1))
    as (_ & _ & _ & L4).
  apply L4. unfold handlersOf. rewrite Hb2. intros [x []].
Qed.

Lemma motion_cleanup_detaches_witness :
  let r := Motion.initMotionPreference demoBrowser in
  let b2 := Motion.cleanup (fst r) (Nat.iter 2 Motion.preferenceChanged (snd r)) in
  Motion.matches b2 = true
  /\ Motion.mediaQueryList b2 = Some []
  /\ Motion.rootClasses (Nat.iter 5 Motion.preferenceChanged b2) = ["no-js"].
Proof.
  split; [reflexivity|].
  destruct (motion_cleanup_detaches demoBrowser 2 5 eq_refl eq_refl eq_refl eq_refl)
    as (Hq & _ & Hlater).
  split; [exact Hq|]. rewrite Hlater. reflexivity.
Defined.

(** Without [window.matchMedia] the module reports no preference for
    reduced motion whatever the user prefers, creates no object
    and registers nothing: [initMotionPreference] leaves the browser as it
    was. *)
Theorem motion_without_matchMedia :
  forall (b : Motion.Browser) (callback : Motion.Callback),
    Motion.has_matchMedia b = false ->
    Motion.prefersReducedMotion b = (false, b)
    /\ Motion.onMotionPreferenceChange callback b = (Motion.NoOp, b)
    /\ Motion.initMotionPreference b = (Motion.NoOp, b)
    /\ Motion.unsubscribe (fst (Motion.onMotionPreferenceChange callback b)) b = b.
Proof.
  intros b callback Hmm.
  assert (Hp : Motion.prefersReducedMotion b = (false, b))
    by (unfold Motion.prefersReducedMotion, Motion.getMediaQueryList;
        rewrite Hmm; reflexivity).
  assert (Ho : forall cb, Motion.onMotionPreferenceChange cb b = (Motion.NoOp, b))
    by (intros cb; unfold Motion.onMotionPreferenceChange, Motion.getMediaQueryList;
        rewrite Hmm; reflexivity).
  split; [exact Hp|]. split; [apply Ho|].
  split; [unfold Motion.initMotionPreference; rewrite Hp; apply Ho|].
  rewrite Ho. reflexivity.
Qed.

Lemma motion_without_matchMedia_witness :
  Motion.matches demoOldBrowser = true
  /\ Motion.prefersReducedMotion demoOldBrowser = (false, demoOldBrowser)
  /\ Motion.initMotionPreference demoOldBrowser = (Motion.NoOp, demoOldBrowser).
Proof.
  split; [reflexivity|].
  destruct (motion_without_matchMedia demoOldBrowser Motion.ApplyMotionClass eq_refl)
    as (Hp & _ & Hi & _).
  split; [exact Hp | exact Hi].
Defined.
